(** * Traffic analyzer: ledger, violation debounce and statistics

    A shallow embedding of [UltimateTrafficAnalyzer] and of the per-frame
    speed computation of [main] in
    [TCS/examples/speed_estimation/ultralytics_example.py], with the
    properties of the design document proved (or refuted) about it.

    Conventions of the embedding.
    - Python [int] is [Z]; counters that start at 0 or 1 and are only ever
      incremented ([violation_count], the [Counter] of classes, [len]) are
      [nat].
    - The program is embedded twice.  In the first embedding a Python
      [float] is an exact rational [Q] and a coordinate an unbounded
      integer: it carries the properties of the ledger, of the sequence
      numbers, of the guards and of the frame loop, which hold however an
      arithmetic result is rounded.  In the second embedding ([Float],
      [Machine]) a float is a binary64 number with its rounding, its
      infinities and NaN, a coordinate is an [int64] of numpy, and [int]
      and the subtraction of timestamps raise as they do in Python: it
      carries the properties that depend on the value of a difference, a
      quotient or a product, or that quantify over every argument.
    - [dict] is stdpp's [gmap], [set] is [gset]; iteration order is not
      modelled because every reader of the dictionaries ([sum], [max],
      [len]) is insensitive to it.
    - A method that mutates [self] is a function from the analyzer to the
      analyzer after the call, together with what the call returned and
      the alert messages it handed to [send_sms]. *)

From Stdlib Require Import QArith Qabs Qround Qpower Lqa Ascii.
From Stdlib Require PrimFloat FloatOps SpecFloat.
From stdpp Require Import gmap strings list fin_maps pretty.

(** ** Python numbers *)

Module Py.

(** [x < y] on floats. *)
Definition ltb (x y : Q) : bool := negb (Qle_bool y x).

(** [int(x)]: truncation toward zero. *)
Definition int (x : Q) : Z := Z.quot (Qnum x) (Zpos (Qden x)).

(** [max(a, b)]: the first argument is kept unless the second is
    strictly greater. *)
Definition max (a b : Q) : Q := if ltb a b then b else a.

(** [str(n)] for an integer, as used by the f-strings. *)
Definition str (n : Z) : string := pretty n.

(** [max(l)] on a non-empty list of integers (0 stands for the
    [ValueError] of the empty list, which the callers guard against). *)
Definition max_list (l : list Z) : Z :=
  match l with
  | [] => 0
  | x :: l' => foldl (λ m y, if (m <? y)%Z then y else m) x l'
  end.

(** [sum(l)]. *)
Definition sum (l : list Z) : Z := foldl Z.add 0%Z l.

End Py.

(** ** Records of the analyzer *)

(** The dictionary appended to [self.violations[vehicle_key]]. *)
Module Violation.
Record t : Type := mk {
  tracker_id : Z;
  class : string;
  speed_kmh : Z;
  timestamp : string;
  violation_number : nat
}.
End Violation.

(** The dictionary stored in [self.vehicle_states[vehicle_key]]. *)
Module VehicleState.
Record t : Type := mk {
  last_speed : Q;
  last_time : string;
  violation_count : nat;
  max_speed : Q
}.
End VehicleState.

(** The dictionary returned by [get_statistics]; [processing_duration]
    reads the wall clock and is left out. *)
Module Stats.
Record t : Type := mk {
  analysis_id : string;
  total_vehicles_detected : nat;
  vehicles_in_zone : nat;
  total_unique_violations : nat;
  vehicle_class_distribution : gmap string nat;
  max_speed : Z;
  avg_speed : Q;
  vehicles_with_violations : nat
}.
End Stats.

(** The attributes set by [UltimateTrafficAnalyzer.__init__]
    ([start_time] is only read by [processing_duration]). *)
Record UltimateTrafficAnalyzer : Type := mkAnalyzer {
  all_vehicles_seen : gset string;
  zone_vehicles_seen : gset string;
  violations : gmap string (list Violation.t);
  vehicle_states : gmap string VehicleState.t;
  unique_vehicle_classes : gmap string nat;
  analysis_id : string
}.

(** [UltimateTrafficAnalyzer(analysis_id)]. *)
Definition init (aid : string) : UltimateTrafficAnalyzer :=
  {| all_vehicles_seen := ∅;
     zone_vehicles_seen := ∅;
     violations := ∅;
     vehicle_states := ∅;
     unique_vehicle_classes := ∅;
     analysis_id := aid |}.

Definition SPEED_LIMIT : Q := 100%Q.

(** [f"{tracker_id}_{class_name}"]. *)
Definition vehicle_key (tracker_id : Z) (class_name : string) : string :=
  Py.str tracker_id +:+ "_" +:+ class_name.

(** A string without the separator of the keys. *)
Fixpoint no_sep (s : string) : Prop :=
  match s with
  | EmptyString => True
  | String c s' => c ≠ "_"%char ∧ no_sep s'
  end.

(** [self.violations[k]] read through the [defaultdict]. *)
Definition violations_of (a : UltimateTrafficAnalyzer) (k : string)
  : list Violation.t :=
  default [] (violations a !! k).

(** [self.unique_vehicle_classes[c]] read through the [Counter]. *)
Definition class_count (a : UltimateTrafficAnalyzer) (c : string) : nat :=
  default 0 (unique_vehicle_classes a !! c).

(** ** [record_vehicle] *)

Definition record_vehicle (tracker_id : option Z) (class_name : string)
    (in_zone : bool) (a : UltimateTrafficAnalyzer) : UltimateTrafficAnalyzer :=
  match tracker_id with
  | None => a
  | Some tid =>
    let vehicle_key := vehicle_key tid class_name in
    let a1 :=
      if bool_decide (vehicle_key ∉ all_vehicles_seen a) then
        {| all_vehicles_seen := all_vehicles_seen a ∪ {[vehicle_key]};
           zone_vehicles_seen := zone_vehicles_seen a;
           violations := violations a;
           vehicle_states := vehicle_states a;
           unique_vehicle_classes :=
             <[class_name := S (class_count a class_name)]>
               (unique_vehicle_classes a);
           analysis_id := analysis_id a |}
      else a in
    if in_zone then
      {| all_vehicles_seen := all_vehicles_seen a1;
         zone_vehicles_seen := zone_vehicles_seen a1 ∪ {[vehicle_key]};
         violations := violations a1;
         vehicle_states := vehicle_states a1;
         unique_vehicle_classes := unique_vehicle_classes a1;
         analysis_id := analysis_id a1 |}
    else a1
  end.

(** ** [get_statistics] *)

(** [self.violations.values()]. *)
Definition violation_lists (a : UltimateTrafficAnalyzer)
  : list (list Violation.t) :=
  (map_to_list (violations a)).*2.

(** [[v['speed_kmh'] for violations_list in self.violations.values()
      for v in violations_list]]. *)
Definition all_speeds (a : UltimateTrafficAnalyzer) : list Z :=
  mjoin ((λ violations_list : list Violation.t,
            Violation.speed_kmh <$> violations_list)
         <$> violation_lists a).

Definition get_statistics (a : UltimateTrafficAnalyzer) : Stats.t :=
  let total_vehicles := size (all_vehicles_seen a) in
  let zone_vehicles := size (zone_vehicles_seen a) in
  let total_violations := sum_list (length <$> violation_lists a) in
  let all_speeds := all_speeds a in
  {| Stats.analysis_id := analysis_id a;
     Stats.total_vehicles_detected := total_vehicles;
     Stats.vehicles_in_zone := zone_vehicles;
     Stats.total_unique_violations := total_violations;
     Stats.vehicle_class_distribution := unique_vehicle_classes a;
     Stats.max_speed :=
       match all_speeds with [] => 0%Z | _ => Py.max_list all_speeds end;
     Stats.avg_speed :=
       match all_speeds with
       | [] => 0%Q
       | _ => (inject_Z (Py.sum all_speeds)
               / inject_Z (Z.of_nat (length all_speeds)))%Q
       end;
     Stats.vehicles_with_violations := size (violations a) |}.

(** Every record held by the analyzer, over all vehicles. *)
Definition all_records (a : UltimateTrafficAnalyzer) : list Violation.t :=
  mjoin (violation_lists a).

(** The key under which a record is filed. *)
Definition record_key (v : Violation.t) : string :=
  vehicle_key (Violation.tracker_id v) (Violation.class v).

(** The keys of [self.violations] whose list is not empty. *)
Definition keys_with_violations (a : UltimateTrafficAnalyzer)
  : gset string :=
  dom (filter (λ kv, 0 < length kv.2) (violations a)).

(** ** The speed estimate of [main] *)

(** [d.append(y)] on a [deque(maxlen=maxlen)]: the oldest samples are
    dropped once the capacity is exceeded. *)
Definition deque_append (maxlen : nat) (d : list Z) (y : Z) : list Z :=
  let d' := d ++ [y] in drop (length d' - maxlen) d'.

(** The body of the loop between [coordinates[tracker_id].append] and the
    label, on the buffer after the append.  [None] stands for an
    exception: the [IndexError] of reading an empty buffer, or the
    [ZeroDivisionError] of a frame rate of 0. *)
Definition estimate_speed (fps : nat) (coordinates : list Z) : option Q :=
  let len := inject_Z (Z.of_nat (length coordinates)) in
  if Py.ltb len (inject_Z (Z.of_nat fps) / 2)%Q then Some 0%Q
  else
    match last coordinates, head coordinates with
    | Some coordinate_start, Some coordinate_end =>
      let distance := Z.abs (coordinate_start - coordinate_end) in
      match fps with
      | 0 => None
      | S _ =>
        let time := (len / inject_Z (Z.of_nat fps))%Q in
        Some (inject_Z distance / time * (36 # 10))%Q
      end
    | _, _ => None
    end.

(** ** [record_violation] *)

(** How a call ends: it returns [violation_data] or [None], or
    [datetime.fromisoformat] raises [ValueError]. *)
Inductive outcome : Type :=
  | Returned (violation_data : option Violation.t)
  | Raised.

(** The analyzer after the call, the way the call ended, and the messages
    passed to [send_sms] during the call, oldest first. *)
Record effect : Type := mkEffect {
  after : UltimateTrafficAnalyzer;
  result : outcome;
  alerts : list string
}.

(** [f"ALERT! {class_name} #{tracker_id} at {int(speed_kmh)} km/h"]. *)
Definition alert_msg (class_name : string) (tracker_id : Z) (speed_kmh : Q)
  : string :=
  "ALERT! " +:+ class_name +:+ " #" +:+ Py.str tracker_id +:+ " at "
    +:+ Py.str (Py.int speed_kmh) +:+ " km/h".

(** The analyzer with one more record in [violations[k]] and [st] stored
    in [vehicle_states[k]]. *)
Definition commit (k : string) (st : VehicleState.t) (v : Violation.t)
    (a : UltimateTrafficAnalyzer) : UltimateTrafficAnalyzer :=
  {| all_vehicles_seen := all_vehicles_seen a;
     zone_vehicles_seen := zone_vehicles_seen a;
     violations := <[k := violations_of a k ++ [v]]> (violations a);
     vehicle_states := <[k := st]> (vehicle_states a);
     unique_vehicle_classes := unique_vehicle_classes a;
     analysis_id := analysis_id a |}.

(** A parser that agrees with [datetime.fromisoformat] on four timestamps
    of one minute, counted in seconds from its start; used to run the
    model on concrete calls. *)
Definition iso_sample (s : string) : option Q :=
  if String.eqb s "2024-05-01T10:00:00" then Some 0%Q
  else if String.eqb s "2024-05-01T10:00:01" then Some 1%Q
  else if String.eqb s "2024-05-01T10:00:06" then Some 6%Q
  else if String.eqb s "2024-05-01T10:00:07.500000" then Some (15 # 2)%Q
  else None.

Section Analyzer.

(** [datetime.datetime.fromisoformat]: the instant a timestamp denotes,
    in seconds on a common axis, or [None] where it raises
    [ValueError]. *)
Variable fromisoformat : string → option Q.

(** The track id is an integer, so that [int(tracker_id)] is the id
    itself; the two timestamps are parsed before anything is assigned. *)

Definition record_violation (tracker_id : option Z) (class_name : string)
    (speed_kmh : Q) (timestamp : string) (a : UltimateTrafficAnalyzer)
  : effect :=
  match tracker_id with
  | None => mkEffect a (Returned None) []
  | Some tid =>
    if Py.ltb speed_kmh 5%Q then mkEffect a (Returned None) []
    else
      let vehicle_key := vehicle_key tid class_name in
      match vehicle_states a !! vehicle_key with
      | None =>
        let state := VehicleState.mk speed_kmh timestamp 1 speed_kmh in
        let violation_data :=
          Violation.mk tid class_name (Py.int speed_kmh) timestamp 1 in
        mkEffect (commit vehicle_key state violation_data a)
                 (Returned (Some violation_data)) []
      | Some state =>
        match fromisoformat timestamp,
              fromisoformat (VehicleState.last_time state) with
        | Some t, Some t0 =>
          let time_diff := (t - t0)%Q in
          let speed_diff :=
            Qabs (speed_kmh - VehicleState.last_speed state) in
          if Py.ltb 10%Q speed_diff || Py.ltb 5%Q time_diff then
            let state' :=
              VehicleState.mk speed_kmh timestamp
                (S (VehicleState.violation_count state))
                (Py.max (VehicleState.max_speed state) speed_kmh) in
            let violation_data :=
              Violation.mk tid class_name (Py.int speed_kmh) timestamp
                (VehicleState.violation_count state') in
            mkEffect (commit vehicle_key state' violation_data a)
                     (Returned (Some violation_data))
                     (if Py.ltb SPEED_LIMIT speed_kmh
                      then [alert_msg class_name tid speed_kmh] else [])
          else mkEffect a (Returned None) []
        | _, _ => mkEffect a Raised []
        end
      end
  end.

(** ** Runs of the analyzer *)

(** One call of the processing loop on the analyzer. *)
Inductive call : Type :=
  | RecordVehicle (tracker_id : option Z) (class_name : string)
      (in_zone : bool)
  | RecordViolation (tracker_id : option Z) (class_name : string)
      (speed_kmh : Q) (timestamp : string).

(** The analyzer together with what it has produced so far: the records
    returned by [record_violation], in order of emission, and the
    messages handed to [send_sms]. *)
Record world : Type := mkWorld {
  analyzer : UltimateTrafficAnalyzer;
  emitted : list Violation.t;
  sent : list string
}.

Definition exec (w : world) (c : call) : world :=
  match c with
  | RecordVehicle tracker_id class_name in_zone =>
    mkWorld (record_vehicle tracker_id class_name in_zone (analyzer w))
            (emitted w) (sent w)
  | RecordViolation tracker_id class_name speed_kmh timestamp =>
    let e :=
      record_violation tracker_id class_name speed_kmh timestamp
        (analyzer w) in
    mkWorld (after e)
            (match result e with
             | Returned (Some v) => emitted w ++ [v]
             | _ => emitted w
             end)
            (sent w ++ alerts e)
  end.

(** A fresh analyzer driven through a sequence of calls; a call that
    raises leaves the run going, as for a caller that catches. *)
Definition run (aid : string) (calls : list call) : world :=
  foldl exec (mkWorld (init aid) [] []) calls.

(** Repeated sightings of one vehicle, one [in_zone] flag per call. *)
Definition sightings (tracker_id : Z) (class_name : string)
    (flags : list bool) (a : UltimateTrafficAnalyzer)
  : UltimateTrafficAnalyzer :=
  foldl (λ a in_zone, record_vehicle (Some tracker_id) class_name in_zone a)
        a flags.

End Analyzer.

Arguments record_violation : simpl never.
Arguments record_vehicle : simpl never.

(** The records emitted so far for the vehicle filed under [k], in order
    of emission. *)
Definition emitted_for (k : string) (w : world) : list Violation.t :=
  filter (λ v, record_key v = k) (emitted w).

(** What a run maintains for every key: an untracked vehicle has no list
    and no emitted record; a tracked one has the list of its emitted
    records, numbered from 1 without gap, and a counter equal to their
    number. *)
Definition consistent (w : world) : Prop :=
  ∀ k,
    match vehicle_states (analyzer w) !! k with
    | None =>
      violations (analyzer w) !! k = None ∧ emitted_for k w = []
    | Some st =>
      ∃ l, violations (analyzer w) !! k = Some l
           ∧ l = emitted_for k w
           ∧ Violation.violation_number <$> l = seq 1 (length l)
           ∧ VehicleState.violation_count st = length l
           ∧ 0 < length l
    end.

(** A run over two vehicles that exercises every branch: a first record,
    an absorbed measurement, later records (one of them over the limit),
    a measurement below the floor, a detection without track id and an
    unparsable timestamp. *)
Definition sample_calls : list call :=
  [RecordVehicle (Some 7%Z) "car" true;
   RecordViolation (Some 7%Z) "car" 80%Q "2024-05-01T10:00:00";
   RecordViolation (Some 7%Z) "car" 89%Q "2024-05-01T10:00:01";
   RecordViolation (Some 7%Z) "car" 91%Q "2024-05-01T10:00:01";
   RecordVehicle (Some 8%Z) "truck" false;
   RecordViolation (Some 8%Z) "truck" 120%Q "2024-05-01T10:00:01";
   RecordViolation (Some 7%Z) "car" 4%Q "2024-05-01T10:00:06";
   RecordViolation None "car" 50%Q "2024-05-01T10:00:06";
   RecordViolation (Some 8%Z) "truck" (271 # 2)%Q "2024-05-01T10:00:06";
   RecordViolation (Some 7%Z) "car" 95%Q "yesterday"].

(** The states of the analyzer used in the examples: a car with track id
    7 first measured at 80 km/h, that is, [last_speed = 80] and
    [last_time = T] for [T] the first sample timestamp. *)
Definition tracked_at_80 : UltimateTrafficAnalyzer :=
  analyzer (run iso_sample "run-1"
    [RecordVehicle (Some 7%Z) "car" true;
     RecordViolation (Some 7%Z) "car" 80%Q "2024-05-01T10:00:00"]).

(** What the analyzer keeps between the state of a vehicle and its list
    of records: no state, no list; otherwise the state describes the last
    record of the list, and [max_speed] dominates every recorded speed. *)
Definition mirrored (a : UltimateTrafficAnalyzer) : Prop :=
  ∀ k,
    match vehicle_states a !! k with
    | None => violations a !! k = None
    | Some st =>
      ∃ l v,
        violations a !! k = Some (l ++ [v])
        ∧ Violation.timestamp v = VehicleState.last_time st
        ∧ Violation.speed_kmh v = Py.int (VehicleState.last_speed st)
        ∧ Violation.violation_number v = VehicleState.violation_count st
        ∧ VehicleState.violation_count st = length (l ++ [v])
        ∧ (VehicleState.last_speed st <= VehicleState.max_speed st)%Q
        ∧ ∀ v', v' ∈ l ++ [v] →
            record_key v' = k
            ∧ (5 ≤ Violation.speed_kmh v')%Z
            ∧ (inject_Z (Violation.speed_kmh v')
               <= VehicleState.max_speed st)%Q
    end.

(** ** The frame loop of [main] *)

(** One detection inside the monitored polygon, as the loop reads it:
    the track id, the rectified longitudinal coordinate [points[i][1]],
    the class name and the value [datetime.datetime.now().isoformat()]
    would give at that moment. *)
Record zone_detection : Type := mkZone {
  zone_tracker_id : option Z;
  zone_y : Z;
  zone_class : string;
  zone_now : string
}.

(** One frame: the detections of the first loop (id and class name) and
    the detections inside the zone. *)
Record frame : Type := mkFrame {
  frame_detections : list (option Z * string);
  frame_zone : list zone_detection
}.

(** The state the loop carries from frame to frame: the history buffers
    [coordinates], keyed by track id, and the analyzer with what it has
    produced. *)
Record loop_state : Type := mkLoop {
  coordinates : gmap Z (list Z);
  trace : world
}.

(** [f"#{tracker_id} {class_name} {int(speed_kmh)} km/h"], with the
    warning mark above the limit. *)
Definition speed_label (tracker_id : Z) (class_name : string)
    (speed_kmh : Q) : string :=
  let label :=
    "#" +:+ Py.str tracker_id +:+ " " +:+ class_name +:+ " "
      +:+ Py.str (Py.int speed_kmh) +:+ " km/h" in
  if Py.ltb SPEED_LIMIT speed_kmh then label +:+ " ⚠️" else label.

Section Loop.

Variable fromisoformat : string → option Q.

(** The body of the loop over the zone detections.  [None] is an
    exception that ends [main]: nothing in the loop catches it. *)
Definition zone_detection_step (fps : nat) (d : zone_detection)
    (s : loop_state) : option (loop_state * option string) :=
  match zone_tracker_id d with
  | None => Some (s, None)
  | Some tracker_id =>
    let buffer :=
      deque_append fps (default [] (coordinates s !! tracker_id))
        (zone_y d) in
    let coordinates' := <[tracker_id := buffer]> (coordinates s) in
    let class_name := zone_class d in
    let w :=
      exec fromisoformat (trace s)
        (RecordVehicle (Some tracker_id) class_name true) in
    match estimate_speed fps buffer with
    | None => None
    | Some speed_kmh =>
      let label := speed_label tracker_id class_name speed_kmh in
      if Py.ltb 5%Q speed_kmh then
        let call :=
          RecordViolation (Some tracker_id) class_name speed_kmh
            (zone_now d) in
        match result (record_violation fromisoformat (Some tracker_id)
                        class_name speed_kmh (zone_now d) (analyzer w)) with
        | Raised => None
        | Returned _ =>
          Some (mkLoop coordinates' (exec fromisoformat w call), Some label)
        end
      else Some (mkLoop coordinates' w, Some label)
    end
  end.

(** The loop over the zone detections of one frame, collecting the
    labels. *)
Fixpoint zone_loop (fps : nat) (ds : list zone_detection) (s : loop_state)
    (labels : list string) : option (loop_state * list string) :=
  match ds with
  | [] => Some (s, labels)
  | d :: ds' =>
    match zone_detection_step fps d s with
    | None => None
    | Some (s', label) =>
      zone_loop fps ds' s' (labels ++ option_list label)
    end
  end.

(** The first loop of a frame: every detection that carries a track id
    is counted. *)
Definition count_all (detections : list (option Z * string)) (w : world)
  : world :=
  foldl (λ w d,
           match d.1 with
           | Some tracker_id =>
             exec fromisoformat w
               (RecordVehicle (Some tracker_id) d.2 false)
           | None => w
           end)
        w detections.

(** One iteration of the frame loop, display and persistence left out. *)
Definition process_frame (fps : nat) (f : frame) (s : loop_state)
  : option (loop_state * list string) :=
  zone_loop fps (frame_zone f)
    (mkLoop (coordinates s) (count_all (frame_detections f) (trace s))) [].

(** The frame loop from its initial state. *)
Fixpoint process_frames (fps : nat) (frames : list frame) (s : loop_state)
  : option loop_state :=
  match frames with
  | [] => Some s
  | f :: frames' =>
    match process_frame fps f s with
    | None => None
    | Some (s', _) => process_frames fps frames' s'
    end
  end.

Definition main_loop (fps : nat) (aid : string) (frames : list frame)
  : option loop_state :=
  process_frames fps frames (mkLoop ∅ (mkWorld (init aid) [] [])).

End Loop.

(** The zone detections of a video, in the order the loop meets them,
    and the coordinates sampled for one track id. *)
Definition all_zone (frames : list frame) : list zone_detection :=
  mjoin (frame_zone <$> frames).

Definition samples_of (tracker_id : Z) (ds : list zone_detection) : list Z :=
  zone_y <$> filter (λ d, zone_tracker_id d = Some tracker_id) ds.

(** ** Persistence of the violations *)

(** The document built by [save_individual_violations] for one record. *)
Module ViolationDoc.
Record t : Type := mk {
  analysis_id : string;
  timestamp : string;
  vehicle_id : Z;
  vehicle_type : string;
  speed_kmh : Z;
  violation_number : nat;
  is_speeding : bool;
  severity : string
}.
End ViolationDoc.

Definition violation_record (analysis_id : string) (violation : Violation.t)
  : ViolationDoc.t :=
  {| ViolationDoc.analysis_id := analysis_id;
     ViolationDoc.timestamp := Violation.timestamp violation;
     ViolationDoc.vehicle_id := Violation.tracker_id violation;
     ViolationDoc.vehicle_type := Violation.class violation;
     ViolationDoc.speed_kmh := Violation.speed_kmh violation;
     ViolationDoc.violation_number := Violation.violation_number violation;
     ViolationDoc.is_speeding := (100 <? Violation.speed_kmh violation)%Z;
     ViolationDoc.severity :=
       if (120 <? Violation.speed_kmh violation)%Z then "high"
       else if (100 <? Violation.speed_kmh violation)%Z then "medium"
       else "low" |}.

(** The list [violations_list] built by the two nested loops over
    [violations_data.items()], given in iteration order. *)
Definition violations_list (analysis_id : string)
    (items : list (string * list Violation.t)) : list ViolationDoc.t :=
  mjoin ((λ kv : string * list Violation.t,
            violation_record analysis_id <$> kv.2) <$> items).

(** [range(0, stop, step)] for a positive step. *)
Definition range_from_0 (stop step : nat) : list nat :=
  (λ j, j * step) <$> seq 0 ((stop + step - 1) `div` step).

Section Persistence.

(** The database as [save_to_mongodb] sees it, and
    [save_to_mongodb("violations", data)]: the database after the call
    and the boolean returned (the function catches every exception). *)
Variable DB : Type.
Variable save_to_mongodb : ViolationDoc.t → DB → DB * bool.

(** The body of the innermost loop: one document saved, one success
    counted. *)
Definition save_one (acc : DB * nat) (violation : ViolationDoc.t)
  : DB * nat :=
  let '(db', ok) := save_to_mongodb violation acc.1 in
  (db', if ok then S acc.2 else acc.2).

Definition save_individual_violations
    (items : list (string * list Violation.t)) (analysis_id : string)
    (db : DB) : DB * bool :=
  let violations_list := violations_list analysis_id items in
  match violations_list with
  | [] => (db, false)
  | _ =>
    let batch_size := 50 in
    let r :=
      foldl (λ acc i,
               let batch := take batch_size (drop i violations_list) in
               foldl save_one acc batch)
            (db, 0)
            (range_from_0 (length violations_list) batch_size) in
    (r.1, bool_decide (0 < r.2))
  end.

End Persistence.

(** ** The figures of the reports *)

(** [speeding_count] and [high_severity] of the generated documents. *)
Definition speeding_count (values : list (list Violation.t)) : nat :=
  sum_list ((λ _, 1) <$>
    filter (λ v, (100 < Violation.speed_kmh v)%Z) (mjoin values)).

Definition high_severity (values : list (list Violation.t)) : nat :=
  sum_list ((λ _, 1) <$>
    filter (λ v, (120 < Violation.speed_kmh v)%Z) (mjoin values)).

(** [min(a, b)] on floats: the first argument is kept unless the second
    is strictly smaller. *)
Definition float_min (a b : Q) : Q := if Py.ltb b a then b else a.

(** The four scores of the reports. *)
Record scores : Type := mkScores {
  safety_score : Q;
  efficiency_score : Q;
  compliance_score : Q;
  overall_score : Q
}.

(** The block "Calculate performance scores" of the report generators,
    on the dictionary returned by [get_statistics] (every key is
    present).  [None] is the [ZeroDivisionError] of the violation rate,
    which the generators catch to return [None] themselves. *)
Definition performance_scores (stats : Stats.t) : option scores :=
  let total_vehicles := Stats.total_vehicles_detected stats in
  match total_vehicles with
  | 0 => None
  | S _ =>
    let violation_rate :=
      (inject_Z (Z.of_nat (Stats.total_unique_violations stats))
       / inject_Z (Z.of_nat total_vehicles) * 100)%Q in
    let avg_speed := Stats.avg_speed stats in
    let max_speed := Stats.max_speed stats in
    let safety_score := Py.max 0%Q (100 - violation_rate * 2)%Q in
    let efficiency_score :=
      if Py.ltb 0%Q avg_speed then float_min 100%Q (avg_speed / 80 * 100)%Q
      else 0%Q in
    let compliance_score :=
      if (max_speed <=? 100)%Z then 100%Z
      else
        let rest := (100 - (max_speed - 100))%Z in
        if (0 <? rest)%Z then rest else 0%Z in
    Some {| safety_score := safety_score;
            efficiency_score := efficiency_score;
            compliance_score := inject_Z compliance_score;
            overall_score :=
              ((safety_score + efficiency_score + inject_Z compliance_score)
               / 3)%Q |}
  end.

(** The risk shown by the dashboard for a number of violations, and the
    risk level stored with the scorecard. *)
Definition risk_score (total_violations : nat) : nat :=
  if bool_decide (200 < total_violations) then 75
  else if bool_decide (100 < total_violations) then 45 else 25.

Definition risk_level (risk_score : nat) : string :=
  if bool_decide (70 < risk_score) then "High"
  else if bool_decide (40 < risk_score) then "Medium" else "Low".

Definition scorecard_risk_level (total_unique_violations : nat) : string :=
  if bool_decide (200 < total_unique_violations) then "high"
  else if bool_decide (100 < total_unique_violations) then "medium"
  else "low".

(** ** The data of the dashboard *)

Section Dashboard.

(** The database handle, the documents of a collection, and the query
    [collection.find().sort("timestamp", -1)] read to the end ([None]
    where it raises). *)
Variable DB : Type.
Variable Doc : Type.
Variable find_sorted : DB → option (list Doc).

(** [get_violations_data(_db, limit)]; a cursor limit of 0 is no limit. *)
Definition get_violations_data (_db : option DB) (limit : nat) : list Doc :=
  match _db with
  | None => []
  | Some db =>
    match find_sorted db with
    | None => []
    | Some found =>
      match limit with
      | 0 => found
      | S _ => take limit found
      end
    end
  end.

(** The risk assessment of the dashboard, on the data it loads with
    [get_violations_data(db, 100)]. *)
Definition dashboard_risk (_db : option DB) : nat * string :=
  let violations_data := get_violations_data _db 100 in
  let total_violations := length violations_data in
  let risk_score := risk_score total_violations in
  (risk_score, risk_level risk_score).

End Dashboard.

(** A database that is connected and stores every document handed to
    it. *)
Definition store_all (d : ViolationDoc.t) (db : list ViolationDoc.t)
  : list ViolationDoc.t * bool :=
  (db ++ [d], true).

(** Frames of a sample video at 4 frames per second: a car that moves 10
    units per frame and a stationary truck. *)
Definition sample_frames : list frame :=
  [mkFrame [] [mkZone (Some 7%Z) 100 "car" "2024-05-01T10:00:00";
               mkZone (Some 8%Z) 40 "truck" "2024-05-01T10:00:00"];
   mkFrame [] [mkZone (Some 7%Z) 110 "car" "2024-05-01T10:00:00";
               mkZone None 0 "car" "2024-05-01T10:00:00";
               mkZone (Some 8%Z) 40 "truck" "2024-05-01T10:00:00"];
   mkFrame [(Some 9%Z, "bus")]
           [mkZone (Some 7%Z) 120 "car" "2024-05-01T10:00:01"];
   mkFrame [] [mkZone (Some 7%Z) 130 "car" "2024-05-01T10:00:01"];
   mkFrame [] [mkZone (Some 7%Z) 170 "car" "2024-05-01T10:00:06"]].

(** * The analyzer on machine numbers *)

(** The embedding above computes on exact rationals and on unbounded
    integers.  That decides every property that holds however an
    arithmetic result is rounded.  The properties that speak of the result
    of a subtraction, a division or a product, or of every possible
    argument, need the numbers of the program: binary64 floats with their
    rounding, infinities and NaN, the 64-bit integers of numpy, the
    exceptions of [int] and of the subtraction of timestamps.  This second
    embedding has them. *)

(** ** Exceptions *)

Inductive exception : Type :=
  | ValueError
  | TypeError
  | OverflowError
  | ZeroDivisionError
  | IndexError.

(** The value of an expression, or the exception it raises. *)
Inductive evaluation (A : Type) : Type :=
  | Value (x : A)
  | Raises (e : exception).

Arguments Value {A} x.
Arguments Raises {A} e.

(** ** Python floats *)

(** A float is a binary64 number, given by its value: a rational (of the
    form [m * 2^e] with [|m| < 2^53] and [-1074 <= e <= 971] for every
    float an operation returns), an infinity or NaN.  The sign of zero is
    not represented: the code modelled here never divides by a float that
    can be a negative zero and has no other way to tell the two zeros
    apart. *)
Module Float.

Inductive t : Type :=
  | Finite (v : Q)
  | Inf (negative : bool)
  | NaN.

Definition pow2 (k : Z) : Q := (2 ^ k)%Q.

(** For [0 < x], the [k] with [2^k <= x < 2^(k+1)]. *)
Definition floor_log2 (x : Q) : Z :=
  let k := (Z.log2 (Qnum x) - Z.log2 (Zpos (Qden x)))%Z in
  if Qle_bool (pow2 k) x then k else (k - 1)%Z.

(** The integer nearest to [y], the even one of the two when [y] lies
    half-way. *)
Definition rne (y : Q) : Z :=
  let f := Qfloor y in
  match (y - inject_Z f ?= 1 # 2)%Q with
  | Lt => f
  | Gt => (f + 1)%Z
  | Eq => if Z.even f then f else (f + 1)%Z
  end.

(** For [0 < x], the exponent of the unit in the last place of [x]: 53
    significant bits, and no place below [2^-1074]. *)
Definition ulp_exp (x : Q) : Z := Z.max (floor_log2 x - 52) (-1074).

(** For [0 < x], the multiple of the unit in the last place of [x]
    nearest to [x]. *)
Definition round_pos (x : Q) : Q :=
  let e := ulp_exp x in
  (inject_Z (rne (x / pow2 e)) * pow2 e)%Q.

(** Rounding to nearest, ties to even: the float an operation returns for
    the exact result [x].  A magnitude that rounds to [2^1024] or more
    overflows to an infinity. *)
Definition round (x : Q) : t :=
  match (x ?= 0)%Q with
  | Eq => Finite 0
  | Gt =>
    let v := round_pos x in
    if Qle_bool (pow2 1024) v then Inf false else Finite (Qred v)
  | Lt =>
    let v := round_pos (- x) in
    if Qle_bool (pow2 1024) v then Inf true else Finite (Qred (- v))
  end.

Definition negative (x : Q) : bool := negb (Qle_bool 0 x).

Definition is_finite (a : t) : bool :=
  match a with Finite _ => true | _ => false end.

(** A float that is neither negative nor NaN. *)
Definition nonneg (a : t) : Prop :=
  match a with
  | Finite v => (0 <= v)%Q
  | Inf s => s = false
  | NaN => False
  end.

(** The conversion of an integer, as numpy does for [int64 / float]. *)
Definition of_int (n : Z) : t := round (inject_Z n).

(** [a < b]; a comparison with NaN is false.  An [int] operand compares
    by its exact value, as [Finite (inject_Z n)]. *)
Definition ltb (a b : t) : bool :=
  match a, b with
  | NaN, _ | _, NaN => false
  | Finite x, Finite y => negb (Qle_bool y x)
  | Finite _, Inf s => negb s
  | Inf s, Finite _ => s
  | Inf s, Inf s' => s && negb s'
  end.

Definition abs (a : t) : t :=
  match a with
  | Finite x => Finite (Qabs x)
  | Inf _ => Inf false
  | NaN => NaN
  end.

(** [a - b]. *)
Definition sub (a b : t) : t :=
  match a, b with
  | NaN, _ | _, NaN => NaN
  | Inf s, Inf s' => if Bool.eqb s s' then NaN else Inf s
  | Inf s, Finite _ => Inf s
  | Finite _, Inf s => Inf (negb s)
  | Finite x, Finite y => round (x - y)
  end.

(** [a * b]. *)
Definition mul (a b : t) : t :=
  match a, b with
  | NaN, _ | _, NaN => NaN
  | Inf s, Inf s' => Inf (xorb s s')
  | Inf s, Finite y | Finite y, Inf s =>
    if Qeq_bool y 0 then NaN else Inf (xorb s (negative y))
  | Finite x, Finite y => round (x * y)
  end.

(** [a / b] on numpy floats: a division by zero gives an infinity or NaN
    (with a warning), it does not raise. *)
Definition div (a b : t) : t :=
  match a, b with
  | NaN, _ | _, NaN => NaN
  | Inf _, Inf _ => NaN
  | Inf s, Finite y => Inf (xorb s (negative y))
  | Finite _, Inf _ => Finite 0
  | Finite x, Finite y =>
    if Qeq_bool y 0 then
      if Qeq_bool x 0 then NaN else Inf (negative x)
    else round (x / y)
  end.

(** [max(a, b)]: the first argument is kept unless the second is
    strictly greater. *)
Definition max (a b : t) : t := if ltb a b then b else a.

(** [int(a)]: truncation toward zero; [ValueError] on NaN,
    [OverflowError] on an infinity. *)
Definition int (a : t) : evaluation Z :=
  match a with
  | Finite v => Value (Z.quot (Qnum v) (Zpos (Qden v)))
  | Inf _ => Raises OverflowError
  | NaN => Raises ValueError
  end.

(** [a / b] on two [int]s: the float nearest to the exact quotient. *)
Definition truediv (a b : Z) : evaluation t :=
  if (b =? 0)%Z then Raises ZeroDivisionError
  else
    match round (inject_Z a / inject_Z b) with
    | Inf _ => Raises OverflowError
    | x => Value x
    end.

End Float.

(** ** The floats of the processor *)

(** Rocq's primitive floats are the binary64 numbers of the processor it
    runs on.  [of_prim] and [to_prim] carry them to [Float.t] and back,
    so that the operations of [Float] can be run against those of the
    processor. *)
Module Hardware.

Import PrimFloat.

Definition of_prim (f : float) : Float.t :=
  match FloatOps.Prim2SF f with
  | SpecFloat.S754_zero _ => Float.Finite 0
  | SpecFloat.S754_infinity s => Float.Inf s
  | SpecFloat.S754_nan => Float.NaN
  | SpecFloat.S754_finite s m e =>
    Float.Finite
      (Qred ((if s then - inject_Z (Zpos m) else inject_Z (Zpos m))
             * Float.pow2 e))
  end.

Definition to_prim (a : Float.t) : float :=
  match a with
  | Float.NaN => nan
  | Float.Inf s => if s then neg_infinity else infinity
  | Float.Finite v =>
    let v := Qred v in
    FloatOps.SF2Prim
      (SpecFloat.binary_normalize FloatOps.prec FloatOps.emax (Qnum v)
         (- Z.log2 (Zpos (Qden v))) false)
  end.

(** The float of an integer below [2^63] in magnitude. *)
Definition of_Z (z : Z) : float :=
  match z with
  | Z0 => 0%float
  | Zpos _ => of_uint63 (Uint63Axioms.of_Z z)
  | Zneg p => (- of_uint63 (Uint63Axioms.of_Z (Zpos p)))%float
  end.

(** The same float, the two zeros taken for one and NaN for itself. *)
Definition same (a b : float) : bool :=
  (a =? b)%float || (is_nan a && is_nan b).

(** Pairs of operands: the speeds and distances of the examples, sums
    and quotients that fall half-way between two floats, subnormal
    numbers, results beyond the largest float, infinities, NaN and zero,
    and numbers drawn at random. *)
Definition operands : list (float * float) :=
  [(0x1.e000000000001p+3, 0x1.4000000000001p+2);
   (0x1.e8p+5, 0x1.ccccccccccccdp-1);
   (0x1.0f1c71c71c71cp+6, 0x1.ccccccccccccdp+1);
   (0x1.0924924924925p+3, 0x1.cp+2); (0x1.6cp+6, 0x1.4p+6);
   (0x1.64p+6, 0x1.4p+6); (0x1.48p+6, 0x1.4p+6); (0x1p+0, 0x1p-53);
   (0x1p+53, 0x1p+0); (0x1.0000000000001p+53, 0x1p+0);
   (0x1.0000000000001p+0, 0x1p-53);
   (0x1.999999999999ap-4, 0x1.999999999999ap-3);
   (0x1.3333333333333p-2, 0x1.999999999999ap-4); (0x1p+0, 0x1.8p+1);
   (0x1p+1, 0x1.8p+1); (0x1.4p+3, 0x1.999999999999ap-4);
   (0x0.0000000000001p-1022, 0x1p+1); (0x1p-1022, 0x1.8p+1);
   (0x0.012688b70e62bp-1022, 0x1.ep+2);
   (0x0.00000000017b8p-1022, 0x1.86ap+16); (0x0.0000000000063p-1022, 0x1p-1);
   (0x1.fffffffffffffp+1023, 0x1p+1);
   (0x1.1ccf385ebc8ap+1023, 0x0.730d67819e8d2p-1022);
   (0x1.1ccf385ebc8ap+1023, (-0x1.1ccf385ebc8ap+1023));
   ((-0x1.fffffffffffffp+1023), 0x1p-1);
   (0x1.4e718d7d7625ap+664, 0x1.87e92154ef7acp-665);
   (0x1.87e92154ef7acp-665, 0x1.4e718d7d7625ap+664); (infinity, infinity);
   (infinity, neg_infinity); (nan, 0x1p+0); (0x1p+0, nan); (infinity, 0);
   (0, infinity); (0, 0); (0x1p+0, 0); ((-0x1p+0), 0); (infinity, 0x1p+1);
   ((-0x1.8p+1), infinity); (0, 0x1.4p+2); (neg_infinity, (-0x1.4p+1));
   ((-0x1.de8c6ad49684p+5), 0x1.242da49c8954cp+2);
   ((-0x1.887f4df3f316cp+8), 0x1.efbde593c32bp+2);
   ((-0x1.67a548cd64364p+7), 0x1.154434596150cp+2);
   ((-0x1.d58ec706b4732p+8), (-0x1.462fcada37629p+2));
   (0x1.3894e57ae7c12p+9, (-0x1.164d33aa8cep-5));
   ((-0x1.5082f7f855d94p+7), 0x1.23881d028113ep+2);
   (0x1.cf3fe8ea4411ap+9, (-0x1.e79aef91f94bcp+1));
   (0x1.981e9bc28f458p+8, 0x1.8c4d84bf291cp-2);
   (0x1.ceb85ce197efp+8, 0x1.3fc8ce455e47ep+3);
   ((-0x1.259e4035d8e0ep+9), 0x1.4350eb946e19p+2);
   ((-0x1.f777f116a8a4p+5), 0x1.0b908cc50a6c2p+2);
   (0x1.73e81f9d90a86p+9, (-0x1.c215a8aaf1537p+2));
   ((-0x1.1f6390dd913ecp+9), (-0x1.c304bb8d4faf8p+0));
   ((-0x1.b983d49fa9f3ap+9), (-0x1.816bc7b6d342ap+1));
   ((-0x1.4db7a50b0f3p+7), (-0x1.e10b8b6bf3063p+2));
   (0x1.e701d616bdd0cp+8, 0x1.5065f6f456b9ep+2);
   ((-0x1.b6c69e96963e4p+7), (-0x1.8c0a8c82077ep+1));
   ((-0x1.2ada389d508d8p+9), (-0x1.76bfb2f6cb578p+0));
   ((-0x1.6f177b1413f26p+8), (-0x1.6e01c74f31745p+2));
   (0x1.6fccf0f4df346p+9, (-0x1.5abf839f480bcp+2));
   ((-0x1.cb8350bf42ea7p+9), (-0x1.5fb8034617d6fp+2));
   ((-0x1.e09445ce9e394p+9), 0x1.d3ba50e96ba98p+2);
   (0x1.57f56d01347d8p+9, (-0x1.cec972c8d497p+1));
   (0x1.cc58941e45642p+9, 0x1.859bae90d33acp+2);
   ((-0x1.a8c836bc9e141p-558), 0x1.4c0c31cae4e65p+333);
   ((-0x1.93cf4d9f181eap-398), (-0x1.64d559b509fbep+125));
   (0x1.fc1733b08c157p-57, 0x1.a03a0febdf93ap+878);
   (0x1.7bd7f5d9f348p-466, 0x1.84f9633fddcd9p+487);
   ((-0x1.1d7697e4ba594p-632), (-0x1.b0b17d625c18ap-499));
   (0x1.e07f524329a26p+49, (-0x1.71a5963243c73p-517));
   (0x1.3679f5656a72ap+351, (-0x1.211ccf0a737c3p-169));
   ((-0x1.70b11ffc9492cp-152), (-0x1.9e8e87707af4dp+456));
   ((-0x1.f7fa62b790602p-270), (-0x1.ff480b2122b13p+73));
   (0x1.b664adc769927p-483, (-0x1.d86a154f1b974p+715));
   ((-0x1.dca5e34f81895p-692), 0x1.1525aafc3434bp-755);
   ((-0x1.deb0c1915ec28p+783), 0x1.a15bed7f35cebp-312)]%float.

Definition dividends : list (Z * Z) :=
  [(58, 7); (9, 10); (30, 30); (1, 3); (2, 3); (1000001, 1000000);
   (5000001, 1000000); (5000000, 1000000); (7, 2); (15, 2);
   (9007199254740991, 3); (1, 9007199254740991); (123456789, 1000); (-7, 2);
   (-5000001, 1000000); (0, 9)]%Z.

(** [-], [*], [/], [abs] and [<] of [Float] against the processor's. *)
Definition agree (p : float * float) : bool :=
  let a := of_prim p.1 in
  let b := of_prim p.2 in
  same (to_prim a) p.1
  && same (to_prim (Float.sub a b)) (p.1 - p.2)%float
  && same (to_prim (Float.mul a b)) (p.1 * p.2)%float
  && same (to_prim (Float.div a b)) (p.1 / p.2)%float
  && same (to_prim (Float.abs a)) (abs p.1)
  && Bool.eqb (Float.ltb a b) (p.1 <? p.2)%float.

(** The true division of two integers against the division of their
    floats, which is the same for integers that are floats. *)
Definition agree_truediv (p : Z * Z) : bool :=
  match Float.truediv p.1 p.2 with
  | Value x => same (to_prim x) (of_Z p.1 / of_Z p.2)%float
  | Raises _ => false
  end.

End Hardware.

(** ** Timestamps *)

Module datetime.

(** What [datetime.fromisoformat] returns: an instant in microseconds, on
    the wall clock for a naive timestamp and on the UTC axis for one that
    carries an offset, and whether it carries one. *)
Record t : Type := mk {
  microseconds : Z;
  aware : bool
}.

(** [(a - b).total_seconds()]: the subtraction raises [TypeError] between
    a naive and an aware timestamp; [total_seconds] divides the
    microseconds of the difference by [10**6]. *)
Definition seconds_since (a b : t) : evaluation Float.t :=
  if Bool.eqb (aware a) (aware b) then
    Float.truediv (microseconds a - microseconds b) 1000000
  else Raises TypeError.

(** [timedelta.max], in microseconds. *)
Definition timedelta_max : Z := 86399999999999999999%Z.

End datetime.

(** A parser that agrees with [datetime.fromisoformat] on the timestamps
    of one minute, counted in microseconds from its start, and on the
    first of them written with an offset. *)
Definition clock_sample (s : string) : option datetime.t :=
  if String.eqb s "2024-05-01T10:00:00" then
    Some (datetime.mk 0 false)
  else if String.eqb s "2024-05-01T10:00:01" then
    Some (datetime.mk 1000000 false)
  else if String.eqb s "2024-05-01T10:00:06" then
    Some (datetime.mk 6000000 false)
  else if String.eqb s "2024-05-01T10:00:07.500000" then
    Some (datetime.mk 7500000 false)
  else if String.eqb s "2024-05-01T10:00:00+00:00" then
    Some (datetime.mk 0 true)
  else None.

(** ** The analyzer *)

Module Machine.

(** The dictionary stored in [self.vehicle_states[vehicle_key]]. *)
Module VehicleState.
Record t : Type := mk {
  last_speed : Float.t;
  last_time : string;
  violation_count : nat;
  max_speed : Float.t
}.
End VehicleState.

(** The dictionary returned by [get_statistics]. *)
Module Stats.
Record t : Type := mk {
  analysis_id : string;
  total_vehicles_detected : nat;
  vehicles_in_zone : nat;
  total_unique_violations : nat;
  vehicle_class_distribution : gmap string nat;
  max_speed : Z;
  avg_speed : Float.t;
  vehicles_with_violations : nat
}.
End Stats.

Record UltimateTrafficAnalyzer : Type := mkAnalyzer {
  all_vehicles_seen : gset string;
  zone_vehicles_seen : gset string;
  violations : gmap string (list Violation.t);
  vehicle_states : gmap string VehicleState.t;
  unique_vehicle_classes : gmap string nat;
  analysis_id : string
}.

Definition init (aid : string) : UltimateTrafficAnalyzer :=
  {| all_vehicles_seen := ∅;
     zone_vehicles_seen := ∅;
     violations := ∅;
     vehicle_states := ∅;
     unique_vehicle_classes := ∅;
     analysis_id := aid |}.

Definition violations_of (a : UltimateTrafficAnalyzer) (k : string)
  : list Violation.t :=
  default [] (violations a !! k).

Definition class_count (a : UltimateTrafficAnalyzer) (c : string) : nat :=
  default 0 (unique_vehicle_classes a !! c).

Definition record_vehicle (tracker_id : option Z) (class_name : string)
    (in_zone : bool) (a : UltimateTrafficAnalyzer) : UltimateTrafficAnalyzer :=
  match tracker_id with
  | None => a
  | Some tid =>
    let vehicle_key := vehicle_key tid class_name in
    let a1 :=
      if bool_decide (vehicle_key ∉ all_vehicles_seen a) then
        {| all_vehicles_seen := all_vehicles_seen a ∪ {[vehicle_key]};
           zone_vehicles_seen := zone_vehicles_seen a;
           violations := violations a;
           vehicle_states := vehicle_states a;
           unique_vehicle_classes :=
             <[class_name := S (class_count a class_name)]>
               (unique_vehicle_classes a);
           analysis_id := analysis_id a |}
      else a in
    if in_zone then
      {| all_vehicles_seen := all_vehicles_seen a1;
         zone_vehicles_seen := zone_vehicles_seen a1 ∪ {[vehicle_key]};
         violations := violations a1;
         vehicle_states := vehicle_states a1;
         unique_vehicle_classes := unique_vehicle_classes a1;
         analysis_id := analysis_id a1 |}
    else a1
  end.

(** How a call ends: it returns [violation_data] or [None], or an
    exception leaves it. *)
Inductive outcome : Type :=
  | Returned (violation_data : option Violation.t)
  | Raised (e : exception).

Record effect : Type := mkEffect {
  after : UltimateTrafficAnalyzer;
  result : outcome;
  alerts : list string
}.

(** [self.vehicle_states[k] = st], and the assignments to the fields of
    [state], which is that very dictionary. *)
Definition store_state (k : string) (st : VehicleState.t)
    (a : UltimateTrafficAnalyzer) : UltimateTrafficAnalyzer :=
  {| all_vehicles_seen := all_vehicles_seen a;
     zone_vehicles_seen := zone_vehicles_seen a;
     violations := violations a;
     vehicle_states := <[k := st]> (vehicle_states a);
     unique_vehicle_classes := unique_vehicle_classes a;
     analysis_id := analysis_id a |}.

(** [self.violations[k].append(v)]. *)
Definition append_violation (k : string) (v : Violation.t)
    (a : UltimateTrafficAnalyzer) : UltimateTrafficAnalyzer :=
  {| all_vehicles_seen := all_vehicles_seen a;
     zone_vehicles_seen := zone_vehicles_seen a;
     violations := <[k := violations_of a k ++ [v]]> (violations a);
     vehicle_states := vehicle_states a;
     unique_vehicle_classes := unique_vehicle_classes a;
     analysis_id := analysis_id a |}.

(** [f"ALERT! {class_name} #{tracker_id} at {int(speed_kmh)} km/h"]. *)
Definition alert_msg (class_name : string) (tracker_id : Z) (speed : Z)
  : string :=
  "ALERT! " +:+ class_name +:+ " #" +:+ Py.str tracker_id +:+ " at "
    +:+ Py.str speed +:+ " km/h".

Section Analyzer.

Variable fromisoformat : string → option datetime.t.

(** The state of the vehicle is written before [violation_data] is
    built: when [int(speed_kmh)] raises there, the state stays written
    and no record is appended. *)
Definition record_violation (tracker_id : option Z) (class_name : string)
    (speed_kmh : Float.t) (timestamp : string) (a : UltimateTrafficAnalyzer)
  : effect :=
  match tracker_id with
  | None => mkEffect a (Returned None) []
  | Some tid =>
    if Float.ltb speed_kmh (Float.Finite 5) then mkEffect a (Returned None) []
    else
      let vehicle_key := vehicle_key tid class_name in
      match vehicle_states a !! vehicle_key with
      | None =>
        let state := VehicleState.mk speed_kmh timestamp 1 speed_kmh in
        let a1 := store_state vehicle_key state a in
        match Float.int speed_kmh with
        | Raises e => mkEffect a1 (Raised e) []
        | Value speed =>
          let violation_data :=
            Violation.mk tid class_name speed timestamp 1 in
          mkEffect (append_violation vehicle_key violation_data a1)
                   (Returned (Some violation_data)) []
        end
      | Some state =>
        match fromisoformat timestamp with
        | None => mkEffect a (Raised ValueError) []
        | Some t =>
          match fromisoformat (VehicleState.last_time state) with
          | None => mkEffect a (Raised ValueError) []
          | Some t0 =>
            match datetime.seconds_since t t0 with
            | Raises e => mkEffect a (Raised e) []
            | Value time_diff =>
              let speed_diff :=
                Float.abs
                  (Float.sub speed_kmh (VehicleState.last_speed state)) in
              if Float.ltb (Float.Finite 10) speed_diff
                 || Float.ltb (Float.Finite 5) time_diff then
                let state' :=
                  VehicleState.mk speed_kmh timestamp
                    (S (VehicleState.violation_count state))
                    (Float.max (VehicleState.max_speed state) speed_kmh) in
                let a1 := store_state vehicle_key state' a in
                match Float.int speed_kmh with
                | Raises e => mkEffect a1 (Raised e) []
                | Value speed =>
                  let violation_data :=
                    Violation.mk tid class_name speed timestamp
                      (VehicleState.violation_count state') in
                  mkEffect (append_violation vehicle_key violation_data a1)
                           (Returned (Some violation_data))
                           (if Float.ltb (Float.Finite SPEED_LIMIT) speed_kmh
                            then [alert_msg class_name tid speed] else [])
                end
              else mkEffect a (Returned None) []
            end
          end
        end
      end
  end.

Inductive call : Type :=
  | RecordVehicle (tracker_id : option Z) (class_name : string)
      (in_zone : bool)
  | RecordViolation (tracker_id : option Z) (class_name : string)
      (speed_kmh : Float.t) (timestamp : string).

Record world : Type := mkWorld {
  analyzer : UltimateTrafficAnalyzer;
  emitted : list Violation.t;
  sent : list string
}.

Definition exec (w : world) (c : call) : world :=
  match c with
  | RecordVehicle tracker_id class_name in_zone =>
    mkWorld (record_vehicle tracker_id class_name in_zone (analyzer w))
            (emitted w) (sent w)
  | RecordViolation tracker_id class_name speed_kmh timestamp =>
    let e :=
      record_violation tracker_id class_name speed_kmh timestamp
        (analyzer w) in
    mkWorld (after e)
            (match result e with
             | Returned (Some v) => emitted w ++ [v]
             | _ => emitted w
             end)
            (sent w ++ alerts e)
  end.

(** A fresh analyzer driven through a sequence of calls by a caller that
    catches what a call raises. *)
Definition run (aid : string) (calls : list call) : world :=
  foldl exec (mkWorld (init aid) [] []) calls.

End Analyzer.

(** The state used in the examples: a car with track id 7 first measured
    at 80 km/h, at the first sample timestamp. *)
Definition tracked_at_80 : UltimateTrafficAnalyzer :=
  analyzer (run clock_sample "run-1"
    [RecordVehicle (Some 7%Z) "car" true;
     RecordViolation (Some 7%Z) "car" (Float.Finite 80)
       "2024-05-01T10:00:00"]).

(** Seven vehicles, first measured at 8, 8, 8, 8, 8, 9 and 9 km/h: 58 in
    all. *)
Definition seven_records : list call :=
  (λ p : Z * Z,
     RecordViolation (Some p.1) "car" (Float.Finite (inject_Z p.2))
       "2024-05-01T10:00:00")
  <$> [(1, 8); (2, 8); (3, 8); (4, 8); (5, 8); (6, 9); (7, 9)]%Z.

(** A call that commits as a whole: one record appended to the list of
    its vehicle, the four fields of the state of that vehicle set
    together, nothing else touched. *)
Definition commits (tid : Z) (class_name : string) (speed_kmh : Float.t)
    (timestamp : string) (a : UltimateTrafficAnalyzer) (e : effect) : Prop :=
  let k := vehicle_key tid class_name in
  ∃ v st,
    result e = Returned (Some v)
    ∧ violations_of (after e) k = violations_of a k ++ [v]
    ∧ vehicle_states (after e) !! k = Some st
    ∧ st = VehicleState.mk speed_kmh timestamp
             (S (default 0 (VehicleState.violation_count
                              <$> vehicle_states a !! k)))
             match vehicle_states a !! k with
             | None => speed_kmh
             | Some old => Float.max (VehicleState.max_speed old) speed_kmh
             end
    ∧ Float.int speed_kmh = Value (Violation.speed_kmh v)
    ∧ v = Violation.mk tid class_name (Violation.speed_kmh v) timestamp
            (VehicleState.violation_count st)
    ∧ (∀ k', k' ≠ k →
         violations (after e) !! k' = violations a !! k'
         ∧ vehicle_states (after e) !! k' = vehicle_states a !! k')
    ∧ all_vehicles_seen (after e) = all_vehicles_seen a
    ∧ zone_vehicles_seen (after e) = zone_vehicles_seen a
    ∧ unique_vehicle_classes (after e) = unique_vehicle_classes a
    ∧ analysis_id (after e) = analysis_id a.

(** A call without any effect. *)
Definition no_op (a : UltimateTrafficAnalyzer) (e : effect) : Prop :=
  after e = a
  ∧ (result e = Returned None ∨ ∃ x, result e = Raised x)
  ∧ alerts e = [].

(** [self.violations.values()], flattened by [get_statistics]. *)
Definition violation_lists (a : UltimateTrafficAnalyzer)
  : list (list Violation.t) :=
  (map_to_list (violations a)).*2.

Definition all_speeds (a : UltimateTrafficAnalyzer) : list Z :=
  mjoin ((λ violations_list : list Violation.t,
            Violation.speed_kmh <$> violations_list)
         <$> violation_lists a).

(** The recorded speeds are [int]s: [sum(all_speeds) / len(all_speeds)]
    is the true division of two integers. *)
Definition get_statistics (a : UltimateTrafficAnalyzer)
  : evaluation Stats.t :=
  let total_vehicles := size (all_vehicles_seen a) in
  let zone_vehicles := size (zone_vehicles_seen a) in
  let total_violations := sum_list (length <$> violation_lists a) in
  let all_speeds := all_speeds a in
  let max_speed :=
    match all_speeds with [] => 0%Z | _ => Py.max_list all_speeds end in
  match
    match all_speeds with
    | [] => Value (Float.Finite 0)
    | _ => Float.truediv (Py.sum all_speeds)
                         (Z.of_nat (length all_speeds))
    end
  with
  | Raises e => Raises e
  | Value avg_speed =>
    Value {| Stats.analysis_id := analysis_id a;
             Stats.total_vehicles_detected := total_vehicles;
             Stats.vehicles_in_zone := zone_vehicles;
             Stats.total_unique_violations := total_violations;
             Stats.vehicle_class_distribution := unique_vehicle_classes a;
             Stats.max_speed := max_speed;
             Stats.avg_speed := avg_speed;
             Stats.vehicles_with_violations := size (violations a) |}
  end.

Definition all_records (a : UltimateTrafficAnalyzer) : list Violation.t :=
  mjoin (violation_lists a).

Definition keys_with_violations (a : UltimateTrafficAnalyzer)
  : gset string :=
  dom (filter (λ kv, 0 < length kv.2) (violations a)).

(** ** The speed estimate of [main] *)

(** The wrap-around of numpy's [int64], which is what
    [points.astype(int)] holds. *)
Definition int64 (z : Z) : Z := ((z + 2 ^ 63) `mod` 2 ^ 64 - 2 ^ 63)%Z.

(** The body of the loop between [coordinates[tracker_id].append] and the
    label, on the buffer after the append: the difference and its [abs]
    are [int64], [len / fps] and [fps / 2] are true divisions of [int]s,
    the quotient and the product are binary64. *)
Definition estimate_speed (fps : nat) (coordinates : list Z)
  : evaluation Float.t :=
  let len := Z.of_nat (length coordinates) in
  match Float.truediv (Z.of_nat fps) 2 with
  | Raises e => Raises e
  | Value half =>
    if Float.ltb (Float.Finite (inject_Z len)) half then
      Value (Float.Finite 0)
    else
      match last coordinates, head coordinates with
      | Some coordinate_start, Some coordinate_end =>
        let distance :=
          int64 (Z.abs (int64 (coordinate_start - coordinate_end))) in
        match Float.truediv len (Z.of_nat fps) with
        | Raises e => Raises e
        | Value time =>
          Value (Float.mul (Float.div (Float.of_int distance) time)
                           (Float.round (36 # 10)))
        end
      | _, _ => Raises IndexError
      end
  end.

End Machine.

Arguments Machine.record_violation : simpl never.
Arguments Machine.record_vehicle : simpl never.

(** * Properties *)

Section Properties.

(** The properties hold for every behaviour of the timestamp parser. *)
Variable fromisoformat : string → option Q.

Local Abbreviation record_violation := (record_violation fromisoformat).
Local Abbreviation exec := (exec fromisoformat).
Local Abbreviation run := (run fromisoformat).

(** ** Comparisons of floats *)

Lemma ltb_lt (x y : Q) : Py.ltb x y = true ↔ (x < y)%Q.
Proof.
  unfold Py.ltb. rewrite negb_true_iff, <- not_true_iff_false, Qle_bool_iff.
  split; [apply Qnot_le_lt | apply Qlt_not_le].
Qed.

Lemma ltb_ge (x y : Q) : Py.ltb x y = false ↔ (y <= x)%Q.
Proof.
  unfold Py.ltb. rewrite negb_false_iff. apply Qle_bool_iff.
Qed.

Lemma max_either (a b : Q) : Py.max a b = a ∨ Py.max a b = b.
Proof. unfold Py.max. destruct (Py.ltb a b); auto. Qed.

Lemma max_upper (a b : Q) : (a <= Py.max a b)%Q ∧ (b <= Py.max a b)%Q.
Proof.
  unfold Py.max. destruct (Py.ltb a b) eqn:E.
  - apply ltb_lt in E. split; [by apply Qlt_le_weak | apply Qle_refl].
  - apply ltb_ge in E. split; [apply Qle_refl | done].
Qed.

(** [int] of a float above an integer bound is above it too once the
    float is not negative: truncation only drops the fraction. *)
Lemma int_gt_bound (x : Q) (n : Z) :
  (0 <= n)%Z → (n < Py.int x)%Z → (inject_Z n < x)%Q.
Proof.
  destruct x as [p q]. unfold Py.int, Qlt, inject_Z. simpl. intros Hn H.
  assert (0 < p)%Z as Hp.
  { destruct (Z.lt_trichotomy 0 p) as [?|[<-|Hneg]]; [done|..].
    - rewrite Z.quot_0_l in H by done. lia.
    - pose proof (Z.quot_opp_l (-p) (Z.pos q)) as Ho.
      rewrite Z.opp_involutive in Ho by lia.
      assert (0 <= -p ÷ Z.pos q)%Z by (apply Z.quot_pos; lia). lia. }
  rewrite Z.quot_div_nonneg in H by lia.
  pose proof (Z.mul_div_le p (Z.pos q)) as Hle.
  nia.
Qed.

(** ** Single calls of [record_violation] *)

Lemma record_violation_unseen (id : Z) (class_name : string) (speed : Q)
    (ts : string) (a : UltimateTrafficAnalyzer) :
  (5 <= speed)%Q →
  vehicle_states a !! vehicle_key id class_name = None →
  record_violation (Some id) class_name speed ts a =
    let v := Violation.mk id class_name (Py.int speed) ts 1 in
    mkEffect (commit (vehicle_key id class_name)
                (VehicleState.mk speed ts 1 speed) v a)
             (Returned (Some v)) [].
Proof.
  intros Hs%ltb_ge Hk. unfold record_violation. by rewrite Hs, Hk.
Qed.

Lemma record_violation_tracked (id : Z) (class_name : string) (speed : Q)
    (ts : string) (a : UltimateTrafficAnalyzer) (st : VehicleState.t)
    (t t0 : Q) :
  (5 <= speed)%Q →
  vehicle_states a !! vehicle_key id class_name = Some st →
  fromisoformat ts = Some t →
  fromisoformat (VehicleState.last_time st) = Some t0 →
  record_violation (Some id) class_name speed ts a =
    if Py.ltb 10%Q (Qabs (speed - VehicleState.last_speed st))
       || Py.ltb 5%Q (t - t0)%Q
    then
      let st' :=
        VehicleState.mk speed ts (S (VehicleState.violation_count st))
          (Py.max (VehicleState.max_speed st) speed) in
      let v :=
        Violation.mk id class_name (Py.int speed) ts
          (S (VehicleState.violation_count st)) in
      mkEffect (commit (vehicle_key id class_name) st' v a)
               (Returned (Some v))
               (if Py.ltb SPEED_LIMIT speed
                then [alert_msg class_name id speed] else [])
    else mkEffect a (Returned None) [].
Proof.
  intros Hs%ltb_ge Hk Ht Ht0. unfold record_violation.
  by rewrite Hs, Hk, Ht, Ht0.
Qed.

(** A record emitted for a vehicle that is already tracked is announced
    to the notifier whenever its speed is above the limit. *)
Lemma tracked_over_limit_alerts (id : Z) (class_name : string) (speed : Q)
    (ts : string) (a : UltimateTrafficAnalyzer) (v : Violation.t) :
  is_Some (vehicle_states a !! vehicle_key id class_name) →
  result (record_violation (Some id) class_name speed ts a)
    = Returned (Some v) →
  (100 < Violation.speed_kmh v)%Z →
  alerts (record_violation (Some id) class_name speed ts a)
    = [alert_msg class_name id speed].
Proof.
  intros [st Hk]. unfold record_violation. rewrite Hk.
  destruct (Py.ltb speed 5) eqn:Hs; [done|].
  destruct (fromisoformat ts) as [t|]; [|done].
  destruct (fromisoformat (VehicleState.last_time st)) as [t0|]; [|done].
  destruct (_ || _); [|done]. simpl. intros [= <-]. simpl. intros Hv.
  apply int_gt_bound in Hv; [|done].
  apply ltb_lt in Hv. change (Py.ltb SPEED_LIMIT speed = true) in Hv.
  by rewrite Hv.
Qed.

(** The first record of a vehicle is never announced, whatever its
    speed. *)
Lemma unseen_never_alerts (tid : option Z) (class_name : string) (speed : Q)
    (ts : string) (a : UltimateTrafficAnalyzer) :
  (∀ id, tid = Some id →
         vehicle_states a !! vehicle_key id class_name = None) →
  alerts (record_violation tid class_name speed ts a) = [].
Proof.
  intros Hk. unfold record_violation. destruct tid as [id|]; [|done].
  destruct (Py.ltb speed 5); [done|]. by rewrite (Hk id eq_refl).
Qed.

(** C1. Claim: every emitted record with a speed above 100 raises an
    alert, the first record of a vehicle included.  The code does not do
    so for the first record: on a fresh analyzer a measurement of 150 km/h
    is recorded as violation number 1 of its vehicle and nothing is handed
    to [send_sms]; the alert is only raised on the branch of a vehicle
    that is already tracked ([tracked_over_limit_alerts]). *)
Theorem C1_first_record_over_limit_sends_no_alert :
  let e :=
    record_violation (Some 7%Z) "car" 150%Q "2024-05-01T10:00:00"
      (init "run-1") in
  ∃ v, result e = Returned (Some v)
       ∧ Violation.violation_number v = 1
       ∧ (100 < Violation.speed_kmh v)%Z
       ∧ alerts e = [].
Proof. eexists. by vm_compute. Qed.

(** C6. A call of [record_vehicle] or [record_violation] without a track
    id, and a call of [record_violation] with a speed below 5, returns
    [None] and leaves the analyzer exactly as it was, sending nothing, in
    every prior state. *)
Theorem C6_ignorable_input_is_skipped :
  (∀ class_name in_zone a, record_vehicle None class_name in_zone a = a)
  ∧ (∀ class_name speed ts a,
       record_violation None class_name speed ts a
         = mkEffect a (Returned None) [])
  ∧ (∀ tid class_name speed ts a,
       (speed < 5)%Q →
       record_violation tid class_name speed ts a
         = mkEffect a (Returned None) []).
Proof.
  split; [done|]. split; [done|].
  intros [id|] class_name speed ts a Hs; [|done].
  apply ltb_lt in Hs. unfold record_violation. by rewrite Hs.
Qed.

(** The two ways a call of [record_violation] can go. *)
Lemma record_violation_cases (tid : option Z) (class_name : string)
    (speed : Q) (ts : string) (a : UltimateTrafficAnalyzer) :
  let e := record_violation tid class_name speed ts a in
  (∃ id v st,
      let k := vehicle_key id class_name in
      tid = Some id
      ∧ result e = Returned (Some v)
      ∧ violations (after e) = <[k := violations_of a k ++ [v]]> (violations a)
      ∧ vehicle_states (after e) = <[k := st]> (vehicle_states a)
      ∧ VehicleState.last_speed st = speed
      ∧ VehicleState.last_time st = ts
      ∧ VehicleState.violation_count st
          = S (default 0 (VehicleState.violation_count
                            <$> vehicle_states a !! k))
      ∧ VehicleState.max_speed st
          = match vehicle_states a !! k with
            | None => speed
            | Some old => Py.max (VehicleState.max_speed old) speed
            end
      ∧ v = Violation.mk id class_name (Py.int speed) ts
              (VehicleState.violation_count st)
      ∧ all_vehicles_seen (after e) = all_vehicles_seen a
      ∧ zone_vehicles_seen (after e) = zone_vehicles_seen a
      ∧ unique_vehicle_classes (after e) = unique_vehicle_classes a
      ∧ analysis_id (after e) = analysis_id a)
  ∨ (after e = a
     ∧ (result e = Returned None ∨ result e = Raised)
     ∧ alerts e = []).
Proof.
  unfold record_violation.
  destruct tid as [id|]; [|right; simpl; auto].
  destruct (Py.ltb speed 5); [right; simpl; auto|].
  destruct (vehicle_states a !! vehicle_key id class_name) as [st|] eqn:Hk.
  - destruct (fromisoformat ts) as [t|]; [|right; simpl; auto].
    destruct (fromisoformat (VehicleState.last_time st)) as [t0|];
      [|right; simpl; auto].
    destruct (_ || _); [|right; simpl; auto].
    left. eexists id, _, _. simpl. rewrite Hk. simpl. by repeat split.
  - left. eexists id, _, _. simpl. rewrite Hk. simpl. by repeat split.
Qed.

(** ** Runs *)

Lemma run_snoc (aid : string) (calls : list call) (c : call) :
  run aid (calls ++ [c]) = exec (run aid calls) c.
Proof. apply foldl_snoc. Qed.

Lemma record_vehicle_keeps_violations (tid : option Z) (class_name : string)
    (in_zone : bool) (a : UltimateTrafficAnalyzer) :
  violations (record_vehicle tid class_name in_zone a) = violations a
  ∧ vehicle_states (record_vehicle tid class_name in_zone a)
    = vehicle_states a.
Proof.
  unfold record_vehicle. destruct tid; [|done].
  by destruct (bool_decide _), in_zone.
Qed.

Lemma exec_consistent (w : world) (c : call) :
  consistent w → consistent (exec w c).
Proof.
  intros Hw k. specialize (Hw k).
  destruct c as [tid class_name in_zone|tid class_name speed ts]; simpl.
  { destruct (record_vehicle_keeps_violations tid class_name in_zone
                (analyzer w)) as [-> ->].
    exact Hw. }
  pose proof (record_violation_cases tid class_name speed ts (analyzer w))
    as Hcases. cbv zeta in Hcases.
  destruct Hcases
    as [(id & v & st & -> & Hres & Hviol & Hst & _ & _ & Hcnt & _ & Hv & _)
       |(Hafter & Hres & _)]; cycle 1.
  { rewrite Hafter. by destruct Hres as [-> | ->]. }
  rewrite Hres, Hviol, Hst.
  assert (record_key v = vehicle_key id class_name) as Hkey by (by subst v).
  unfold emitted_for in *. simpl. rewrite filter_app, filter_cons, filter_nil.
  rewrite Hkey.
  destruct (decide (k = vehicle_key id class_name)) as [->|Hne].
  - rewrite !lookup_insert_eq. rewrite decide_True by done.
    eexists; split; [done|].
    unfold violations_of.
    destruct (vehicle_states (analyzer w) !! vehicle_key id class_name)
      as [old|].
    + destruct Hw as (l & -> & <- & Hnum & Hlen & Hpos). simpl in *.
      split; [done|]. rewrite fmap_app, length_app, Hnum. simpl.
      rewrite Nat.add_1_r, seq_S. simpl.
      subst v. simpl. rewrite Hcnt, Hlen. repeat split; lia.
    + destruct Hw as [-> ->]. simpl in *. subst v. simpl.
      rewrite Hcnt. repeat split; lia.
  - rewrite !lookup_insert_ne by done. rewrite decide_False by done.
    by rewrite app_nil_r.
Qed.

Lemma run_consistent (aid : string) (calls : list call) :
  consistent (run aid calls).
Proof.
  induction calls as [|c calls IH] using rev_ind.
  - intros k. simpl. by rewrite !lookup_empty.
  - rewrite run_snoc. by apply exec_consistent.
Qed.

(** C3. In every run, the list kept for a vehicle is the list of the
    records emitted for it, in order of emission, and their
    [violation_number]s are 1, 2, 3, ... without gap or repeat; a
    measurement of at least 5 km/h for a vehicle that has no record yet
    is always accepted and creates the record numbered 1. *)
Theorem C3_sequence_numbers (aid : string) (calls : list call) (k : string) :
  let w := run aid calls in
  let l := violations_of (analyzer w) k in
  l = emitted_for k w
  ∧ Violation.violation_number <$> l = seq 1 (length l)
  ∧ (∀ id class_name speed ts,
       k = vehicle_key id class_name → l = [] → (5 <= speed)%Q →
       let e :=
         record_violation (Some id) class_name speed ts (analyzer w) in
       ∃ v, result e = Returned (Some v)
            ∧ Violation.violation_number v = 1
            ∧ violations_of (after e) k = [v]).
Proof.
  intros w l. subst l. unfold violations_of.
  pose proof (run_consistent aid calls k) as Hk. fold w in Hk.
  destruct (vehicle_states (analyzer w) !! k) as [st|] eqn:Hst.
  - destruct Hk as (l & -> & <- & Hnum & _ & Hpos). simpl.
    split; [done|]. split; [done|].
    intros ???? _ ->. simpl in Hpos. lia.
  - destruct Hk as [-> ->]. simpl. split; [done|]. split; [done|].
    intros id class_name speed ts -> _ Hs.
    rewrite (record_violation_unseen _ _ _ _ _ Hs Hst). simpl.
    eexists. split; [done|]. split; [done|].
    unfold violations_of. simpl. rewrite lookup_insert_eq. simpl.
    unfold violations_of.
    pose proof (run_consistent aid calls (vehicle_key id class_name)) as Hk.
    fold w in Hk. rewrite Hst in Hk. by destruct Hk as [-> _].
Qed.

(** ** The flattened records *)

Lemma join_fmap {A B : Type} (f : A → B) (ls : list (list A)) :
  mjoin ((λ l : list A, f <$> l) <$> ls) = f <$> mjoin ls.
Proof.
  induction ls as [|l ls IH]; [done|].
  simpl. rewrite fmap_app. f_equal. exact IH.
Qed.

Lemma all_speeds_records (a : UltimateTrafficAnalyzer) :
  all_speeds a = Violation.speed_kmh <$> all_records a.
Proof. apply join_fmap. Qed.

(** Appending a record to the list of one key adds exactly that record
    to the flattened collection. *)
Lemma values_append {A : Type} (m : gmap string (list A)) (k : string)
    (v : A) :
  mjoin (map_to_list (<[k := default [] (m !! k) ++ [v]]> m)).*2
    ≡ₚ mjoin (map_to_list m).*2 ++ [v].
Proof.
  destruct (m !! k) as [l|] eqn:Hk; simpl.
  - rewrite <- insert_delete_eq.
    rewrite map_to_list_insert by apply lookup_delete_eq.
    rewrite <- (map_to_list_delete m k l Hk). simpl.
    by rewrite <- !(assoc_L (++)), (comm (++) [v]).
  - rewrite map_to_list_insert by done. simpl.
    apply Permutation_cons_append.
Qed.

Lemma elem_of_all_records (a : UltimateTrafficAnalyzer) (v : Violation.t) :
  v ∈ all_records a ↔ ∃ k l, violations a !! k = Some l ∧ v ∈ l.
Proof.
  unfold all_records, violation_lists. rewrite list_elem_of_join.
  split.
  - intros (l & Hv & Hl). apply list_elem_of_fmap in Hl as ([k l'] & -> & Hkl).
    apply elem_of_map_to_list in Hkl. by exists k, l'.
  - intros (k & l & Hk & Hv). exists l. split; [done|].
    apply list_elem_of_fmap. exists (k, l). split; [done|].
    by apply elem_of_map_to_list.
Qed.

Lemma exec_records (w : world) (c : call) :
  all_records (analyzer w) ≡ₚ emitted w →
  all_records (analyzer (exec w c)) ≡ₚ emitted (exec w c).
Proof.
  intros Hw.
  destruct c as [tid class_name in_zone|tid class_name speed ts]; simpl.
  { unfold all_records, violation_lists.
    by destruct (record_vehicle_keeps_violations tid class_name in_zone
                   (analyzer w)) as [-> _]. }
  pose proof (record_violation_cases tid class_name speed ts (analyzer w))
    as Hcases. cbv zeta in Hcases.
  destruct Hcases as [(id & v & st & -> & Hres & Hviol & _)
                     |(Hafter & Hres & _)].
  - rewrite Hres. unfold all_records, violation_lists. rewrite Hviol.
    unfold violations_of. by rewrite values_append, <- Hw.
  - rewrite Hafter. by destruct Hres as [-> | ->].
Qed.

Lemma run_records (aid : string) (calls : list call) :
  all_records (analyzer (run aid calls)) ≡ₚ emitted (run aid calls).
Proof.
  induction calls as [|c calls IH] using rev_ind.
  - unfold all_records, violation_lists. simpl. by rewrite map_to_list_empty.
  - rewrite run_snoc. by apply exec_records.
Qed.

(** ** [sum] and [max] of a list *)

Lemma sum_foldr (l : list Z) : Py.sum l = foldr Z.add 0%Z l.
Proof.
  unfold Py.sum.
  assert (∀ acc, foldl Z.add acc l = (acc + foldr Z.add 0 l)%Z) as H.
  { induction l as [|x l IH]; intros acc; simpl; [lia|]. rewrite IH. lia. }
  rewrite H. lia.
Qed.

Lemma sum_permutation (l1 l2 : list Z) :
  l1 ≡ₚ l2 → foldr Z.add 0%Z l1 = foldr Z.add 0%Z l2.
Proof. induction 1; simpl; lia. Qed.

Lemma max_list_spec (x : Z) (l : list Z) :
  Py.max_list (x :: l) ∈ x :: l
  ∧ ∀ y, y ∈ x :: l → (y ≤ Py.max_list (x :: l))%Z.
Proof.
  simpl. revert x. induction l as [|z l IH]; intros x; simpl.
  - split; [by left|]. intros y ->%list_elem_of_singleton. lia.
  - destruct (IH (if (x <? z)%Z then z else x)) as [Hin Hub].
    split.
    + apply elem_of_cons in Hin as [->|Hin].
      * destruct (x <? z)%Z; [right; left|left].
      * by do 2 right.
    + intros y Hy.
      assert (x ≤ if (x <? z)%Z then z else x)%Z by (case_match; lia).
      assert (z ≤ if (x <? z)%Z then z else x)%Z by (case_match; lia).
      assert (∀ m, m ∈ (if (x <? z)%Z then z else x) :: l → 
                   (m ≤ foldl (λ m y, if (m <? y)%Z then y else m)
                          (if (x <? z)%Z then z else x) l)%Z) as Hub'
        by exact Hub.
      pose proof (Hub' _ (list_elem_of_here _ _)).
      apply elem_of_cons in Hy as [->|Hy]; [lia|].
      apply elem_of_cons in Hy as [->|Hy]; [lia|].
      apply Hub'. by right.
Qed.

Lemma run_lists_nonempty (aid : string) (calls : list call) (k : string)
    (l : list Violation.t) :
  violations (analyzer (run aid calls)) !! k = Some l → 0 < length l.
Proof.
  intros Hl. pose proof (run_consistent aid calls k) as Hk.
  destruct (vehicle_states _ !! k).
  - destruct Hk as (l' & Hl' & _ & _ & _ & Hpos). congruence.
  - destruct Hk as [Hnone _]. congruence.
Qed.

(** What [get_statistics] reports about the records, in any state of
    the analyzer. *)
Lemma get_statistics_spec (a : UltimateTrafficAnalyzer) :
  let s := get_statistics a in
  let speeds := Violation.speed_kmh <$> all_records a in
  Stats.total_unique_violations s = length (all_records a)
  ∧ (all_records a = [] →
       Stats.max_speed s = 0%Z ∧ Stats.avg_speed s = 0%Q)
  ∧ (all_records a ≠ [] →
       Stats.max_speed s ∈ speeds
       ∧ (∀ x, x ∈ speeds → (x ≤ Stats.max_speed s)%Z)
       ∧ (Stats.avg_speed s
            * inject_Z (Z.of_nat (Stats.total_unique_violations s))
          == inject_Z (foldr Z.add 0%Z speeds))%Q).
Proof.
  intros s speeds.
  assert (Stats.total_unique_violations s = length (all_records a)) as Htot.
  { unfold s, get_statistics, all_records. simpl. by rewrite length_join. }
  split; [done|]. split.
  - intros Hnil. unfold s, get_statistics. simpl.
    by rewrite all_speeds_records, Hnil.
  - intros Hne. rewrite Htot. unfold s, get_statistics. simpl.
    rewrite all_speeds_records. fold speeds.
    assert (length speeds = length (all_records a)) as Hlen
      by apply length_fmap.
    rewrite <- Hlen.
    destruct speeds as [|x l] eqn:Hsp.
    { destruct (all_records a); [done|discriminate]. }
    destruct (max_list_spec x l) as [Hin Hub].
    split; [done|]. split; [done|].
    rewrite sum_foldr, Qmult_comm. apply Qmult_div_r.
    simpl. unfold Qeq. simpl. lia.
Qed.

(** ** The ledger *)

Lemma record_vehicle_zone_subset (tid : option Z) (class_name : string)
    (in_zone : bool) (a : UltimateTrafficAnalyzer) :
  zone_vehicles_seen a ⊆ all_vehicles_seen a →
  zone_vehicles_seen (record_vehicle tid class_name in_zone a)
    ⊆ all_vehicles_seen (record_vehicle tid class_name in_zone a).
Proof.
  intros Hsub. unfold record_vehicle. destruct tid as [id|]; [|done].
  destruct (bool_decide _) eqn:Hseen, in_zone; simpl; try done.
  - by apply union_mono_r.
  - by apply union_subseteq_l'.
  - apply bool_decide_eq_false, dec_stable in Hseen.
    apply union_least; [done|]. by apply singleton_subseteq_l.
Qed.

Lemma exec_zone_subset (w : world) (c : call) :
  zone_vehicles_seen (analyzer w) ⊆ all_vehicles_seen (analyzer w) →
  zone_vehicles_seen (analyzer (exec w c))
    ⊆ all_vehicles_seen (analyzer (exec w c)).
Proof.
  intros Hw.
  destruct c as [tid class_name in_zone|tid class_name speed ts]; simpl.
  { by apply record_vehicle_zone_subset. }
  pose proof (record_violation_cases tid class_name speed ts (analyzer w))
    as Hcases. cbv zeta in Hcases.
  destruct Hcases
    as [(id & v & st & _ & _ & _ & _ & _ & _ & _ & _ & _ & -> & -> & _)
       |(-> & _)]; done.
Qed.

(** C10. After every run of [record_vehicle] and [record_violation]
    calls on a fresh analyzer, every key of the zone set is in the set of
    all vehicles, so that the statistics report no more vehicles in the
    zone than vehicles detected. *)
Theorem C10_zone_within_all (aid : string) (calls : list call) :
  let a := analyzer (run aid calls) in
  zone_vehicles_seen a ⊆ all_vehicles_seen a
  ∧ Stats.vehicles_in_zone (get_statistics a)
    ≤ Stats.total_vehicles_detected (get_statistics a).
Proof.
  simpl.
  assert (zone_vehicles_seen (analyzer (run aid calls))
          ⊆ all_vehicles_seen (analyzer (run aid calls))) as Hsub.
  { induction calls as [|c calls IH] using rev_ind; [done|].
    rewrite run_snoc. by apply exec_zone_subset. }
  split; [done|]. by apply subseteq_size.
Qed.

Lemma union_known (X : gset string) (k : string) : k ∈ X → X ∪ {[k]} = X.
Proof.
  intros Hk. rewrite (comm_L (∪)). apply subseteq_union_1_L.
  by apply singleton_subseteq_l.
Qed.

Lemma union_twice (X : gset string) (k : string) :
  X ∪ {[k]} ∪ {[k]} = X ∪ {[k]}.
Proof. by rewrite <- (assoc_L (∪)), (idemp_L (∪)). Qed.

(** One sighting: the key joins the set of all vehicles, the counter of
    its class moves by one exactly when the key is new, and the zone set
    takes the key when [in_zone] holds. *)
Lemma record_vehicle_spec (id : Z) (class_name : string) (in_zone : bool)
    (a : UltimateTrafficAnalyzer) :
  let k := vehicle_key id class_name in
  let a' := record_vehicle (Some id) class_name in_zone a in
  all_vehicles_seen a' = all_vehicles_seen a ∪ {[k]}
  ∧ zone_vehicles_seen a'
    = (if in_zone then zone_vehicles_seen a ∪ {[k]}
       else zone_vehicles_seen a)
  ∧ (∀ c, class_count a' c
          = if decide (c = class_name ∧ k ∉ all_vehicles_seen a)
            then S (class_count a c) else class_count a c).
Proof.
  unfold record_vehicle.
  destruct (bool_decide _) eqn:Hseen.
  - apply bool_decide_eq_true in Hseen.
    assert (∀ c,
      default 0 (<[class_name := S (class_count a class_name)]>
                   (unique_vehicle_classes a) !! c)
      = if decide (c = class_name
                   ∧ vehicle_key id class_name ∉ all_vehicles_seen a)
        then S (class_count a c) else class_count a c) as Hcount.
    { intros c. destruct (decide (c = class_name)) as [->|Hne].
      - rewrite lookup_insert_eq, decide_True; done.
      - rewrite lookup_insert_ne by done.
        rewrite decide_False; [done|]. by intros [? _]. }
    by destruct in_zone.
  - apply bool_decide_eq_false, dec_stable in Hseen.
    assert (all_vehicles_seen a
            = all_vehicles_seen a ∪ {[vehicle_key id class_name]}) as Hall.
    { symmetry. by apply union_known. }
    assert (∀ c,
      class_count a c
      = if decide (c = class_name
                   ∧ vehicle_key id class_name ∉ all_vehicles_seen a)
        then S (class_count a c) else class_count a c) as Hcount.
    { intros c. rewrite decide_False; [done|]. by intros [_ ?]. }
    by destruct in_zone.
Qed.

Lemma sightings_cons (id : Z) (class_name : string) (z : bool)
    (flags : list bool) (a : UltimateTrafficAnalyzer) :
  sightings id class_name (z :: flags) a
  = sightings id class_name flags (record_vehicle (Some id) class_name z a).
Proof. done. Qed.

(** Further sightings of a key that is already known change nothing but
    the zone set. *)
Lemma sightings_known (id : Z) (class_name : string) (flags : list bool)
    (a : UltimateTrafficAnalyzer) :
  let k := vehicle_key id class_name in
  let a' := sightings id class_name flags a in
  k ∈ all_vehicles_seen a →
  all_vehicles_seen a' = all_vehicles_seen a
  ∧ zone_vehicles_seen a'
    = (if existsb (λ in_zone, in_zone) flags
       then zone_vehicles_seen a ∪ {[k]} else zone_vehicles_seen a)
  ∧ (∀ c, class_count a' c = class_count a c).
Proof.
  simpl. revert a. induction flags as [|z flags IH]; intros a Hk; [done|].
  rewrite sightings_cons.
  destruct (record_vehicle_spec id class_name z a) as (Hall & Hzone & Hcnt).
  cbv zeta in *.
  assert (all_vehicles_seen (record_vehicle (Some id) class_name z a)
          = all_vehicles_seen a) as Hall'.
  { rewrite Hall. by apply union_known. }
  destruct (IH (record_vehicle (Some id) class_name z a)) as (-> & -> & Hc).
  { by rewrite Hall'. }
  split; [done|]. split.
  - rewrite Hzone. destruct z; simpl; [|done].
    destruct (existsb _ flags); [|done].
    apply union_twice.
  - intros c. rewrite Hc, Hcnt. rewrite decide_False; [done|].
    by intros [_ ?].
Qed.

Lemma exec_ledger_grows (w : world) (c : call) :
  all_vehicles_seen (analyzer w) ⊆ all_vehicles_seen (analyzer (exec w c))
  ∧ zone_vehicles_seen (analyzer w)
    ⊆ zone_vehicles_seen (analyzer (exec w c))
  ∧ ∀ cl, class_count (analyzer w) cl ≤ class_count (analyzer (exec w c)) cl.
Proof.
  destruct c as [[id|] class_name in_zone|tid class_name speed ts]; simpl.
  - destruct (record_vehicle_spec id class_name in_zone (analyzer w))
      as (-> & -> & Hcnt).
    split; [apply union_subseteq_l|]. split.
    + destruct in_zone; [apply union_subseteq_l|done].
    + intros cl. cbv zeta in Hcnt. rewrite Hcnt. destruct (decide _); lia.
  - done.
  - pose proof (record_violation_cases tid class_name speed ts (analyzer w))
      as Hcases. cbv zeta in Hcases.
    destruct Hcases
      as [(id & v & st & _ & _ & _ & _ & _ & _ & _ & _ & _ & -> & -> & Hu & _)
         |(-> & _)]; [|done].
    unfold class_count. by rewrite Hu.
Qed.

(** C4. However often one vehicle is sighted, and whatever the
    [in_zone] flags, its key is in the set of all vehicles once (the set
    grows by that one key if it was new, and not at all otherwise) and
    the counter of its class has moved by one exactly if the key was new;
    on a fresh analyzer the set has one entry and the counter is 1.
    Adding the key to the zone set is idempotent, and no call removes a
    key from either set or lowers a class counter. *)
Theorem C4_sightings_deduplicated (id : Z) (class_name : string)
    (flags : list bool) (a : UltimateTrafficAnalyzer) :
  flags ≠ [] →
  let k := vehicle_key id class_name in
  let a' := sightings id class_name flags a in
  all_vehicles_seen a' = all_vehicles_seen a ∪ {[k]}
  ∧ size (all_vehicles_seen a')
    = (if decide (k ∈ all_vehicles_seen a) then size (all_vehicles_seen a)
       else S (size (all_vehicles_seen a)))
  ∧ class_count a' class_name
    = (if decide (k ∈ all_vehicles_seen a) then class_count a class_name
       else S (class_count a class_name))
  ∧ (∀ c, c ≠ class_name → class_count a' c = class_count a c)
  ∧ (∀ aid, a = init aid →
       size (all_vehicles_seen a') = 1 ∧ class_count a' class_name = 1)
  ∧ zone_vehicles_seen a'
    = (if existsb (λ in_zone, in_zone) flags
       then zone_vehicles_seen a ∪ {[k]} else zone_vehicles_seen a)
  ∧ record_vehicle (Some id) class_name true
      (record_vehicle (Some id) class_name true a)
    = record_vehicle (Some id) class_name true a
  ∧ (∀ w c,
       all_vehicles_seen (analyzer w)
         ⊆ all_vehicles_seen (analyzer (exec w c))
       ∧ zone_vehicles_seen (analyzer w)
         ⊆ zone_vehicles_seen (analyzer (exec w c))
       ∧ ∀ cl, class_count (analyzer w) cl
               ≤ class_count (analyzer (exec w c)) cl).
Proof.
  intros Hne k a'.
  destruct flags as [|z flags]; [done|].
  assert (a' = sightings id class_name flags
                 (record_vehicle (Some id) class_name z a)) as Ha' by done.
  destruct (record_vehicle_spec id class_name z a) as (Hall & Hzone & Hcnt).
  cbv zeta in *. fold k in Hall, Hzone, Hcnt.
  destruct (sightings_known id class_name flags
              (record_vehicle (Some id) class_name z a))
    as (Hall' & Hzone' & Hcnt').
  { rewrite Hall. apply elem_of_union_r. by apply elem_of_singleton. }
  cbv zeta in *. fold k in Hzone'. rewrite <- Ha' in Hall', Hzone', Hcnt'.
  assert (size (all_vehicles_seen a')
          = if decide (k ∈ all_vehicles_seen a)
            then size (all_vehicles_seen a)
            else S (size (all_vehicles_seen a))) as Hsize.
  { rewrite Hall', Hall.
    destruct (decide (k ∈ all_vehicles_seen a)) as [Hk|Hk].
    - f_equal. by apply union_known.
    - rewrite size_union by (by apply disjoint_singleton_r).
      rewrite size_singleton. lia. }
  assert (class_count a' class_name
          = if decide (k ∈ all_vehicles_seen a) then class_count a class_name
            else S (class_count a class_name)) as Hclass.
  { rewrite Hcnt', Hcnt.
    destruct (decide (k ∈ all_vehicles_seen a)) as [Hk|Hk].
    - rewrite decide_False; [done|]. by intros [_ ?].
    - by rewrite decide_True. }
  split; [by rewrite Hall'|]. split; [done|]. split; [done|].
  split.
  { intros c Hc. rewrite Hcnt', Hcnt.
    rewrite decide_False; [done|]. by intros [? _]. }
  split.
  { intros aid ->. rewrite Hsize, Hclass. simpl.
    rewrite decide_False by apply not_elem_of_empty.
    done. }
  split.
  { rewrite Hzone', Hzone. simpl. destruct z; simpl; [|done].
    destruct (existsb _ flags); [|done].
    apply union_twice. }
  split; [|apply exec_ledger_grows].
  destruct (sightings_known id class_name [true]
              (record_vehicle (Some id) class_name true a))
    as (Hall2 & Hzone2 & Hcnt2).
  { destruct (record_vehicle_spec id class_name true a) as (-> & _).
    apply elem_of_union_r. by apply elem_of_singleton. }
  unfold sightings in Hall2, Hzone2, Hcnt2. simpl in Hall2, Hzone2, Hcnt2.
  unfold record_vehicle at 1.
  destruct (record_vehicle_spec id class_name true a) as (Hall1 & Hzone1 & _).
  cbv zeta in *.
  rewrite bool_decide_eq_false_2.
  2: { intros Hn. apply Hn. rewrite Hall1.
       apply elem_of_union_r. by apply elem_of_singleton. }
  destruct (record_vehicle (Some id) class_name true a) as [al zo vi vs uc ai]
    eqn:Hrec. simpl in *. f_equal.
  rewrite Hzone1. apply union_twice.
Qed.

(** ** Keys *)

Lemma digit_char_no_sep (x : N) : pretty_N_char x ≠ "_"%char.
Proof. unfold pretty_N_char. by repeat case_match. Qed.

Lemma pretty_N_go_no_sep (x : N) (s : string) :
  no_sep s → no_sep (pretty_N_go x s).
Proof.
  revert s. induction (N.lt_wf_0 x) as [x _ IH]; intros s Hs.
  destruct (decide (0 < x)%N) as [Hx|Hx].
  - rewrite pretty_N_go_step by done. apply IH.
    + by apply N.div_lt.
    + split; [apply digit_char_no_sep|done].
  - assert (x = 0%N) as -> by lia. by rewrite pretty_N_go_0.
Qed.

Lemma pretty_N_no_sep (x : N) : no_sep (pretty x).
Proof.
  unfold pretty, pretty_N. case_decide; [by compute|].
  by apply pretty_N_go_no_sep.
Qed.

Lemma str_no_sep (n : Z) : no_sep (Py.str n).
Proof.
  unfold Py.str, pretty, pretty_Z. destruct n as [|p|p].
  - by compute.
  - apply pretty_N_no_sep.
  - simpl. split; [done|]. apply pretty_N_no_sep.
Qed.

(** Two strings without separator followed by a separator and a tail
    are equal only if heads and tails are. *)
Lemma split_at_sep (s1 s2 t1 t2 : string) :
  no_sep s1 → no_sep s2 →
  s1 +:+ String "_" t1 = s2 +:+ String "_" t2 → s1 = s2 ∧ t1 = t2.
Proof.
  revert s2. induction s1 as [|c1 s1 IH]; intros [|c2 s2]; simpl.
  - intros _ _ [= ->]. done.
  - intros _ [Hc _] [= <- _]. done.
  - intros [Hc _] _ [= -> _]. done.
  - intros [_ H1] [_ H2] [= -> Heq]. by destruct (IH s2 H1 H2 Heq) as [-> ->].
Qed.

Lemma vehicle_key_inj (id1 id2 : Z) (c1 c2 : string) :
  vehicle_key id1 c1 = vehicle_key id2 c2 → id1 = id2 ∧ c1 = c2.
Proof.
  unfold vehicle_key. intros Heq.
  change ("_" +:+ c1) with (String "_" c1) in Heq.
  change ("_" +:+ c2) with (String "_" c2) in Heq.
  apply split_at_sep in Heq as [Hid ->]; [|apply str_no_sep..].
  split; [|done]. by apply (inj pretty).
Qed.

(** C9. Detections whose (track id, class label) pairs differ are filed
    under different keys, whatever the integer id and the label (a label
    may contain the separator): a call for one pair leaves the entry of
    the other pair in the ledger sets, in the violation lists and in the
    per-vehicle states as it was. *)
Theorem C9_distinct_pairs_distinct_keys (id1 id2 : Z) (c1 c2 : string) :
  (id1, c1) ≠ (id2, c2) →
  vehicle_key id1 c1 ≠ vehicle_key id2 c2
  ∧ ∀ (a : UltimateTrafficAnalyzer) (in_zone : bool) (speed : Q)
      (ts : string),
      let k2 := vehicle_key id2 c2 in
      let a1 := record_vehicle (Some id1) c1 in_zone a in
      let e := record_violation (Some id1) c1 speed ts a in
      (k2 ∈ all_vehicles_seen a1 ↔ k2 ∈ all_vehicles_seen a)
      ∧ (k2 ∈ zone_vehicles_seen a1 ↔ k2 ∈ zone_vehicles_seen a)
      ∧ violations a1 !! k2 = violations a !! k2
      ∧ vehicle_states a1 !! k2 = vehicle_states a !! k2
      ∧ (k2 ∈ all_vehicles_seen (after e) ↔ k2 ∈ all_vehicles_seen a)
      ∧ (k2 ∈ zone_vehicles_seen (after e) ↔ k2 ∈ zone_vehicles_seen a)
      ∧ violations (after e) !! k2 = violations a !! k2
      ∧ vehicle_states (after e) !! k2 = vehicle_states a !! k2.
Proof.
  intros Hne.
  assert (vehicle_key id1 c1 ≠ vehicle_key id2 c2) as Hk.
  { intros [-> ->]%vehicle_key_inj. done. }
  split; [done|]. intros a in_zone speed ts k2 a1 e.
  destruct (record_vehicle_spec id1 c1 in_zone a) as (Hall & Hzone & _).
  destruct (record_vehicle_keeps_violations (Some id1) c1 in_zone a)
    as [Hv Hs].
  cbv zeta in *. fold a1 in Hall, Hzone, Hv, Hs.
  assert (k2 ∉ ({[vehicle_key id1 c1]} : gset string)) as Hnot.
  { intros ?%elem_of_singleton. done. }
  split. { rewrite Hall, elem_of_union. tauto. }
  split. { rewrite Hzone. destruct in_zone; [|done].
           rewrite elem_of_union. tauto. }
  split; [by rewrite Hv|]. split; [by rewrite Hs|].
  pose proof (record_violation_cases (Some id1) c1 speed ts a) as Hcases.
  cbv zeta in Hcases. fold e in Hcases.
  destruct Hcases
    as [(id & v & st & [= <-] & _ & -> & -> & _ & _ & _ & _ & _ & -> & -> & _)
       |(-> & _)]; [|done].
  by rewrite !lookup_insert_ne.
Qed.

(** ** The speed estimate *)

Lemma half_guard (n fps : nat) :
  (inject_Z (Z.of_nat n) < inject_Z (Z.of_nat fps) / 2)%Q ↔ 2 * n < fps.
Proof.
  unfold Qlt, Qdiv, Qmult, Qinv, inject_Z. simpl. lia.
Qed.

(** The buffer after an append: the new sample is the newest, and the
    capacity is respected. *)
Lemma deque_append_spec (maxlen : nat) (d : list Z) (y : Z) :
  0 < maxlen → length d ≤ maxlen →
  let d' := deque_append maxlen d y in
  last d' = Some y
  ∧ 0 < length d' ≤ maxlen
  ∧ (length d < maxlen → d' = d ++ [y])
  ∧ (length d = maxlen → d' = drop 1 d ++ [y]).
Proof.
  intros Hpos Hlen. unfold deque_append. simpl.
  rewrite length_app. simpl.
  destruct (decide (length d < maxlen)) as [Hlt|Hge].
  - replace (length d + 1 - maxlen) with 0 by lia. rewrite drop_0.
    rewrite last_snoc, length_app. simpl.
    repeat split; try done; lia.
  - assert (length d = maxlen) as Heq by lia.
    replace (length d + 1 - maxlen) with 1 by lia.
    rewrite drop_app_le by lia. rewrite last_snoc, length_app, length_drop.
    simpl. repeat split; try done; lia.
Qed.

(** * Further properties of the analyzer *)

(** ** Truncation *)

Lemma int_le_self (x : Q) : (0 <= x)%Q → (inject_Z (Py.int x) <= x)%Q.
Proof.
  destruct x as [p q]. unfold Py.int, Qle, inject_Z. simpl. intros Hp.
  rewrite Z.quot_div_nonneg by lia.
  pose proof (Z.mul_div_le p (Z.pos q)). lia.
Qed.

Lemma int_ge_bound (x : Q) (n : Z) :
  (inject_Z n <= x)%Q → (0 ≤ n)%Z → (n ≤ Py.int x)%Z.
Proof.
  destruct x as [p q]. unfold Py.int, Qle, inject_Z. simpl. intros Hn H0.
  assert (0 ≤ p)%Z by nia.
  rewrite Z.quot_div_nonneg by lia.
  apply Z.div_le_lower_bound; lia.
Qed.

Lemma int_le_bound (x : Q) (n : Z) :
  (x <= inject_Z n)%Q → (0 ≤ n)%Z → (Py.int x ≤ n)%Z.
Proof.
  intros Hx Hn. destruct (Z.le_gt_cases (Py.int x) n) as [|Hgt]; [done|].
  apply int_gt_bound in Hgt; [|done].
  exfalso. by eapply Qlt_not_le.
Qed.

(** ** The class counter *)

Lemma counter_increment (m : gmap string nat) (c : string) :
  sum_list (map_to_list (<[c := S (default 0 (m !! c))]> m)).*2
  = S (sum_list (map_to_list m).*2).
Proof.
  destruct (m !! c) as [n|] eqn:Hc; simpl.
  - rewrite <- insert_delete_eq.
    rewrite map_to_list_insert by apply lookup_delete_eq.
    rewrite <- (map_to_list_delete m c n Hc). done.
  - by rewrite map_to_list_insert.
Qed.

Lemma exec_class_total (w : world) (c : call) :
  sum_list (map_to_list (unique_vehicle_classes (analyzer w))).*2
    = size (all_vehicles_seen (analyzer w)) →
  sum_list (map_to_list (unique_vehicle_classes (analyzer (exec w c)))).*2
    = size (all_vehicles_seen (analyzer (exec w c))).
Proof.
  intros Hw.
  destruct c as [[id|] class_name in_zone|tid class_name speed ts]; simpl.
  - unfold record_vehicle.
    destruct (bool_decide _) eqn:Hnew.
    + apply bool_decide_eq_true in Hnew.
      assert (sum_list (map_to_list
                (<[class_name := S (class_count (analyzer w) class_name)]>
                   (unique_vehicle_classes (analyzer w)))).*2
              = size (all_vehicles_seen (analyzer w)
                      ∪ {[vehicle_key id class_name]})) as Hstep.
      { unfold class_count. rewrite counter_increment, Hw.
        rewrite size_union by (by apply disjoint_singleton_r).
        rewrite size_singleton. lia. }
      by destruct in_zone.
    + by destruct in_zone.
  - done.
  - pose proof (record_violation_cases tid class_name speed ts (analyzer w))
      as Hcases. cbv zeta in Hcases.
    destruct Hcases
      as [(id & v & st & _ & _ & _ & _ & _ & _ & _ & _ & _ & -> & _ & -> & _)
         |(-> & _)]; done.
Qed.

(** X1. In every state an analyzer reaches, the counters of the class
    distribution add up to the number of vehicles detected. *)
Theorem class_distribution_sums_to_total (aid : string)
    (calls : list call) :
  let s := get_statistics (analyzer (run aid calls)) in
  sum_list (map_to_list (Stats.vehicle_class_distribution s)).*2
  = Stats.total_vehicles_detected s.
Proof.
  simpl. induction calls as [|c calls IH] using rev_ind.
  - simpl. by rewrite map_to_list_empty.
  - rewrite run_snoc. by apply exec_class_total.
Qed.

(** ** Repeated measurements *)

(** X3. A measurement that is handed to [record_violation] a second time
    right after the first is never recorded again: the second call
    returns [None] (or raises on an unparsable timestamp), sends nothing
    and leaves the analyzer as the first call left it. *)
Theorem repeated_measurement_is_absorbed (tid : option Z)
    (class_name : string) (speed : Q) (ts : string)
    (a : UltimateTrafficAnalyzer) :
  let e1 := record_violation tid class_name speed ts a in
  let e2 := record_violation tid class_name speed ts (after e1) in
  after e2 = after e1
  ∧ (result e2 = Returned None ∨ result e2 = Raised)
  ∧ alerts e2 = [].
Proof.
  intros e1 e2.
  pose proof (record_violation_cases tid class_name speed ts a) as Hcases.
  cbv zeta in Hcases. fold e1 in Hcases.
  destruct Hcases
    as [(id & v & st & -> & Hres & _ & Hst & Hls & Hlt & _)
       |(Hafter & Hres & Halerts)].
  - assert (Py.ltb speed 5 = false) as Hfloor.
    { revert Hres. unfold e1, record_violation.
      by destruct (Py.ltb speed 5). }
    assert (vehicle_states (after e1) !! vehicle_key id class_name = Some st)
      as Hk by (by rewrite Hst, lookup_insert_eq).
    unfold e2, record_violation. rewrite Hfloor, Hk, Hlt.
    destruct (fromisoformat ts) as [t|]; [|by auto].
    assert (Py.ltb 10 (Qabs (speed - VehicleState.last_speed st)) = false)
      as ->.
    { apply ltb_ge. rewrite Hls.
      assert (speed - speed == 0)%Q as -> by ring. by vm_compute. }
    assert (Py.ltb 5 (t - t) = false) as ->.
    { apply ltb_ge. assert (t - t == 0)%Q as -> by ring. by vm_compute. }
    simpl. auto.
  - unfold e2. rewrite Hafter. fold e1. by rewrite Hafter.
Qed.

(** ** The state of a vehicle and its records *)

Lemma record_violation_accepts (tid : option Z) (class_name : string)
    (speed : Q) (ts : string) (a : UltimateTrafficAnalyzer)
    (v : Violation.t) :
  result (record_violation tid class_name speed ts a) = Returned (Some v) →
  (5 <= speed)%Q.
Proof.
  unfold record_violation. destruct tid; [|done].
  destruct (Py.ltb speed 5) eqn:Hs; [done|]. intros _. by apply ltb_ge.
Qed.

Lemma exec_mirrored (w : world) (c : call) :
  mirrored (analyzer w) → mirrored (analyzer (exec w c)).
Proof.
  intros Hw k. specialize (Hw k).
  destruct c as [tid class_name in_zone|tid class_name speed ts]; simpl.
  { destruct (record_vehicle_keeps_violations tid class_name in_zone
                (analyzer w)) as [-> ->].
    exact Hw. }
  pose proof (record_violation_cases tid class_name speed ts (analyzer w))
    as Hcases. cbv zeta in Hcases.
  destruct Hcases
    as [(id & v & st & -> & Hres & Hviol & Hst & Hls & Hlt & Hcnt & Hmax
         & Hv & _)
       |(-> & _)]; [|exact Hw].
  pose proof (record_violation_accepts _ _ _ _ _ _ Hres) as Hfloor.
  rewrite Hviol, Hst.
  destruct (decide (k = vehicle_key id class_name)) as [->|Hne];
    [|by rewrite !lookup_insert_ne].
  rewrite !lookup_insert_eq.
  assert (0 <= speed)%Q as Hpos.
  { eapply Qle_trans; [|exact Hfloor]. by vm_compute. }
  assert (record_key v = vehicle_key id class_name
          ∧ (5 ≤ Violation.speed_kmh v)%Z
          ∧ (inject_Z (Violation.speed_kmh v) <= speed)%Q) as Hnew.
  { subst v. simpl. split; [done|]. split.
    - by apply int_ge_bound.
    - by apply int_le_self. }
  exists (violations_of (analyzer w) (vehicle_key id class_name)), v.
  split; [done|]. split; [by subst v; rewrite Hlt|].
  split; [by subst v; rewrite Hls|]. split; [by subst v|].
  unfold violations_of in *.
  destruct (vehicle_states (analyzer w) !! vehicle_key id class_name)
    as [old|].
  - destruct Hw as (l0 & v0 & -> & _ & _ & _ & Hlen & _ & Hall). simpl in *.
    destruct (max_upper (VehicleState.max_speed old) speed) as [Hm1 Hm2].
    rewrite <- Hmax in Hm1, Hm2.
    split. { rewrite Hcnt, Hlen, !length_app. simpl. lia. }
    split. { by rewrite Hls. }
    intros v' [Hv'|Hv']%elem_of_app;
      [|apply list_elem_of_singleton in Hv' as ->].
    + destruct (Hall v' Hv') as (? & ? & Hb). split; [done|]. split; [done|].
      by eapply Qle_trans.
    + destruct Hnew as (? & ? & Hb). split; [done|]. split; [done|].
      by eapply Qle_trans.
  - rewrite Hw in *. simpl in *.
    split. { by rewrite Hcnt. }
    split. { rewrite Hls, Hmax. apply Qle_refl. }
    intros v' Hv'. apply list_elem_of_singleton in Hv' as ->.
    destruct Hnew as (? & ? & Hb). split; [done|]. split; [done|].
    by rewrite Hmax.
Qed.

Lemma run_mirrored (aid : string) (calls : list call) :
  mirrored (analyzer (run aid calls)).
Proof.
  induction calls as [|c calls IH] using rev_ind.
  - intros k. simpl. by rewrite !lookup_empty.
  - rewrite run_snoc. by apply exec_mirrored.
Qed.

(** X2. In every state an analyzer reaches, a vehicle has a state exactly
    if it has a list of records; the state then describes the last record
    of the list (timestamp, truncated speed, number, which is also the
    length of the list), every record of the list carries the id and the
    class of its key and a speed of at least 5, and [max_speed] is at
    least [last_speed] and at least every recorded speed. *)
Theorem vehicle_state_mirrors_last_record (aid : string)
    (calls : list call) (k : string) :
  let a := analyzer (run aid calls) in
  (is_Some (vehicle_states a !! k) ↔ is_Some (violations a !! k))
  ∧ ∀ st, vehicle_states a !! k = Some st →
      ∃ l v,
        violations a !! k = Some (l ++ [v])
        ∧ Violation.timestamp v = VehicleState.last_time st
        ∧ Violation.speed_kmh v = Py.int (VehicleState.last_speed st)
        ∧ Violation.violation_number v = VehicleState.violation_count st
        ∧ VehicleState.violation_count st = length (l ++ [v])
        ∧ (VehicleState.last_speed st <= VehicleState.max_speed st)%Q
        ∧ ∀ v', v' ∈ l ++ [v] →
            record_key v' = k
            ∧ (5 ≤ Violation.speed_kmh v')%Z
            ∧ (inject_Z (Violation.speed_kmh v')
               <= VehicleState.max_speed st)%Q.
Proof.
  intros a. pose proof (run_mirrored aid calls k) as Hk. fold a in Hk.
  destruct (vehicle_states a !! k) as [st|].
  - split.
    + destruct Hk as (l & v & -> & _). split; eauto.
    + intros st' [= <-]. exact Hk.
  - rewrite Hk. split; [|done]. by split; intros [? ?].
Qed.

Lemma run_speeds_at_least_5 (aid : string) (calls : list call)
    (v : Violation.t) :
  v ∈ all_records (analyzer (run aid calls)) →
  (5 ≤ Violation.speed_kmh v)%Z.
Proof.
  intros (k & l & Hl & Hv)%elem_of_all_records.
  pose proof (run_mirrored aid calls k) as Hk.
  destruct (vehicle_states _ !! k) as [st|]; [|congruence].
  destruct Hk as (l0 & v0 & Hl0 & _ & _ & _ & _ & _ & Hall).
  rewrite Hl in Hl0. injection Hl0 as ->. by destruct (Hall v Hv) as (_ & ? & _).
Qed.

(** ** Alerts and records *)

Lemma record_violation_alert_cases (tid : option Z) (class_name : string)
    (speed : Q) (ts : string) (a : UltimateTrafficAnalyzer) :
  let e := record_violation tid class_name speed ts a in
  (∃ id v st,
      tid = Some id
      ∧ result e = Returned (Some v)
      ∧ vehicle_states a !! vehicle_key id class_name = Some st
      ∧ Violation.violation_number v = S (VehicleState.violation_count st)
      ∧ Violation.speed_kmh v = Py.int speed
      ∧ alerts e = if Py.ltb SPEED_LIMIT speed
                   then [alert_msg class_name id speed] else [])
  ∨ (alerts e = []
     ∧ ∀ v, result e = Returned (Some v) → Violation.violation_number v = 1).
Proof.
  unfold record_violation.
  destruct tid as [id|]; [|by right].
  destruct (Py.ltb speed 5); [by right|].
  destruct (vehicle_states a !! vehicle_key id class_name) as [st|] eqn:Hk.
  - destruct (fromisoformat ts) as [t|]; [|by right].
    destruct (fromisoformat (VehicleState.last_time st)) as [t0|];
      [|by right].
    destruct (_ || _); [|by right].
    left. by eexists id, _, st.
  - right. simpl. split; [done|]. by intros v [= <-].
Qed.

Lemma length_filter_snoc {A : Type} (P : A → Prop) `{!∀ x, Decision (P x)}
    (l : list A) (x : A) :
  length (filter P (l ++ [x]))
  = length (filter P l) + (if decide (P x) then 1 else 0).
Proof.
  rewrite filter_app, length_app, filter_cons, filter_nil.
  by destruct (decide (P x)).
Qed.

Lemma exec_alerts (w : world) (c : call) :
  consistent w →
  length (filter (λ v, (100 < Violation.speed_kmh v)%Z
                       ∧ 2 ≤ Violation.violation_number v) (emitted w))
    ≤ length (sent w)
    ≤ length (filter (λ v, (100 ≤ Violation.speed_kmh v)%Z
                           ∧ 2 ≤ Violation.violation_number v) (emitted w)) →
  length (filter (λ v, (100 < Violation.speed_kmh v)%Z
                       ∧ 2 ≤ Violation.violation_number v)
            (emitted (exec w c)))
    ≤ length (sent (exec w c))
    ≤ length (filter (λ v, (100 ≤ Violation.speed_kmh v)%Z
                           ∧ 2 ≤ Violation.violation_number v)
                (emitted (exec w c))).
Proof.
  intros Hcons Hw.
  destruct c as [tid class_name in_zone|tid class_name speed ts]; simpl;
    [done|].
  pose proof (record_violation_alert_cases tid class_name speed ts
                (analyzer w)) as Hcases. cbv zeta in Hcases.
  destruct Hcases
    as [(id & v & st & -> & Hres & Hst & Hnum & Hsp & Halerts)
       |(Halerts & Hfirst)].
  - rewrite Hres, Halerts, !length_filter_snoc, length_app.
    pose proof (Hcons (vehicle_key id class_name)) as Hk.
    rewrite Hst in Hk. destruct Hk as (l & _ & _ & _ & Hcnt & Hpos).
    destruct (Py.ltb SPEED_LIMIT speed) eqn:Hlim.
    + apply ltb_lt in Hlim.
      assert (100 ≤ Violation.speed_kmh v)%Z.
      { rewrite Hsp. apply int_ge_bound; [|done]. by apply Qlt_le_weak. }
      rewrite (decide_True (P := (100 ≤ _)%Z ∧ _)) by (split; lia).
      simpl. destruct (decide _); lia.
    + apply ltb_ge in Hlim.
      assert (Violation.speed_kmh v ≤ 100)%Z.
      { rewrite Hsp. by apply int_le_bound. }
      rewrite (decide_False (P := (100 < _)%Z ∧ _)) by lia.
      simpl. destruct (decide _); lia.
  - rewrite Halerts, app_nil_r.
    destruct (result _) as [[v|]|]; [|done..].
    rewrite !length_filter_snoc.
    rewrite (Hfirst v eq_refl).
    rewrite (decide_False (P := (100 < _)%Z ∧ _)) by lia.
    rewrite (decide_False (P := (100 ≤ _)%Z ∧ _)) by lia.
    lia.
Qed.

(** X4. In every run, each alert handed to [send_sms] belongs to one
    emitted record that is not the first of its vehicle and whose
    recorded speed is at least 100, and every emitted record that is not
    the first of its vehicle and whose recorded speed exceeds 100 has
    raised one alert. *)
Theorem alerts_match_later_records (aid : string) (calls : list call) :
  let w := run aid calls in
  length (filter (λ v, (100 < Violation.speed_kmh v)%Z
                       ∧ 2 ≤ Violation.violation_number v) (emitted w))
    ≤ length (sent w)
  ∧ length (sent w)
    ≤ length (filter (λ v, (100 ≤ Violation.speed_kmh v)%Z
                           ∧ 2 ≤ Violation.violation_number v) (emitted w)).
Proof.
  simpl. induction calls as [|c calls IH] using rev_ind; [done|].
  rewrite run_snoc. apply exec_alerts; [apply run_consistent|done].
Qed.

(** ** Bounds of the statistics *)

Lemma sum_bounds (lo hi : Z) (l : list Z) :
  (∀ x, x ∈ l → (lo ≤ x ≤ hi)%Z) →
  (lo * Z.of_nat (length l) ≤ foldr Z.add 0 l ≤ hi * Z.of_nat (length l))%Z.
Proof.
  induction l as [|x l IH]; intros Hl; [simpl; lia|].
  pose proof (Hl x (list_elem_of_here _ _)).
  assert (∀ y, y ∈ l → (lo ≤ y ≤ hi)%Z) as Hl'
    by (intros y Hy; apply Hl; by right).
  specialize (IH Hl'). cbn [length foldr]. rewrite Nat2Z.inj_succ. nia.
Qed.

Lemma sum_lengths_nonempty {A : Type} (ls : list (list A)) :
  (∀ l, l ∈ ls → 0 < length l) → length ls ≤ sum_list (length <$> ls).
Proof.
  induction ls as [|l ls IH]; intros Hls; simpl; [lia|].
  pose proof (Hls l (list_elem_of_here _ _)).
  assert (∀ l', l' ∈ ls → 0 < length l') as Hls'
    by (intros l' Hl'; apply Hls; by right).
  specialize (IH Hls').
  change (list_fmap (list A) nat length ls) with (length <$> ls). lia.
Qed.

(** X5. In every state an analyzer reaches, there are at least as many
    records as vehicles with violations, and as soon as there is a
    record the maximum and the average speed are at least 5 and the
    average does not exceed the maximum. *)
Theorem statistics_bounds (aid : string) (calls : list call) :
  let s := get_statistics (analyzer (run aid calls)) in
  Stats.vehicles_with_violations s ≤ Stats.total_unique_violations s
  ∧ (0 < Stats.total_unique_violations s →
       (5 ≤ Stats.max_speed s)%Z
       ∧ (5 <= Stats.avg_speed s)%Q
       ∧ (Stats.avg_speed s <= inject_Z (Stats.max_speed s))%Q).
Proof.
  intros s. set (a := analyzer (run aid calls)) in *.
  destruct (get_statistics_spec a) as (Htot & _ & Hne). fold s in Htot, Hne.
  split.
  - unfold s, get_statistics. simpl. unfold violation_lists.
    rewrite <- (length_map_to_list (violations a)).
    rewrite <- (length_fmap snd (map_to_list (violations a))).
    apply sum_lengths_nonempty. intros l Hl.
    apply list_elem_of_fmap in Hl as ([k l'] & -> & Hkl).
    apply elem_of_map_to_list in Hkl. by eapply run_lists_nonempty.
  - intros Hpos.
    assert (all_records a ≠ []) as Hrec.
    { intros Hnil. rewrite Htot, Hnil in Hpos. simpl in Hpos. lia. }
    destruct (Hne Hrec) as (Hin & Hub & Havg).
    set (speeds := Violation.speed_kmh <$> all_records a) in *.
    assert (∀ x, x ∈ speeds → (5 ≤ x ≤ Stats.max_speed s)%Z) as Hrange.
    { intros x Hx. split; [|by apply Hub].
      apply list_elem_of_fmap in Hx as (v & -> & Hv).
      by eapply run_speeds_at_least_5. }
    pose proof (sum_bounds _ _ _ Hrange) as [Hlo Hhi].
    assert (length speeds = Stats.total_unique_violations s) as Hlen.
    { unfold speeds. by rewrite length_fmap. }
    rewrite Hlen in Hlo, Hhi.
    set (n := Stats.total_unique_violations s) in *.
    set (S := foldr Z.add 0%Z speeds) in *.
    assert (1 <= inject_Z (Z.of_nat n))%Q as Hn.
    { rewrite <- (Zle_Qle 1). lia. }
    assert (5 * inject_Z (Z.of_nat n) <= inject_Z S)%Q as HloQ.
    { rewrite <- (inject_Z_mult 5). by rewrite <- Zle_Qle. }
    assert (inject_Z S <= inject_Z (Stats.max_speed s) * inject_Z (Z.of_nat n))%Q
      as HhiQ.
    { rewrite <- inject_Z_mult. by rewrite <- Zle_Qle. }
    split; [by apply (Hrange _ Hin)|].
    split; nra.
Qed.

(** * The frame loop *)

Local Abbreviation zone_detection_step := (zone_detection_step fromisoformat).
Local Abbreviation zone_loop := (zone_loop fromisoformat).
Local Abbreviation count_all := (count_all fromisoformat).
Local Abbreviation process_frame := (process_frame fromisoformat).
Local Abbreviation process_frames := (process_frames fromisoformat).
Local Abbreviation main_loop := (main_loop fromisoformat).

(** ** The history buffers *)

Lemma length_deque_append (maxlen : nat) (d : list Z) (y : Z) :
  length (deque_append maxlen d y) = (length d + 1) `min` maxlen.
Proof.
  unfold deque_append. simpl. rewrite length_drop, length_app. simpl. lia.
Qed.

Lemma deque_append_drop (maxlen : nat) (ys : list Z) (y : Z) :
  deque_append maxlen (drop (length ys - maxlen) ys) y
  = drop (length (ys ++ [y]) - maxlen) (ys ++ [y]).
Proof.
  unfold deque_append. cbv zeta.
  rewrite !length_app, length_drop. simpl.
  destruct (decide (length ys < maxlen)) as [Hlt|Hge].
  - replace (length ys - maxlen) with 0 by lia. rewrite drop_0.
    f_equal. lia.
  - destruct (decide (maxlen = 0)) as [->|Hpos].
    + rewrite !drop_ge; [done|rewrite length_app, ?length_drop; simpl; lia..].
    + replace (length ys - (length ys - maxlen) + 1 - maxlen) with 1 by lia.
      rewrite drop_app_le by (rewrite length_drop; lia).
      rewrite drop_app_le by lia.
      rewrite drop_drop. do 2 f_equal. lia.
Qed.

(** A history buffer filled sample by sample holds the most recent
    [maxlen] samples, oldest first. *)
Lemma deque_keeps_latest (maxlen : nat) (ys : list Z) :
  foldl (deque_append maxlen) [] ys = drop (length ys - maxlen) ys.
Proof.
  induction ys as [|y ys IH] using rev_ind; [done|].
  rewrite foldl_snoc, IH. apply deque_append_drop.
Qed.

Lemma zone_step_buffer (fps : nat) (d : zone_detection) (s s' : loop_state)
    (lab : option string) (tid : Z) :
  zone_detection_step fps d s = Some (s', lab) →
  default [] (coordinates s' !! tid)
  = if decide (zone_tracker_id d = Some tid)
    then deque_append fps (default [] (coordinates s !! tid)) (zone_y d)
    else default [] (coordinates s !! tid).
Proof.
  unfold zone_detection_step.
  destruct (zone_tracker_id d) as [id|]; cycle 1.
  { intros [= <- _]. by rewrite decide_False. }
  destruct (estimate_speed _ _) as [speed|]; [|done].
  assert (default [] (<[id := deque_append fps
                                (default [] (coordinates s !! id)) (zone_y d)]>
                        (coordinates s) !! tid)
          = if decide (Some id = Some tid)
            then deque_append fps (default [] (coordinates s !! tid))
                   (zone_y d)
            else default [] (coordinates s !! tid)) as Hbuf.
  { destruct (decide (id = tid)) as [->|Hne].
    - by rewrite lookup_insert_eq, decide_True.
    - rewrite lookup_insert_ne by done. rewrite decide_False; [done|].
      by intros [= ?]. }
  destruct (Py.ltb 5 speed).
  - destruct (result _); [|done]. by intros [= <- _].
  - by intros [= <- _].
Qed.

Lemma zone_loop_buffer (fps : nat) (ds : list zone_detection)
    (s s' : loop_state) (labels labels' : list string) (tid : Z) :
  zone_loop fps ds s labels = Some (s', labels') →
  default [] (coordinates s' !! tid)
  = foldl (deque_append fps) (default [] (coordinates s !! tid))
      (samples_of tid ds).
Proof.
  revert s labels. induction ds as [|d ds IH]; intros s labels; simpl.
  { by intros [= <- _]. }
  destruct (zone_detection_step fps d s) as [[s1 lab]|] eqn:Hstep; [|done].
  intros Hloop. rewrite (IH _ _ Hloop).
  rewrite (zone_step_buffer _ _ _ _ _ tid Hstep).
  unfold samples_of. rewrite filter_cons.
  by destruct (decide (zone_tracker_id d = Some tid)).
Qed.

Lemma process_frames_buffer (fps : nat) (frames : list frame)
    (s s' : loop_state) (tid : Z) :
  process_frames fps frames s = Some s' →
  default [] (coordinates s' !! tid)
  = foldl (deque_append fps) (default [] (coordinates s !! tid))
      (samples_of tid (all_zone frames)).
Proof.
  revert s. induction frames as [|f frames IH]; intros s; simpl.
  { by intros [= <-]. }
  unfold process_frame.
  destruct (zone_loop _ _ _ _) as [[s1 labels]|] eqn:Hloop; [|done].
  intros Hrest. rewrite (IH _ Hrest).
  rewrite (zone_loop_buffer _ _ _ _ _ _ tid Hloop). simpl.
  unfold samples_of, all_zone. simpl.
  by rewrite filter_app, fmap_app, foldl_app.
Qed.

(** X6. When the frame loop has run through a video, the history buffer
    of a track id holds the coordinates of its most recent [fps] zone
    detections, oldest first (all of them while there are fewer). *)
Theorem buffer_holds_latest_samples (fps : nat) (aid : string)
    (frames : list frame) (s : loop_state) (tid : Z) :
  main_loop fps aid frames = Some s →
  let samples := samples_of tid (all_zone frames) in
  default [] (coordinates s !! tid) = drop (length samples - fps) samples.
Proof.
  intros Hmain. simpl.
  rewrite (process_frames_buffer _ _ _ _ tid Hmain). simpl.
  rewrite lookup_empty. apply deque_keeps_latest.
Qed.

(** ** Invariants of the loop *)

(** A property of the loop state that holds initially and is kept by
    the two kinds of steps holds when the loop ends. *)
Lemma main_loop_invariant (I : loop_state → Prop) (fps : nat)
    (aid : string) (frames : list frame) (s : loop_state) :
  I (mkLoop ∅ (mkWorld (init aid) [] [])) →
  (∀ s tid class_name,
     I s →
     I (mkLoop (coordinates s)
          (exec (trace s) (RecordVehicle (Some tid) class_name false)))) →
  (∀ s d s' lab, I s → zone_detection_step fps d s = Some (s', lab) → I s') →
  main_loop fps aid frames = Some s → I s.
Proof.
  intros Hinit Hcount Hzone. unfold main_loop.
  generalize (mkLoop ∅ (mkWorld (init aid) [] [])) Hinit.
  induction frames as [|f frames IH]; intros s0 Hs0; simpl.
  { by intros [= <-]. }
  unfold process_frame.
  assert (I (mkLoop (coordinates s0)
               (count_all (frame_detections f) (trace s0)))) as Hcounted.
  { destruct s0 as [c0 w0]. simpl. unfold count_all.
    generalize dependent w0.
    induction (frame_detections f) as [|[[tid|] cls] l IHl]; intros w0 Hw0;
      simpl; [done|..].
    - apply IHl. exact (Hcount (mkLoop c0 w0) tid cls Hw0).
    - by apply IHl. }
  generalize dependent (mkLoop (coordinates s0)
                          (count_all (frame_detections f) (trace s0))).
  generalize (@nil string).
  induction (frame_zone f) as [|d ds IHd]; intros labels s1 Hs1; simpl.
  { by apply IH. }
  destruct (zone_detection_step fps d s1) as [[s2 lab]|] eqn:Hstep; [|done].
  apply IHd. by eapply Hzone.
Qed.

Lemma run_zone_subset (aid : string) (calls : list call) :
  zone_vehicles_seen (analyzer (run aid calls))
  ⊆ all_vehicles_seen (analyzer (run aid calls)).
Proof.
  induction calls as [|c calls IH] using rev_ind; [done|].
  rewrite run_snoc. by apply exec_zone_subset.
Qed.

Lemma exec_violation_keys (w : world) (tid : option Z) (class_name : string)
    (speed : Q) (ts : string) (k : string) :
  is_Some (violations
             (analyzer (exec w (RecordViolation tid class_name speed ts)))
           !! k) →
  is_Some (violations (analyzer w) !! k)
  ∨ ∃ id, tid = Some id ∧ k = vehicle_key id class_name.
Proof.
  simpl.
  pose proof (record_violation_cases tid class_name speed ts (analyzer w))
    as Hcases. cbv zeta in Hcases.
  destruct Hcases as [(id & v & st & -> & _ & -> & _)|(-> & _)]; [|by left].
  destruct (decide (k = vehicle_key id class_name)) as [->|Hne].
  - right. by exists id.
  - rewrite lookup_insert_ne by done. by left.
Qed.

(** X7. When the frame loop has run through a video, every vehicle with
    a violation has been seen in the zone, so the final statistics
    satisfy [vehicles_with_violations <= vehicles_in_zone <=
    total_vehicles_detected], and no history buffer holds more than
    [fps] samples. *)
Theorem main_loop_statistics (fps : nat) (aid : string)
    (frames : list frame) (s : loop_state) :
  main_loop fps aid frames = Some s →
  let a := analyzer (trace s) in
  let st := get_statistics a in
  dom (violations a) ⊆ zone_vehicles_seen a
  ∧ Stats.vehicles_with_violations st ≤ Stats.vehicles_in_zone st
  ∧ Stats.vehicles_in_zone st ≤ Stats.total_vehicles_detected st
  ∧ ∀ tid buffer, coordinates s !! tid = Some buffer → length buffer ≤ fps.
Proof.
  intros Hmain.
  pose proof (main_loop_invariant
    (λ s, (∃ calls, trace s = run aid calls)
          ∧ (∀ k, is_Some (violations (analyzer (trace s)) !! k) →
                  k ∈ zone_vehicles_seen (analyzer (trace s)))
          ∧ ∀ tid buffer, coordinates s !! tid = Some buffer →
                          length buffer ≤ fps)
    fps aid frames s) as Hinv.
  destruct Hinv as ([calls Hrun] & Hkeys & Hbuf); [..|exact Hmain|].
  - split; [by exists []|]. simpl. split.
    + intros k. rewrite lookup_empty. by intros [? ?].
    + intros tid buffer. by rewrite lookup_empty.
  - intros s0 tid class_name ([calls Hrun] & Hkeys & Hbuf).
    split; [exists (calls ++ [RecordVehicle (Some tid) class_name false]);
            by rewrite run_snoc, Hrun|].
    split; [|done]. intros k. cbn [trace exec analyzer].
    destruct (record_vehicle_keeps_violations (Some tid) class_name false
                (analyzer (trace s0))) as [-> _].
    intros Hk.
    destruct (exec_ledger_grows (trace s0)
                (RecordVehicle (Some tid) class_name false)) as (_ & Hz & _).
    apply Hz. by apply Hkeys.
  - intros s0 d s' lab ([calls Hrun] & Hkeys & Hbuf).
    unfold zone_detection_step.
    destruct (zone_tracker_id d) as [tid|]; cycle 1.
    { intros [= <- _]. split; [by exists calls|done]. }
    destruct (estimate_speed _ _) as [speed|]; [|done].
    set (w1 := exec (trace s0)
                 (RecordVehicle (Some tid) (zone_class d) true)).
    assert (trace_ok : ∃ calls1, w1 = run aid calls1).
    { exists (calls ++ [RecordVehicle (Some tid) (zone_class d) true]).
      by rewrite run_snoc, <- Hrun. }
    assert (vehicle_key tid (zone_class d) ∈ zone_vehicles_seen (analyzer w1))
      as Hin.
    { unfold w1. cbn [exec analyzer].
      destruct (record_vehicle_spec tid (zone_class d) true
                  (analyzer (trace s0))) as (_ & -> & _).
      apply elem_of_union_r. by apply elem_of_singleton. }
    assert (∀ k, is_Some (violations (analyzer w1) !! k) →
                 k ∈ zone_vehicles_seen (analyzer w1)) as Hkeys1.
    { intros k. unfold w1. cbn [exec analyzer].
      destruct (record_vehicle_keeps_violations (Some tid) (zone_class d)
                  true (analyzer (trace s0))) as [-> _].
      intros Hk.
      destruct (exec_ledger_grows (trace s0)
                  (RecordVehicle (Some tid) (zone_class d) true))
        as (_ & Hz & _).
      apply Hz. by apply Hkeys. }
    assert (∀ tid' buffer,
              <[tid := deque_append fps
                         (default [] (coordinates s0 !! tid)) (zone_y d)]>
                (coordinates s0) !! tid' = Some buffer →
              length buffer ≤ fps) as Hbuf1.
    { intros tid' buffer. destruct (decide (tid = tid')) as [->|Hne].
      - rewrite lookup_insert_eq. intros [= <-].
        rewrite length_deque_append. lia.
      - rewrite lookup_insert_ne by done. apply Hbuf. }
    destruct (Py.ltb 5 speed).
    + destruct (result _) eqn:Hres; [|done]. intros [= <- _].
      cbn [trace coordinates]. destruct trace_ok as [calls1 Hrun1].
      split.
      { exists (calls1 ++ [RecordViolation (Some tid) (zone_class d) speed
                             (zone_now d)]).
        rewrite run_snoc, <- Hrun1. reflexivity. }
      split; [|done]. intros k Hk.
      destruct (exec_ledger_grows w1
                  (RecordViolation (Some tid) (zone_class d) speed
                     (zone_now d))) as (_ & Hz & _).
      apply Hz.
      apply (exec_violation_keys w1 (Some tid) (zone_class d) speed
               (zone_now d) k) in Hk as [Hk|(id & [= <-] & ->)]; auto.
    + intros [= <- _]. cbn [trace coordinates]. done.
  - cbv zeta. rewrite Hrun in *.
    assert (dom (violations (analyzer (run aid calls)))
            ⊆ zone_vehicles_seen (analyzer (run aid calls))) as Hdom.
    { intros k Hk. apply Hkeys. by apply elem_of_dom. }
    split; [done|]. split.
    + unfold get_statistics. simpl.
      rewrite <- (size_dom (violations (analyzer (run aid calls)))).
      by apply subseteq_size.
    + split; [|done]. unfold get_statistics. simpl.
      apply subseteq_size, run_zone_subset.
Qed.

(** ** The loop does not fail *)

Lemma estimate_speed_defined (fps : nat) (coordinates : list Z) :
  0 < fps → coordinates ≠ [] → is_Some (estimate_speed fps coordinates).
Proof.
  intros Hfps Hne. unfold estimate_speed.
  destruct (Py.ltb _ _); [by eexists|].
  destruct coordinates as [|y ys]; [done|].
  destruct (last (y :: ys)) as [z|] eqn:Hlast.
  - simpl. destruct fps; [lia|by eexists].
  - by apply last_None in Hlast.
Qed.

Lemma deque_append_nonempty (maxlen : nat) (d : list Z) (y : Z) :
  0 < maxlen → deque_append maxlen d y ≠ [].
Proof.
  intros Hpos Hnil. pose proof (length_deque_append maxlen d y) as Hlen.
  rewrite Hnil in Hlen. simpl in Hlen. lia.
Qed.

Lemma record_violation_parses (tid : option Z) (class_name : string)
    (speed : Q) (ts : string) (a : UltimateTrafficAnalyzer) :
  is_Some (fromisoformat ts) →
  (∀ k st, vehicle_states a !! k = Some st →
           is_Some (fromisoformat (VehicleState.last_time st))) →
  let e := record_violation tid class_name speed ts a in
  result e ≠ Raised
  ∧ ∀ k st, vehicle_states (after e) !! k = Some st →
            is_Some (fromisoformat (VehicleState.last_time st)).
Proof.
  intros Hts Ha e.
  split.
  - unfold e, record_violation. destruct tid as [id|]; [|done].
    destruct (Py.ltb speed 5); [done|].
    destruct (vehicle_states a !! vehicle_key id class_name) as [st|] eqn:Hk;
      [|done].
    destruct Hts as [t ->]. destruct (Ha _ _ Hk) as [t0 ->].
    by destruct (_ || _).
  - pose proof (record_violation_cases tid class_name speed ts a) as Hcases.
    cbv zeta in Hcases. fold e in Hcases.
    destruct Hcases as [(id & v & st & _ & _ & _ & -> & _ & Hlt & _)
                       |(-> & _)]; [|done].
    intros k st'. destruct (decide (k = vehicle_key id class_name)) as [->|?].
    + rewrite lookup_insert_eq. intros [= <-]. by rewrite Hlt.
    + rewrite lookup_insert_ne by done. apply Ha.
Qed.

Lemma zone_step_defined (fps : nat) (d : zone_detection) (s : loop_state) :
  0 < fps →
  is_Some (fromisoformat (zone_now d)) →
  (∀ k st, vehicle_states (analyzer (trace s)) !! k = Some st →
           is_Some (fromisoformat (VehicleState.last_time st))) →
  ∃ s' lab,
    zone_detection_step fps d s = Some (s', lab)
    ∧ ∀ k st, vehicle_states (analyzer (trace s')) !! k = Some st →
              is_Some (fromisoformat (VehicleState.last_time st)).
Proof.
  intros Hfps Hnow Hs. unfold zone_detection_step.
  destruct (zone_tracker_id d) as [tid|]; [|by eexists _, _].
  destruct (estimate_speed_defined fps
              (deque_append fps (default [] (coordinates s !! tid))
                 (zone_y d)) Hfps (deque_append_nonempty _ _ _ Hfps))
    as [speed ->].
  set (w1 := exec (trace s) (RecordVehicle (Some tid) (zone_class d) true)).
  assert (∀ k st, vehicle_states (analyzer w1) !! k = Some st →
                  is_Some (fromisoformat (VehicleState.last_time st)))
    as Hw1.
  { unfold w1. cbn [exec analyzer].
    by destruct (record_vehicle_keeps_violations (Some tid) (zone_class d)
                   true (analyzer (trace s))) as [_ ->]. }
  destruct (Py.ltb 5 speed); [|by eexists _, _].
  destruct (record_violation_parses (Some tid) (zone_class d) speed
              (zone_now d) (analyzer w1) Hnow Hw1) as [Hres Hafter].
  destruct (result _) eqn:Hr; [|done].
  eexists _, _. split; [done|]. exact Hafter.
Qed.

(** X8. With a positive frame rate and timestamps that
    [datetime.fromisoformat] parses, the frame loop runs through every
    video without an exception: neither the speed computation nor
    [record_violation] raises. *)
Theorem main_loop_completes (fps : nat) (aid : string)
    (frames : list frame) :
  0 < fps →
  (∀ d, d ∈ all_zone frames → is_Some (fromisoformat (zone_now d))) →
  is_Some (main_loop fps aid frames).
Proof.
  intros Hfps. unfold main_loop.
  assert (∀ k st,
            vehicle_states
              (analyzer (trace (mkLoop ∅ (mkWorld (init aid) [] []))))
              !! k = Some st →
            is_Some (fromisoformat (VehicleState.last_time st))) as Hinit.
  { intros k st. simpl. by rewrite lookup_empty. }
  revert Hinit. generalize (mkLoop ∅ (mkWorld (init aid) [] [])).
  induction frames as [|f frames IH]; intros s0 Hs0 Hnow; simpl.
  { by eexists. }
  unfold process_frame.
  assert (∀ k st,
            vehicle_states
              (analyzer (count_all (frame_detections f) (trace s0)))
              !! k = Some st →
            is_Some (fromisoformat (VehicleState.last_time st))) as Hcounted.
  { unfold count_all. generalize (trace s0) Hs0.
    induction (frame_detections f) as [|[[tid|] cls] l IHl]; intros w0 Hw0;
      simpl; [done|..].
    - apply IHl. cbn [exec analyzer].
      by destruct (record_vehicle_keeps_violations (Some tid) cls false
                     (analyzer w0)) as [_ ->].
    - by apply IHl. }
  assert (∀ d, d ∈ frame_zone f → is_Some (fromisoformat (zone_now d)))
    as Hzone.
  { intros d Hd. apply Hnow. unfold all_zone. simpl.
    apply elem_of_app. by left. }
  assert (∀ d, d ∈ all_zone frames → is_Some (fromisoformat (zone_now d)))
    as Hrest.
  { intros d Hd. apply Hnow. unfold all_zone. simpl.
    apply elem_of_app. by right. }
  change (analyzer (count_all (frame_detections f) (trace s0)))
    with (analyzer (trace (mkLoop (coordinates s0)
                             (count_all (frame_detections f) (trace s0)))))
    in Hcounted.
  revert Hcounted Hzone.
  generalize (mkLoop (coordinates s0)
                (count_all (frame_detections f) (trace s0))).
  generalize (@nil string).
  induction (frame_zone f) as [|d ds IHd]; intros labels s1 Hs1 Hzone; simpl.
  { by apply IH. }
  destruct (zone_step_defined fps d s1 Hfps) as (s2 & lab & -> & Hs2);
    [apply Hzone; by left|done|].
  apply IHd; [done|]. intros d' Hd'. apply Hzone. by right.
Qed.

(** ** The ramp-up *)

(** X9. While the history buffer of a vehicle holds fewer than [fps / 2]
    samples, the new one included, a zone detection only registers the
    sighting: the label shows 0 km/h, no violation is evaluated, and the
    sample is appended to the buffer. *)
Theorem ramp_up_records_nothing (fps : nat) (d : zone_detection)
    (s : loop_state) (tid : Z) :
  zone_tracker_id d = Some tid →
  let buffer := default [] (coordinates s !! tid) in
  2 * (length buffer + 1) < fps →
  zone_detection_step fps d s
  = Some (mkLoop (<[tid := buffer ++ [zone_y d]]> (coordinates s))
            (mkWorld (record_vehicle (Some tid) (zone_class d) true
                        (analyzer (trace s)))
                     (emitted (trace s)) (sent (trace s))),
          Some ("#" +:+ Py.str tid +:+ " " +:+ zone_class d +:+ " 0 km/h")).
Proof.
  intros Htid buffer Hshort. unfold zone_detection_step. rewrite Htid.
  fold buffer.
  assert (deque_append fps buffer (zone_y d) = buffer ++ [zone_y d]) as ->.
  { unfold deque_append. cbv zeta. rewrite length_app. simpl.
    replace (length buffer + 1 - fps) with 0 by lia. apply drop_0. }
  assert (estimate_speed fps (buffer ++ [zone_y d]) = Some 0%Q) as ->.
  { unfold estimate_speed.
    assert (Py.ltb (inject_Z (Z.of_nat (length (buffer ++ [zone_y d]))))
              (inject_Z (Z.of_nat fps) / 2) = true) as ->; [|done].
    apply ltb_lt, half_guard. rewrite length_app. simpl. lia. }
  done.
Qed.

End Properties.

(** * Persistence and reports *)

(** ** Batches *)

Lemma batches_join {A : Type} (b n : nat) (l : list A) :
  length l ≤ n * b →
  mjoin ((λ i, take b (drop i l)) <$> ((λ j, j * b) <$> seq 0 n)) = l.
Proof.
  revert l. induction n as [|n IH]; intros l Hl.
  - destruct l; [done|simpl in Hl; lia].
  - rewrite <- cons_seq, <- fmap_S_seq. simpl. rewrite drop_0.
    transitivity (take b l ++ drop b l); [|apply take_drop]. f_equal.
    transitivity (mjoin ((λ i, take b (drop i (drop b l)))
                           <$> ((λ j, j * b) <$> seq 0 n)));
      [|apply IH; rewrite length_drop; lia].
    rewrite <- !list_fmap_compose. f_equal.
    apply list_fmap_ext. intros _ j _. simpl.
    by rewrite drop_drop.
Qed.

Lemma range_covers (stop step : nat) :
  0 < step → stop ≤ (stop + step - 1) `div` step * step.
Proof.
  intros Hstep.
  pose proof (Nat.div_mod_eq (stop + step - 1) step) as Hdm.
  pose proof (Nat.mod_upper_bound (stop + step - 1) step). nia.
Qed.

Lemma foldl_join {A B : Type} (f : A → B → A) (a : A) (ls : list (list B)) :
  foldl (λ acc l, foldl f acc l) a ls = foldl f a (mjoin ls).
Proof.
  revert a. induction ls as [|l ls IH]; intros a; simpl; [done|].
  by rewrite foldl_app, IH.
Qed.

Section PersistenceProperties.

Variable DB : Type.
Variable save_to_mongodb : ViolationDoc.t → DB → DB * bool.

Local Abbreviation save_one := (save_one DB save_to_mongodb).
Local Abbreviation save_individual_violations :=
  (save_individual_violations DB save_to_mongodb).

Lemma save_one_step (acc : DB * nat) (d : ViolationDoc.t) :
  (save_one acc d).2
  = if (save_to_mongodb d acc.1).2 then S acc.2 else acc.2.
Proof. unfold save_one. by destruct (save_to_mongodb d acc.1). Qed.

Lemma save_one_count (acc : DB * nat) (docs : list ViolationDoc.t) :
  (acc.2 ≤ (foldl save_one acc docs).2 ≤ acc.2 + length docs)
  ∧ ((∀ d db, (save_to_mongodb d db).2 = true) →
     (foldl save_one acc docs).2 = acc.2 + length docs)
  ∧ ((∀ d db, (save_to_mongodb d db).2 = false) →
     (foldl save_one acc docs).2 = acc.2).
Proof.
  revert acc. induction docs as [|d docs IH]; intros acc; simpl.
  { repeat split; lia. }
  destruct (IH (save_one acc d)) as (Hb & Hall & Hnone).
  pose proof (save_one_step acc d) as Hstep.
  split; [|split].
  - destruct (save_to_mongodb d acc.1).2; lia.
  - intros Hok. rewrite (Hall Hok), Hstep, Hok. lia.
  - intros Hko. rewrite (Hnone Hko), Hstep, Hko. done.
Qed.

(** X11. [save_individual_violations] hands every document of
    [violations_list] to [save_to_mongodb] exactly once and in order:
    the batches of 50 change nothing.  It returns [True] exactly if at
    least one save succeeded; the number of successes is at most the
    number of documents, equal to it if every save succeeds, and 0 if
    every save fails or there is no violation. *)
Theorem saving_ignores_batches (items : list (string * list Violation.t))
    (analysis_id : string) (db : DB) :
  let docs := violations_list analysis_id items in
  let r := foldl save_one (db, 0) docs in
  save_individual_violations items analysis_id db
    = (r.1, bool_decide (0 < r.2))
  ∧ r.2 ≤ length docs
  ∧ ((∀ d db', (save_to_mongodb d db').2 = true) → r.2 = length docs)
  ∧ ((∀ d db', (save_to_mongodb d db').2 = false) → r.2 = 0).
Proof.
  intros docs r.
  destruct (save_one_count (db, 0) docs) as (Hb & Hall & Hnone).
  fold r in Hb, Hall, Hnone. simpl in Hb, Hall, Hnone.
  split; [|split; [lia|split; [exact Hall|exact Hnone]]].
  unfold save_individual_violations. fold docs.
  clear Hb Hall Hnone. subst r. clearbody docs.
  destruct docs as [|d0 docs0] eqn:Hdocs; [done|]. rewrite <- Hdocs.
  cbv zeta.
  assert (foldl (λ acc i, foldl save_one acc (take 50 (drop i docs)))
            (db, 0) (range_from_0 (length docs) 50)
          = foldl save_one (db, 0) docs) as ->; [|done].
  rewrite <- (foldl_fmap (λ acc l, foldl save_one acc l) (db, 0)
                (range_from_0 (length docs) 50)
                (λ i, take 50 (drop i docs))).
  rewrite foldl_join. unfold range_from_0.
  rewrite batches_join; [done|]. apply range_covers. lia.
Qed.

End PersistenceProperties.

(** ** Documents and report figures *)

Lemma violations_list_records (analysis_id : string)
    (a : UltimateTrafficAnalyzer) :
  violations_list analysis_id (map_to_list (violations a))
  = violation_record analysis_id <$> all_records a.
Proof.
  unfold violations_list, all_records, violation_lists.
  rewrite <- (join_fmap (violation_record analysis_id)).
  by rewrite <- list_fmap_compose.
Qed.

Lemma count_ones {A : Type} (l : list A) :
  sum_list ((λ _, 1) <$> l) = length l.
Proof. rewrite sum_list_fmap_const. lia. Qed.

Lemma count_filter_fmap {A B : Type} (f : A → B) (P : B → Prop)
    (Q : A → Prop) `{!∀ y, Decision (P y)} `{!∀ x, Decision (Q x)}
    (l : list A) :
  (∀ x, P (f x) ↔ Q x) →
  length (filter P (f <$> l)) = sum_list ((λ _, 1) <$> filter Q l).
Proof.
  intros HPQ. rewrite count_ones. induction l as [|x l IH]; [done|].
  rewrite fmap_cons, !filter_cons.
  destruct (decide (P (f x))) as [HP|HP], (decide (Q x)) as [HQ|HQ];
    cbn [length]; rewrite ?IH; try done.
  - by apply HPQ in HP.
  - by apply HPQ in HQ.
Qed.

Lemma count_filter_le {A : Type} (P Q : A → Prop)
    `{!∀ x, Decision (P x)} `{!∀ x, Decision (Q x)} (l : list A) :
  (∀ x, P x → Q x) →
  sum_list ((λ _, 1) <$> filter P l) ≤ sum_list ((λ _, 1) <$> filter Q l)
  ∧ sum_list ((λ _, 1) <$> filter Q l) ≤ length l.
Proof.
  intros HPQ. rewrite !count_ones.
  induction l as [|x l [IH1 IH2]]; [done|].
  rewrite !filter_cons.
  destruct (decide (P x)) as [HP|HP], (decide (Q x)) as [HQ|HQ];
    cbn [length]; try lia.
  destruct HQ. by apply HPQ.
Qed.

(** X12. The documents stored for the records of an analyzer are as many
    as [total_unique_violations]; those flagged [is_speeding] are as many
    as the [speeding_count] of the reports and those of severity "high"
    as many as [high_severity]; a document is "low" exactly if it is not
    flagged; and [high_severity <= speeding_count <= total]. *)
Theorem documents_agree_with_reports (analysis_id : string)
    (a : UltimateTrafficAnalyzer) :
  let docs := violations_list analysis_id (map_to_list (violations a)) in
  let values := violation_lists a in
  length docs = Stats.total_unique_violations (get_statistics a)
  ∧ length (filter (λ d, ViolationDoc.is_speeding d = true) docs)
    = speeding_count values
  ∧ length (filter (λ d, ViolationDoc.severity d = "high") docs)
    = high_severity values
  ∧ (∀ d, d ∈ docs →
       (ViolationDoc.severity d = "low" ↔ ViolationDoc.is_speeding d = false)
       ∧ (ViolationDoc.is_speeding d = true
          ↔ (100 < ViolationDoc.speed_kmh d)%Z))
  ∧ high_severity values ≤ speeding_count values
  ∧ speeding_count values ≤ length docs.
Proof.
  intros docs values. unfold docs. rewrite violations_list_records.
  rewrite length_fmap.
  split.
  { unfold get_statistics, all_records. simpl. by rewrite length_join. }
  split.
  { apply count_filter_fmap. intros v. simpl. apply Z.ltb_lt. }
  split.
  { apply count_filter_fmap. intros v. simpl.
    destruct (120 <? _)%Z eqn:H120; [by apply Z.ltb_lt in H120|].
    apply Z.ltb_ge in H120.
    destruct (100 <? _)%Z; split; (done || lia). }
  split.
  { intros d (v & -> & _)%list_elem_of_fmap. simpl.
    destruct (120 <? _)%Z eqn:H120, (100 <? _)%Z eqn:H100;
      try apply Z.ltb_lt in H120; try apply Z.ltb_ge in H120;
      try apply Z.ltb_lt in H100; try apply Z.ltb_ge in H100;
      repeat split; try done; lia. }
  unfold speeding_count, high_severity. fold (all_records a).
  apply (count_filter_le
           (λ v, (120 < Violation.speed_kmh v)%Z)
           (λ v, (100 < Violation.speed_kmh v)%Z)).
  lia.
Qed.

(** ** Scores *)

(** X13. The performance scores of the reports are defined exactly if at
    least one vehicle was detected (otherwise the violation rate divides
    by zero and no report is produced); when defined, the four scores lie
    between 0 and 100, and the compliance score is 100 exactly if the
    maximum speed is at most 100. *)
Theorem performance_scores_bounded (stats : Stats.t) :
  (performance_scores stats = None
   ↔ Stats.total_vehicles_detected stats = 0)
  ∧ ∀ sc, performance_scores stats = Some sc →
      (0 <= safety_score sc <= 100)%Q
      ∧ (0 <= efficiency_score sc <= 100)%Q
      ∧ (0 <= compliance_score sc <= 100)%Q
      ∧ (0 <= overall_score sc <= 100)%Q
      ∧ ((compliance_score sc == 100)%Q ↔ (Stats.max_speed stats ≤ 100)%Z).
Proof.
  unfold performance_scores.
  destruct (Stats.total_vehicles_detected stats) as [|n]; [by split|].
  split; [by split|]. intros sc [= <-]. cbn [safety_score efficiency_score
    compliance_score overall_score].
  set (rate := (inject_Z (Z.of_nat (Stats.total_unique_violations stats))
                / inject_Z (Z.of_nat (S n)) * 100)%Q).
  assert (0 <= rate)%Q as Hrate.
  { unfold rate. apply Qmult_le_0_compat; [|by vm_compute].
    apply Qmult_le_0_compat; [rewrite <- (Zle_Qle 0); lia|].
    apply Qinv_le_0_compat. rewrite <- (Zle_Qle 0). lia. }
  assert (0 <= Py.max 0 (100 - rate * 2) <= 100)%Q as Hsafety.
  { unfold Py.max. destruct (Py.ltb _ _) eqn:H.
    - apply ltb_lt in H. lra.
    - lra. }
  set (avg := Stats.avg_speed stats).
  assert (0 <= (if Py.ltb 0 avg then float_min 100 (avg / 80 * 100) else 0)
          <= 100)%Q as Heff.
  { destruct (Py.ltb 0 avg) eqn:Havg; [|lra].
    apply ltb_lt in Havg. unfold float_min.
    destruct (Py.ltb _ 100) eqn:H; [|lra].
    apply ltb_lt in H.
    assert (avg / 80 * 100 == avg * (5 # 4))%Q as Heq by field.
    rewrite Heq in *. lra. }
  set (comp := if (Stats.max_speed stats <=? 100)%Z then 100%Z
               else if (0 <? 100 - (Stats.max_speed stats - 100))%Z
                    then (100 - (Stats.max_speed stats - 100))%Z else 0%Z).
  assert ((0 ≤ comp ≤ 100)%Z
          ∧ (comp = 100%Z ↔ (Stats.max_speed stats ≤ 100)%Z)) as [Hcomp Hiff].
  { unfold comp. destruct (_ <=? 100)%Z eqn:Hmax.
    - apply Z.leb_le in Hmax. lia.
    - apply Z.leb_gt in Hmax. destruct (0 <? _)%Z eqn:Hrest.
      + apply Z.ltb_lt in Hrest. lia.
      + lia. }
  assert (0 <= inject_Z comp <= 100)%Q as HcompQ.
  { split; [rewrite <- (Zle_Qle 0)|rewrite <- (Zle_Qle _ 100)]; lia. }
  split; [done|]. split; [done|]. split; [done|]. split.
  { assert (∀ q : Q, q / 3 == q * (1 # 3))%Q as Hthird by (intros; field).
    rewrite Hthird. lra. }
  rewrite <- Hiff. split.
  - intros H. by apply (inject_Z_injective comp 100).
  - by intros ->.
Qed.

(** ** Risk *)

(** X14. The risk level shown by the dashboard for a number of violations
    is the one stored with the scorecard for that number: "High" above
    200, "Medium" above 100, "Low" otherwise. *)
Theorem risk_levels_agree (n : nat) :
  (risk_level (risk_score n) = "High" ↔ scorecard_risk_level n = "high")
  ∧ (risk_level (risk_score n) = "Medium"
     ↔ scorecard_risk_level n = "medium")
  ∧ (risk_level (risk_score n) = "Low" ↔ scorecard_risk_level n = "low")
  ∧ (risk_level (risk_score n) = "High" ↔ 200 < n)
  ∧ (risk_level (risk_score n) = "Low" ↔ n ≤ 100).
Proof.
  unfold risk_level, risk_score, scorecard_risk_level.
  destruct (decide (200 < n)) as [H200|H200].
  { rewrite !(bool_decide_eq_true_2 (200 < n)) by done. simpl.
    repeat split; try done; lia. }
  rewrite !(bool_decide_eq_false_2 (200 < n)) by done.
  destruct (decide (100 < n)) as [H100|H100].
  { rewrite !(bool_decide_eq_true_2 (100 < n)) by done. simpl.
    repeat split; try done; lia. }
  rewrite !(bool_decide_eq_false_2 (100 < n)) by done. simpl.
  repeat split; try done; lia.
Qed.

Section DashboardProperties.

Variable DB : Type.
Variable Doc : Type.
Variable find_sorted : DB → option (list Doc).

Lemma length_get_violations_data (_db : option DB) (limit : nat) :
  0 < limit →
  length (get_violations_data DB Doc find_sorted _db limit) ≤ limit.
Proof.
  intros Hlimit. unfold get_violations_data.
  destruct _db as [db|]; [|simpl; lia].
  destruct (find_sorted db) as [found|]; [|simpl; lia].
  destruct limit; [lia|]. rewrite length_take. lia.
Qed.

(** X15. The dashboard counts the violations it has loaded, and it loads
    at most 100 of them: whatever the database holds, and also when it
    is not connected or the query fails, the risk score shown is 25 and
    the risk level "Low". *)
Theorem dashboard_risk_is_always_low (_db : option DB) :
  dashboard_risk DB Doc find_sorted _db = (25, "Low").
Proof.
  unfold dashboard_risk. cbv zeta.
  pose proof (length_get_violations_data _db 100 ltac:(lia)) as Hlen.
  unfold risk_score.
  rewrite !bool_decide_eq_false_2 by lia. done.
Qed.

End DashboardProperties.

(** * Machine numbers *)

(** ** Rounding *)

Lemma pow2_pos (k : Z) : (0 < Float.pow2 k)%Q.
Proof. by apply Qpower_0_lt. Qed.

Lemma pow2_add (a b : Z) :
  (Float.pow2 (a + b) == Float.pow2 a * Float.pow2 b)%Q.
Proof. by apply Qpower_plus. Qed.

Lemma pow2_le (a b : Z) : (a ≤ b)%Z → (Float.pow2 a <= Float.pow2 b)%Q.
Proof. intros H. by apply Qpower_le_compat_l. Qed.

Lemma pow2_lt (a b : Z) : (a < b)%Z → (Float.pow2 a < Float.pow2 b)%Q.
Proof. intros H. by apply Qpower_lt_compat_l. Qed.

Lemma pow2_inject (k : Z) :
  (0 ≤ k)%Z → (Float.pow2 k == inject_Z (2 ^ k))%Q.
Proof. intros H. unfold Float.pow2. by rewrite Zpower_Qpower. Qed.

Lemma pow2_le_inv (a b : Z) : (Float.pow2 a <= Float.pow2 b)%Q → (a ≤ b)%Z.
Proof.
  intros H. destruct (Z.le_gt_cases a b) as [|Hlt]; [done|].
  apply pow2_lt in Hlt. lra.
Qed.

Lemma floor_log2_spec (x : Q) :
  (0 < x)%Q →
  (Float.pow2 (Float.floor_log2 x) <= x
   < Float.pow2 (Float.floor_log2 x + 1))%Q.
Proof.
  intros Hx. unfold Float.floor_log2.
  destruct x as [n d]. cbn [Qnum Qden].
  assert (0 < n)%Z as Hn by (unfold Qlt in Hx; simpl in Hx; lia).
  set (a := Z.log2 n). set (b := Z.log2 (Z.pos d)).
  destruct (Z.log2_spec n Hn) as [Ha1 Ha2]. fold a in Ha1, Ha2.
  destruct (Z.log2_spec (Z.pos d) ltac:(lia)) as [Hb1 Hb2]. fold b in Hb1, Hb2.
  assert (0 ≤ a)%Z as Ha0 by apply Z.log2_nonneg.
  assert (0 ≤ b)%Z as Hb0 by apply Z.log2_nonneg.
  assert (n # d == inject_Z n / inject_Z (Z.pos d))%Q as Hq
    by apply Qmake_Qdiv.
  assert (0 < inject_Z (Z.pos d))%Q as Hd by (rewrite <- (Zlt_Qlt 0); lia).
  assert (inject_Z (2 ^ a) <= inject_Z n)%Q as Hna by (by rewrite <- Zle_Qle).
  assert (inject_Z n < inject_Z (2 ^ (a + 1)))%Q as Hna'
    by (by rewrite <- Zlt_Qlt; rewrite Z.add_1_r).
  assert (inject_Z (2 ^ b) <= inject_Z (Z.pos d))%Q as Hdb
    by (by rewrite <- Zle_Qle).
  assert (inject_Z (Z.pos d) < inject_Z (2 ^ (b + 1)))%Q as Hdb'
    by (by rewrite <- Zlt_Qlt; rewrite Z.add_1_r).
  rewrite <- !pow2_inject in Hna, Hna', Hdb, Hdb' by lia.
  destruct (Qle_bool (Float.pow2 (a - b)) (n # d)) eqn:Htest; cbv iota.
  - apply Qle_bool_iff in Htest. split; [done|].
    rewrite Hq. apply Qlt_shift_div_r; [done|].
    assert (Float.pow2 (a + 1) == Float.pow2 (a - b + 1) * Float.pow2 b)%Q
      as Hp.
    { rewrite <- pow2_add. by replace (a - b + 1 + b)%Z with (a + 1)%Z by lia. }
    pose proof (pow2_pos (a - b + 1)). nra.
  - assert (¬ (Float.pow2 (a - b) <= n # d)%Q) as Hlt.
    { intros H. apply Qle_bool_iff in H. congruence. }
    apply Qnot_le_lt in Hlt.
    replace (a - b - 1 + 1)%Z with (a - b)%Z by lia. split; [|done].
    rewrite Hq. apply Qle_shift_div_l; [done|].
    assert (Float.pow2 a == Float.pow2 (a - b - 1) * Float.pow2 (b + 1))%Q
      as Hp.
    { rewrite <- pow2_add. by replace (a - b - 1 + (b + 1))%Z with a by lia. }
    pose proof (pow2_pos (a - b - 1)). nra.
Qed.

Lemma pow2_lt_inv (a b : Z) : (Float.pow2 a < Float.pow2 b)%Q → (a < b)%Z.
Proof.
  intros H. destruct (Z.lt_ge_cases a b) as [|Hge]; [done|].
  apply pow2_le in Hge. lra.
Qed.

Lemma rne_comp (x y : Q) : (x == y)%Q → Float.rne x = Float.rne y.
Proof.
  intros H. unfold Float.rne.
  assert (Qfloor x = Qfloor y) as -> by (by apply Qfloor_comp).
  assert ((x - inject_Z (Qfloor y) ?= 1 # 2)%Q
          = (y - inject_Z (Qfloor y) ?= 1 # 2)%Q) as ->; [|done].
  apply Qcompare_comp; [|done]. by apply Qplus_comp.
Qed.

Lemma rne_cases (y : Q) :
  (Float.rne y = Qfloor y ∧ (y - inject_Z (Qfloor y) <= 1 # 2)%Q)
  ∨ (Float.rne y = (Qfloor y + 1)%Z ∧ (1 # 2 <= y - inject_Z (Qfloor y))%Q).
Proof.
  unfold Float.rne.
  destruct (Qcompare_spec (y - inject_Z (Qfloor y)) (1 # 2)) as [H|H|H].
  - destruct (Z.even _); [left|right]; (split; [done|lra]).
  - left. split; [done|lra].
  - right. split; [done|lra].
Qed.

Lemma rne_near (y : Q) :
  (inject_Z (Float.rne y) - y <= 1 # 2)%Q
  ∧ (y - inject_Z (Float.rne y) <= 1 # 2)%Q.
Proof.
  pose proof (Qfloor_le y) as Hlo. pose proof (Qlt_floor y) as Hhi.
  rewrite inject_Z_plus in Hhi. change (inject_Z 1) with 1%Q in Hhi.
  destruct (rne_cases y) as [[-> H]|[-> H]].
  - split; lra.
  - rewrite inject_Z_plus. change (inject_Z 1) with 1%Q. split; lra.
Qed.

Lemma rne_le (y : Q) (N : Z) : (y <= inject_Z N)%Q → (Float.rne y ≤ N)%Z.
Proof.
  intros HN. pose proof (Qfloor_le y) as Hlo.
  assert (Qfloor y ≤ N)%Z as Hf by (rewrite Zle_Qle; lra).
  destruct (rne_cases y) as [[-> _]|[-> H]]; [done|].
  assert (Qfloor y < N)%Z; [|lia].
  rewrite Zlt_Qlt. lra.
Qed.

Lemma rne_ge (y : Q) (N : Z) : (inject_Z N <= y)%Q → (N ≤ Float.rne y)%Z.
Proof.
  intros HN. apply Qfloor_resp_le in HN. rewrite Qfloor_Z in HN.
  destruct (rne_cases y) as [[-> _]|[-> _]]; lia.
Qed.

Lemma rne_Z (y : Q) (n : Z) : (y == inject_Z n)%Q → Float.rne y = n.
Proof.
  intros H. apply Z.le_antisymm; [apply rne_le|apply rne_ge]; lra.
Qed.

Lemma round_pos_eq (x : Q) :
  Float.round_pos x
  = (inject_Z (Float.rne (x / Float.pow2 (Float.ulp_exp x)))
     * Float.pow2 (Float.ulp_exp x))%Q.
Proof. done. Qed.

Lemma round_pos_error (x : Q) :
  (Float.round_pos x - x <= Float.pow2 (Float.ulp_exp x) * (1 # 2))%Q
  ∧ (x - Float.round_pos x <= Float.pow2 (Float.ulp_exp x) * (1 # 2))%Q.
Proof.
  rewrite round_pos_eq. set (e := Float.ulp_exp x).
  pose proof (pow2_pos e) as He.
  destruct (rne_near (x / Float.pow2 e)) as [H1 H2].
  assert (x == x / Float.pow2 e * Float.pow2 e)%Q as Hx by (field; lra).
  set (y := (x / Float.pow2 e)%Q) in *. set (r := inject_Z (Float.rne y)) in *.
  split; nra.
Qed.

Lemma round_pos_nonneg (x : Q) : (0 < x)%Q → (0 <= Float.round_pos x)%Q.
Proof.
  intros Hx. rewrite round_pos_eq. set (e := Float.ulp_exp x).
  pose proof (pow2_pos e) as He.
  assert (0 ≤ Float.rne (x / Float.pow2 e))%Z as Hr.
  { apply rne_ge. apply Qle_shift_div_l; [done|].
    change (inject_Z 0) with 0%Q. lra. }
  rewrite Zle_Qle in Hr. change (inject_Z 0) with 0%Q in Hr. nra.
Qed.

(** A multiple of [2^ec] that bounds [x] bounds the rounded value too,
    as long as the last place of [x] is not coarser than [2^ec]. *)
Lemma ulp_exp_le (x : Q) (ec : Z) :
  (0 < x)%Q → (-1074 ≤ ec)%Z → (x < Float.pow2 (ec + 53))%Q →
  (Float.ulp_exp x ≤ ec)%Z.
Proof.
  intros Hx Hec Hlt. unfold Float.ulp_exp.
  destruct (floor_log2_spec x Hx) as [Hlo _].
  assert (Float.floor_log2 x < ec + 53)%Z by (apply pow2_lt_inv; lra). lia.
Qed.

Lemma pow2_split (e ec : Z) :
  (e ≤ ec)%Z → (Float.pow2 ec == inject_Z (2 ^ (ec - e)) * Float.pow2 e)%Q.
Proof.
  intros H. rewrite <- pow2_inject by lia. rewrite <- pow2_add.
  by replace (ec - e + e)%Z with ec by lia.
Qed.

Lemma round_pos_le (x : Q) (C ec : Z) :
  (0 < x)%Q → (-1074 ≤ ec)%Z → (x < Float.pow2 (ec + 53))%Q →
  (x <= inject_Z C * Float.pow2 ec)%Q →
  (Float.round_pos x <= inject_Z C * Float.pow2 ec)%Q.
Proof.
  intros Hx Hec Hlt HC. pose proof (ulp_exp_le x ec Hx Hec Hlt) as He.
  rewrite round_pos_eq. set (e := Float.ulp_exp x) in *.
  pose proof (pow2_pos e) as Hpe. pose proof (pow2_split e ec He) as Hs.
  assert (Float.rne (x / Float.pow2 e) ≤ C * 2 ^ (ec - e))%Z as Hr.
  { apply rne_le. apply Qle_shift_div_r; [done|].
    rewrite inject_Z_mult. nra. }
  rewrite Zle_Qle in Hr. rewrite inject_Z_mult in Hr.
  set (r := inject_Z (Float.rne (x / Float.pow2 e))) in *.
  set (p := inject_Z (2 ^ (ec - e))) in *. nra.
Qed.

Lemma round_pos_ge (x : Q) (C ec : Z) :
  (0 < x)%Q → (-1074 ≤ ec)%Z → (x < Float.pow2 (ec + 53))%Q →
  (inject_Z C * Float.pow2 ec <= x)%Q →
  (inject_Z C * Float.pow2 ec <= Float.round_pos x)%Q.
Proof.
  intros Hx Hec Hlt HC. pose proof (ulp_exp_le x ec Hx Hec Hlt) as He.
  rewrite round_pos_eq. set (e := Float.ulp_exp x) in *.
  pose proof (pow2_pos e) as Hpe. pose proof (pow2_split e ec He) as Hs.
  assert (C * 2 ^ (ec - e) ≤ Float.rne (x / Float.pow2 e))%Z as Hr.
  { apply rne_ge. apply Qle_shift_div_l; [done|].
    rewrite inject_Z_mult. nra. }
  rewrite Zle_Qle in Hr. rewrite inject_Z_mult in Hr.
  set (r := inject_Z (Float.rne (x / Float.pow2 e))) in *.
  set (p := inject_Z (2 ^ (ec - e))) in *. nra.
Qed.

(** A number of at most 53 bits times a power of two in range is its own
    rounding. *)
Lemma round_pos_exact (x : Q) (C ec : Z) :
  (0 < x)%Q → (-1074 ≤ ec)%Z → (x < Float.pow2 (ec + 53))%Q →
  (x == inject_Z C * Float.pow2 ec)%Q → (Float.round_pos x == x)%Q.
Proof.
  intros Hx Hec Hlt HC. apply Qle_antisym.
  - rewrite HC at 2. apply round_pos_le; try done. lra.
  - rewrite HC at 1. apply round_pos_ge; try done. lra.
Qed.

(** In the normal range the rounding error is at most half a unit in the
    last place, that is, [2^-53] of the number. *)
Lemma round_pos_relative (x : Q) :
  (Float.pow2 (-1022) <= x)%Q →
  (Float.round_pos x - x <= x * (1 # 2 ^ 53))%Q
  ∧ (x - Float.round_pos x <= x * (1 # 2 ^ 53))%Q.
Proof.
  intros Hx. pose proof (pow2_pos (-1022)) as H0.
  assert (0 < x)%Q as Hpos by lra.
  destruct (floor_log2_spec x Hpos) as [Hlo Hhi].
  assert (-1022 < Float.floor_log2 x + 1)%Z by (apply pow2_lt_inv; lra).
  assert (Float.ulp_exp x = (Float.floor_log2 x + -52)%Z) as He
    by (unfold Float.ulp_exp; lia).
  destruct (round_pos_error x) as [H1 H2]. rewrite He, pow2_add in H1, H2.
  assert (Float.pow2 (-52) * (1 # 2) == 1 # 2 ^ 53)%Q as Hc by done.
  set (p := Float.pow2 (Float.floor_log2 x)) in *.
  set (c := Float.pow2 (-52)) in *.
  assert (0 < c)%Q by apply pow2_pos.
  split; nra.
Qed.

(** ** [round] and the true division *)

Lemma round_finite_pos (x : Q) :
  (0 < x)%Q → (Float.round_pos x < Float.pow2 1024)%Q →
  Float.round x = Float.Finite (Qred (Float.round_pos x)).
Proof.
  intros Hx Hlt. unfold Float.round.
  destruct (Qcompare_spec x 0) as [H|H|H]; [lra|lra|].
  destruct (Qle_bool _ _) eqn:Hb; [|done].
  apply Qle_bool_iff in Hb. lra.
Qed.

Lemma round_finite_neg (x : Q) :
  (x < 0)%Q → (Float.round_pos (- x) < Float.pow2 1024)%Q →
  Float.round x = Float.Finite (Qred (- Float.round_pos (- x))).
Proof.
  intros Hx Hlt. unfold Float.round.
  destruct (Qcompare_spec x 0) as [H|H|H]; [lra| |lra].
  destruct (Qle_bool _ _) eqn:Hb; [|done].
  apply Qle_bool_iff in Hb. lra.
Qed.

Lemma round_zero (x : Q) : (x == 0)%Q → Float.round x = Float.Finite 0.
Proof.
  intros Hx. unfold Float.round.
  destruct (Qcompare_spec x 0) as [H|H|H]; [done|lra|lra].
Qed.

Lemma ltb_finite (x y : Q) :
  Float.ltb (Float.Finite x) (Float.Finite y) = true ↔ (x < y)%Q.
Proof.
  simpl. rewrite negb_true_iff, <- not_true_iff_false, Qle_bool_iff.
  split; [apply Qnot_le_lt | apply Qlt_not_le].
Qed.

Lemma ltb_finite_false (x y : Q) :
  Float.ltb (Float.Finite x) (Float.Finite y) = false ↔ (y <= x)%Q.
Proof. simpl. rewrite negb_false_iff. apply Qle_bool_iff. Qed.

Lemma quotient_pos (a b : Z) :
  (0 < a)%Z → (0 < b)%Z → (0 < inject_Z a / inject_Z b)%Q.
Proof.
  intros Ha Hb. apply Qlt_shift_div_l.
  - by rewrite <- (Zlt_Qlt 0).
  - rewrite Qmult_0_l. by rewrite <- (Zlt_Qlt 0).
Qed.

Lemma truediv_pos (a b : Z) :
  (0 < a)%Z → (0 < b)%Z →
  let x := (inject_Z a / inject_Z b)%Q in
  (Float.round_pos x < Float.pow2 1024)%Q →
  Float.truediv a b = Value (Float.Finite (Qred (Float.round_pos x))).
Proof.
  intros Ha Hb x Hlt. unfold Float.truediv.
  rewrite (proj2 (Z.eqb_neq b 0)) by lia. fold x.
  by rewrite (round_finite_pos x (quotient_pos a b Ha Hb) Hlt).
Qed.

Lemma truediv_neg (a b : Z) :
  (a < 0)%Z → (0 < b)%Z →
  let x := (inject_Z (- a) / inject_Z b)%Q in
  (Float.round_pos x < Float.pow2 1024)%Q →
  ∃ v, Float.truediv a b = Value (Float.Finite v) ∧ (v <= 0)%Q.
Proof.
  intros Ha Hb x Hlt. unfold Float.truediv.
  rewrite (proj2 (Z.eqb_neq b 0)) by lia.
  pose proof (quotient_pos (- a) b ltac:(lia) Hb) as Hx. fold x in Hx.
  assert (inject_Z a / inject_Z b == - x)%Q as Hq.
  { unfold x. rewrite inject_Z_opp. field.
    intros H. apply (inject_Z_injective b 0) in H. lia. }
  assert (Float.round (inject_Z a / inject_Z b)
          = Float.Finite (Qred (- Float.round_pos x))) as ->.
  { unfold Float.round.
    destruct (Qcompare_spec (inject_Z a / inject_Z b) 0) as [H|H|H];
      [lra| |lra].
    assert (Float.round_pos (- (inject_Z a / inject_Z b))
            = Float.round_pos x) as ->.
    { unfold x. f_equal. unfold Qdiv. rewrite inject_Z_opp.
      destruct (inject_Z a), (/ inject_Z b)%Q. unfold Qopp, Qmult. simpl.
      f_equal. lia. }
    destruct (Qle_bool _ _) eqn:Hb'; [|done].
    apply Qle_bool_iff in Hb'. lra. }
  eexists. split; [done|].
  rewrite Qred_correct. pose proof (round_pos_nonneg x Hx). lra.
Qed.

Lemma truediv_zero (b : Z) :
  (0 < b)%Z → Float.truediv 0 b = Value (Float.Finite 0).
Proof.
  intros Hb. unfold Float.truediv.
  rewrite (proj2 (Z.eqb_neq b 0)) by lia.
  rewrite round_zero; [done|]. unfold Qdiv. apply Qmult_0_l.
Qed.

(** ** Elapsed seconds *)

(** [total_seconds] is a rounded quotient, yet it exceeds 5 exactly when
    more than five million microseconds have elapsed. *)
Lemma seconds_since_spec (t t0 : datetime.t) :
  datetime.aware t = datetime.aware t0 →
  let elapsed := (datetime.microseconds t - datetime.microseconds t0)%Z in
  (Z.abs elapsed ≤ datetime.timedelta_max)%Z →
  ∃ time_diff,
    datetime.seconds_since t t0 = Value time_diff
    ∧ (Float.ltb (Float.Finite 5) time_diff = true ↔ (5000000 < elapsed)%Z).
Proof.
  intros Haw elapsed Hrange. unfold datetime.seconds_since.
  rewrite Haw, eqb_reflx. fold elapsed.
  unfold datetime.timedelta_max in Hrange.
  destruct (Z.lt_trichotomy elapsed 0) as [Hneg|[Hz|Hpos]].
  - set (x := (inject_Z (- elapsed) / inject_Z 1000000)%Q).
    assert (0 < x)%Q as Hx by (apply quotient_pos; lia).
    assert (x <= inject_Z (2 ^ 47) * Float.pow2 0)%Q as Hub.
    { unfold x. apply Qle_shift_div_r; [done|].
      change (Float.pow2 0) with 1%Q. rewrite Qmult_1_r, <- inject_Z_mult.
      rewrite <- Zle_Qle. lia. }
    assert (x < Float.pow2 (0 + 53))%Q as Hlt.
    { eapply Qle_lt_trans; [exact Hub|]. by vm_compute. }
    pose proof (round_pos_le x (2 ^ 47) 0 Hx ltac:(lia) Hlt Hub) as Hr.
    destruct (truediv_neg elapsed 1000000 Hneg ltac:(lia)) as (v & -> & Hv).
    { fold x. eapply Qle_lt_trans; [exact Hr|]. by vm_compute. }
    eexists. split; [done|]. rewrite ltb_finite. split; [lra|lia].
  - rewrite Hz, truediv_zero by lia. eexists. split; [done|].
    rewrite ltb_finite. split; [lra|lia].
  - set (x := (inject_Z elapsed / inject_Z 1000000)%Q).
    assert (0 < x)%Q as Hx by (apply quotient_pos; lia).
    assert (x <= inject_Z (2 ^ 47) * Float.pow2 0)%Q as Hub.
    { unfold x. apply Qle_shift_div_r; [done|].
      change (Float.pow2 0) with 1%Q. rewrite Qmult_1_r, <- inject_Z_mult.
      rewrite <- Zle_Qle. lia. }
    assert (x < Float.pow2 (0 + 53))%Q as Hlt.
    { eapply Qle_lt_trans; [exact Hub|]. by vm_compute. }
    pose proof (round_pos_le x (2 ^ 47) 0 Hx ltac:(lia) Hlt Hub) as Hr.
    rewrite truediv_pos by
      first [lia|fold x; eapply Qle_lt_trans; [exact Hr|by vm_compute]].
    fold x. eexists. split; [done|]. rewrite ltb_finite, Qred_correct.
    split.
    + intros H5. destruct (Z.le_gt_cases elapsed 5000000) as [Hle|]; [|lia].
      exfalso.
      assert (x <= inject_Z 5 * Float.pow2 0)%Q as H5'.
      { unfold x. apply Qle_shift_div_r; [done|].
        change (Float.pow2 0) with 1%Q. rewrite Qmult_1_r, <- inject_Z_mult.
        rewrite <- Zle_Qle. lia. }
      pose proof (round_pos_le x 5 0 Hx ltac:(lia) Hlt H5') as Hr5.
      change (inject_Z 5 * Float.pow2 0)%Q with (5 * 1)%Q in Hr5. lra.
    + intros H5.
      assert (inject_Z 5000001 / inject_Z 1000000 <= x)%Q as Hlo.
      { unfold x. apply Qle_shift_div_l; [done|].
        unfold Qdiv. rewrite <- Qmult_assoc, (Qmult_comm (/ _)).
        rewrite Qmult_inv_r, Qmult_1_r by done.
        rewrite <- Zle_Qle. lia. }
      assert (Float.pow2 (-1022) <= x)%Q as Hnorm.
      { eapply Qle_trans; [|exact Hlo]. by vm_compute. }
      destruct (round_pos_relative x Hnorm) as [_ Hrel].
      assert (inject_Z 5000001 / inject_Z 1000000 == 5000001 # 1000000)%Q
        as Hc by done.
      rewrite Hc in Hlo.
      assert ((1 # 2 ^ 53) == 1 # 9007199254740992)%Q as Hc' by done.
      rewrite Hc' in Hrel. lra.
Qed.

(** ** The mean of integers *)

(** The mean of integers that are at most the largest float is a float:
    the division does not overflow. *)
Lemma mean_defined (total n : Z) :
  (0 < n)%Z → (0 < total)%Z → (total ≤ (2 ^ 53 - 1) * 2 ^ 971 * n)%Z →
  ∃ avg, Float.truediv total n = Value (Float.Finite avg).
Proof.
  intros Hn Hlo Hhi.
  set (x := (inject_Z total / inject_Z n)%Q).
  assert (0 < inject_Z n)%Q as HnQ by (by rewrite <- (Zlt_Qlt 0)).
  assert (0 < x)%Q as Hx by (apply quotient_pos; lia).
  assert (x <= inject_Z (2 ^ 53 - 1) * Float.pow2 971)%Q as Hub.
  { unfold x. apply Qle_shift_div_r; [done|].
    rewrite pow2_inject by lia. rewrite <- !inject_Z_mult, <- Zle_Qle. lia. }
  assert (x < Float.pow2 (971 + 53))%Q as Hlt.
  { eapply Qle_lt_trans; [exact Hub|]. by vm_compute. }
  pose proof (round_pos_le x _ 971 Hx ltac:(lia) Hlt Hub) as Hr.
  rewrite truediv_pos by
    first [lia|fold x; eapply Qle_lt_trans; [exact Hr|by vm_compute]].
  by eexists.
Qed.

(** The mean the division returns, times the count, is the sum up to
    one rounding: a relative error of at most [2^-53]. *)
Lemma mean_tolerance (total n : Z) (mean : Float.t) :
  (0 < n)%Z → (5 * n ≤ total)%Z →
  Float.truediv total n = Value mean →
  ∃ avg,
    mean = Float.Finite avg
    ∧ (Qabs (avg * inject_Z n - inject_Z total)
       <= inject_Z total * (1 # 2 ^ 53))%Q.
Proof.
  intros Hn Hlo. unfold Float.truediv.
  rewrite (proj2 (Z.eqb_neq n 0)) by lia.
  set (x := (inject_Z total / inject_Z n)%Q).
  assert (0 < inject_Z n)%Q as HnQ by (by rewrite <- (Zlt_Qlt 0)).
  assert (0 < x)%Q as Hx by (apply quotient_pos; lia).
  assert (x * inject_Z n == inject_Z total)%Q as Hxn
    by (unfold x; field; lra).
  assert (5 <= x)%Q as H5.
  { unfold x. apply Qle_shift_div_l; [done|].
    rewrite <- (inject_Z_mult 5), <- Zle_Qle. lia. }
  unfold Float.round.
  destruct (Qcompare_spec x 0) as [H|H|H]; [lra|lra|].
  destruct (Qle_bool _ _); [done|]. intros [= <-].
  eexists. split; [done|].
  assert (Float.pow2 (-1022) <= x)%Q as Hnorm.
  { eapply Qle_trans; [|exact H5]. by vm_compute. }
  destruct (round_pos_relative x Hnorm) as [H1 H2].
  rewrite Qred_correct. set (r := Float.round_pos x) in *.
  set (c := (1 # 2 ^ 53)%Q) in *.
  assert (0 < c)%Q as Hc by done.
  apply Qabs_Qle_condition. rewrite <- Hxn. split; nra.
Qed.

(** * Properties of the analyzer on machine numbers *)

Section MachineProperties.

Import Machine.

Variable fromisoformat : string → option datetime.t.

Local Abbreviation record_violation := (record_violation fromisoformat).
Local Abbreviation exec := (exec fromisoformat).
Local Abbreviation run := (run fromisoformat).

(** ** Single calls of [record_violation] *)

(** The three ways a call can go: it commits, it does nothing, or, for a
    speed that is not finite, it stores the state of the vehicle and
    raises in [int(speed_kmh)]. *)
Lemma machine_record_violation_cases (tid : option Z) (class_name : string)
    (speed_kmh : Float.t) (timestamp : string)
    (a : UltimateTrafficAnalyzer) :
  let e := record_violation tid class_name speed_kmh timestamp a in
  (∃ id v st,
      let k := vehicle_key id class_name in
      tid = Some id
      ∧ Float.ltb speed_kmh (Float.Finite 5) = false
      ∧ Float.int speed_kmh = Value (Violation.speed_kmh v)
      ∧ result e = Returned (Some v)
      ∧ after e = append_violation k v (store_state k st a)
      ∧ st = VehicleState.mk speed_kmh timestamp
               (S (default 0 (VehicleState.violation_count
                                <$> vehicle_states a !! k)))
               match vehicle_states a !! k with
               | None => speed_kmh
               | Some old =>
                 Float.max (VehicleState.max_speed old) speed_kmh
               end
      ∧ v = Violation.mk id class_name (Violation.speed_kmh v) timestamp
              (VehicleState.violation_count st))
  ∨ no_op a e
  ∨ (∃ id st x,
        tid = Some id
        ∧ Float.is_finite speed_kmh = false
        ∧ Float.ltb speed_kmh (Float.Finite 5) = false
        ∧ result e = Raised x
        ∧ alerts e = []
        ∧ after e = store_state (vehicle_key id class_name) st a).
Proof.
  unfold record_violation, Machine.record_violation, no_op.
  destruct tid as [id|]; [|right; left; simpl; auto].
  destruct (Float.ltb speed_kmh _) eqn:Hfloor; [right; left; simpl; auto|].
  destruct (vehicle_states a !! vehicle_key id class_name) as [old|] eqn:Hk.
  - destruct (fromisoformat timestamp) as [t|];
      [|right; left; simpl; eauto].
    destruct (fromisoformat (VehicleState.last_time old)) as [t0|];
      [|right; left; simpl; eauto].
    destruct (datetime.seconds_since t t0) as [time_diff|x];
      [|right; left; simpl; eauto].
    destruct (_ || _); [|right; left; simpl; auto].
    destruct speed_kmh as [q|s|]; simpl.
    + left. eexists id, _, _. simpl. rewrite Hk. by repeat split.
    + right; right. eexists id, _, _. by repeat split.
    + right; right. eexists id, _, _. by repeat split.
  - destruct speed_kmh as [q|s|]; simpl.
    + left. eexists id, _, _. simpl. rewrite Hk. by repeat split.
    + right; right. eexists id, _, _. by repeat split.
    + right; right. eexists id, _, _. by repeat split.
Qed.

Lemma append_store_commits (id : Z) (class_name : string)
    (speed_kmh : Float.t) (timestamp : string) (a : UltimateTrafficAnalyzer)
    (e : effect) (v : Violation.t) (st : VehicleState.t) :
  let k := vehicle_key id class_name in
  Float.int speed_kmh = Value (Violation.speed_kmh v) →
  result e = Returned (Some v) →
  after e = append_violation k v (store_state k st a) →
  st = VehicleState.mk speed_kmh timestamp
         (S (default 0 (VehicleState.violation_count
                          <$> vehicle_states a !! k)))
         match vehicle_states a !! k with
         | None => speed_kmh
         | Some old => Float.max (VehicleState.max_speed old) speed_kmh
         end →
  v = Violation.mk id class_name (Violation.speed_kmh v) timestamp
        (VehicleState.violation_count st) →
  commits id class_name speed_kmh timestamp a e.
Proof.
  intros k Hint Hres Hafter Hst Hv. exists v, st. fold k.
  rewrite Hafter. unfold violations_of. simpl.
  rewrite !lookup_insert_eq. unfold violations_of. simpl.
  repeat split; try done.
  - by rewrite lookup_insert_ne.
  - by rewrite lookup_insert_ne.
Qed.

(** C7. Claim: every call, for any inputs, either commits as a whole or
    does nothing.  Amended: every call with a finite speed does: it
    appends one record to the list of its vehicle and sets the four
    fields of the state of that vehicle together, nothing else changing,
    or it leaves the analyzer exactly as it was (it then returns [None],
    or raises on its timestamps before any assignment). *)
Theorem C7_finite_speed_commits_or_does_nothing (tid : option Z)
    (class_name : string) (speed_kmh : Float.t) (timestamp : string)
    (a : UltimateTrafficAnalyzer) :
  Float.is_finite speed_kmh = true →
  let e := record_violation tid class_name speed_kmh timestamp a in
  (∃ id, tid = Some id ∧ commits id class_name speed_kmh timestamp a e)
  ∨ no_op a e.
Proof.
  intros Hfin e.
  pose proof (machine_record_violation_cases tid class_name speed_kmh
                timestamp a) as Hcases.
  cbv zeta in Hcases. fold e in Hcases.
  destruct Hcases
    as [(id & v & st & Htid & _ & Hint & Hres & Hafter & Hst & Hv)
       |[Hnoop|(id & st & x & _ & Hnf & _)]].
  - left. exists id. split; [done|]. by eapply append_store_commits.
  - by right.
  - congruence.
Qed.

(** C2. Claim: for a tracked vehicle and an accepted measurement a
    record is emitted exactly when [|speed - last_speed| > 10] or more
    than 5 seconds have passed.  Amended: the difference is the one the
    code computes, [speed_kmh - last_speed] rounded to the nearest float,
    and the statement is for a finite speed and two timestamps that parse
    and are both naive or both aware (and no further apart than a
    [timedelta] can hold).  On emission [last_speed] and [last_time]
    become the measurement and [max_speed] the larger of the two speeds;
    otherwise nothing changes.  With [last_speed = 80]: 91 km/h one second
    later emits, 89 km/h one second later does not, 82 km/h six seconds
    later emits. *)
Theorem C2_debounce_on_rounded_difference (id : Z) (class_name : string)
    (speed_kmh : Float.t) (timestamp : string) (a : UltimateTrafficAnalyzer)
    (st : VehicleState.t) (t t0 : datetime.t) :
  vehicle_states a !! vehicle_key id class_name = Some st →
  Float.is_finite speed_kmh = true →
  Float.ltb speed_kmh (Float.Finite 5) = false →
  fromisoformat timestamp = Some t →
  fromisoformat (VehicleState.last_time st) = Some t0 →
  datetime.aware t = datetime.aware t0 →
  let elapsed := (datetime.microseconds t - datetime.microseconds t0)%Z in
  (Z.abs elapsed ≤ datetime.timedelta_max)%Z →
  let speed_diff :=
    Float.abs (Float.sub speed_kmh (VehicleState.last_speed st)) in
  let e := record_violation (Some id) class_name speed_kmh timestamp a in
  let k := vehicle_key id class_name in
  ((∃ v, result e = Returned (Some v))
     ↔ Float.ltb (Float.Finite 10) speed_diff = true
       ∨ (5000000 < elapsed)%Z)
  ∧ (∀ v, result e = Returned (Some v) →
       vehicle_states (after e) !! k
         = Some (VehicleState.mk speed_kmh timestamp
                   (S (VehicleState.violation_count st))
                   (Float.max (VehicleState.max_speed st) speed_kmh))
       ∧ violations (after e) !! k = Some (violations_of a k ++ [v])
       ∧ Float.int speed_kmh = Value (Violation.speed_kmh v)
       ∧ v = Violation.mk id class_name (Violation.speed_kmh v) timestamp
               (S (VehicleState.violation_count st)))
  ∧ ((∀ v, result e ≠ Returned (Some v)) →
       e = mkEffect a (Returned None) [])
  ∧ (VehicleState.last_speed st = Float.Finite 80 →
       (speed_kmh = Float.Finite 91 → elapsed = 1000000%Z →
          ∃ v, result e = Returned (Some v))
       ∧ (speed_kmh = Float.Finite 89 → elapsed = 1000000%Z →
          result e = Returned None)
       ∧ (speed_kmh = Float.Finite 82 → elapsed = 6000000%Z →
          ∃ v, result e = Returned (Some v))).
Proof.
  intros Hk Hfin Hfloor Ht Ht0 Haw elapsed Hrange speed_diff e k.
  destruct (seconds_since_spec t t0 Haw Hrange) as (time_diff & Hsec & Htd).
  fold elapsed in Htd.
  destruct speed_kmh as [q| |]; [|done..].
  subst e. unfold record_violation, Machine.record_violation.
  rewrite Hfloor, Hk, Ht, Ht0, Hsec. fold speed_diff. fold k.
  set (c := Float.ltb _ speed_diff || Float.ltb _ time_diff).
  assert (c = true
          ↔ Float.ltb (Float.Finite 10) speed_diff = true
            ∨ (5000000 < elapsed)%Z) as Hc.
  { unfold c. by rewrite orb_true_iff, Htd. }
  clearbody c. destruct c; simpl.
  - destruct Hc as [Hc _]. specialize (Hc eq_refl).
    split; [split; eauto|].
    split.
    { intros v [= <-]. rewrite !lookup_insert_eq. unfold violations_of.
      by simpl. }
    split; [intros H; by edestruct H|].
    intros Hl. split; [eauto|split; [|eauto]].
    intros [= Hq] Hel. exfalso. destruct Hc as [H|H]; [|lia].
    unfold speed_diff in H. rewrite Hl, Hq in H. by vm_compute in H.
  - assert (¬ (Float.ltb (Float.Finite 10) speed_diff = true
               ∨ (5000000 < elapsed)%Z)) as Hn by (by rewrite <- Hc).
    split; [split; [by intros [? ?]|by intros ?]|].
    split; [done|]. split; [done|].
    intros Hl. split; [|split]; intros [= Hq] Hel.
    + destruct Hn. left. unfold speed_diff. rewrite Hl, Hq. by vm_compute.
    + done.
    + destruct Hn. right. lia.
Qed.

(** What the remaining calls do: a NaN or an infinite speed that is not
    below the floor, for a vehicle that is not yet tracked, is stored as
    the state of the vehicle before [int(speed_kmh)] raises; no record is
    appended. *)
Lemma non_finite_first_speed_is_half_recorded (id : Z) (class_name : string)
    (speed_kmh : Float.t) (timestamp : string)
    (a : UltimateTrafficAnalyzer) :
  Float.is_finite speed_kmh = false →
  Float.ltb speed_kmh (Float.Finite 5) = false →
  vehicle_states a !! vehicle_key id class_name = None →
  let e := record_violation (Some id) class_name speed_kmh timestamp a in
  (∃ x, result e = Raised x)
  ∧ violations (after e) = violations a
  ∧ vehicle_states (after e) !! vehicle_key id class_name
    = Some (VehicleState.mk speed_kmh timestamp 1 speed_kmh).
Proof.
  intros Hnf Hfloor Hk. unfold record_violation, Machine.record_violation.
  rewrite Hfloor, Hk.
  destruct speed_kmh as [q|s|]; [done|..]; simpl;
    rewrite lookup_insert_eq; eauto.
Qed.

(** ** Runs *)

Lemma machine_run_snoc (aid : string) (calls : list call) (c : call) :
  run aid (calls ++ [c]) = exec (run aid calls) c.
Proof. apply foldl_snoc. Qed.

Lemma machine_record_vehicle_keeps_violations (tid : option Z)
    (class_name : string) (in_zone : bool) (a : UltimateTrafficAnalyzer) :
  violations (record_vehicle tid class_name in_zone a) = violations a.
Proof.
  unfold record_vehicle. destruct tid; [|done].
  by destruct (bool_decide _), in_zone.
Qed.

(** What a call of [record_violation] does to the lists of records: it
    appends the record it returns to the list of its vehicle, a speed of
    at least 5, or it leaves all of them as they are. *)
Lemma machine_record_violation_lists (tid : option Z) (class_name : string)
    (speed_kmh : Float.t) (timestamp : string)
    (a : UltimateTrafficAnalyzer) :
  let e := record_violation tid class_name speed_kmh timestamp a in
  (∃ k v,
      result e = Returned (Some v)
      ∧ (5 ≤ Violation.speed_kmh v)%Z
      ∧ violations (after e)
        = <[k := default [] (violations a !! k) ++ [v]]> (violations a))
  ∨ ((∀ v, result e ≠ Returned (Some v))
     ∧ violations (after e) = violations a).
Proof.
  intros e.
  pose proof (machine_record_violation_cases tid class_name speed_kmh
                timestamp a) as Hcases.
  cbv zeta in Hcases. fold e in Hcases.
  destruct Hcases
    as [(id & v & st & _ & Hfloor & Hint & Hres & Hafter & _)
       |[(Hafter & Hres & _)|(id & st & x & _ & _ & _ & Hres & _ & Hafter)]].
  - left. exists (vehicle_key id class_name), v.
    split; [done|]. split; [|by rewrite Hafter].
    destruct speed_kmh as [q| |]; [|done..].
    injection Hint as <-. apply ltb_finite_false in Hfloor.
    by apply int_ge_bound.
  - right. rewrite Hafter. split; [|done].
    intros v. by destruct Hres as [->|[x ->]].
  - right. rewrite Hafter, Hres. by split.
Qed.

Lemma machine_elem_of_all_records (a : UltimateTrafficAnalyzer)
    (v : Violation.t) :
  v ∈ all_records a ↔ ∃ k l, violations a !! k = Some l ∧ v ∈ l.
Proof.
  unfold all_records, violation_lists. rewrite list_elem_of_join.
  split.
  - intros (l & Hv & Hl). apply list_elem_of_fmap in Hl as ([k l'] & -> & Hkl).
    apply elem_of_map_to_list in Hkl. by exists k, l'.
  - intros (k & l & Hk & Hv). exists l. split; [done|].
    apply list_elem_of_fmap. exists (k, l). split; [done|].
    by apply elem_of_map_to_list.
Qed.

(** The records the analyzer holds are the records the calls returned. *)
Lemma machine_exec_records (w : world) (c : call) :
  all_records (analyzer w) ≡ₚ emitted w →
  all_records (analyzer (exec w c)) ≡ₚ emitted (exec w c).
Proof.
  intros Hw.
  destruct c as [tid class_name in_zone|tid class_name speed ts]; simpl.
  { unfold all_records, violation_lists.
    by rewrite machine_record_vehicle_keeps_violations. }
  destruct (machine_record_violation_lists tid class_name speed ts
              (analyzer w)) as [(k & v & Hres & _ & Hviol)|[Hres Hviol]].
  - rewrite Hres. unfold all_records, violation_lists. rewrite Hviol.
    by rewrite values_append, <- Hw.
  - unfold all_records, violation_lists. rewrite Hviol.
    destruct (result _) as [[v|]|x]; [by destruct (Hres v)|done..].
Qed.

Lemma machine_run_records (aid : string) (calls : list call) :
  all_records (analyzer (run aid calls)) ≡ₚ emitted (run aid calls).
Proof.
  induction calls as [|c calls IH] using rev_ind.
  - unfold all_records, violation_lists. simpl. by rewrite map_to_list_empty.
  - rewrite machine_run_snoc. by apply machine_exec_records.
Qed.

(** No list of records is empty, and every recorded speed is at least
    5: the floor is tested on the float, and truncation keeps it. *)
Lemma machine_exec_lists (w : world) (c : call) :
  (∀ k l, violations (analyzer w) !! k = Some l →
          0 < length l ∧ ∀ v, v ∈ l → (5 ≤ Violation.speed_kmh v)%Z) →
  ∀ k l, violations (analyzer (exec w c)) !! k = Some l →
         0 < length l ∧ ∀ v, v ∈ l → (5 ≤ Violation.speed_kmh v)%Z.
Proof.
  intros Hw.
  destruct c as [tid class_name in_zone|tid class_name speed ts]; simpl.
  { by rewrite machine_record_vehicle_keeps_violations. }
  destruct (machine_record_violation_lists tid class_name speed ts
              (analyzer w)) as [(k0 & v0 & _ & Hv0 & ->)|[_ ->]]; [|done].
  intros k l. destruct (decide (k = k0)) as [->|Hne].
  - rewrite lookup_insert_eq. intros [= <-]. rewrite length_app. simpl.
    split; [lia|]. intros v [Hv|Hv]%elem_of_app;
      [|by apply list_elem_of_singleton in Hv as ->].
    destruct (violations (analyzer w) !! k0) as [l0|] eqn:Hl0; simpl in Hv.
    + by apply (Hw k0 l0 Hl0).
    + by apply elem_of_nil in Hv.
  - rewrite lookup_insert_ne by done. apply Hw.
Qed.

Lemma machine_run_lists (aid : string) (calls : list call) (k : string)
    (l : list Violation.t) :
  violations (analyzer (run aid calls)) !! k = Some l →
  0 < length l ∧ ∀ v, v ∈ l → (5 ≤ Violation.speed_kmh v)%Z.
Proof.
  revert k l. induction calls as [|c calls IH] using rev_ind.
  - intros k l. simpl. by rewrite lookup_empty.
  - rewrite machine_run_snoc. by apply machine_exec_lists.
Qed.

(** ** [get_statistics] *)

Lemma machine_all_speeds_records (a : UltimateTrafficAnalyzer) :
  all_speeds a = Violation.speed_kmh <$> all_records a.
Proof. apply join_fmap. Qed.

(** What [get_statistics] reports when it returns, in any state. *)
Lemma machine_get_statistics_spec (a : UltimateTrafficAnalyzer)
    (s : Stats.t) :
  get_statistics a = Value s →
  let speeds := Violation.speed_kmh <$> all_records a in
  Stats.total_unique_violations s = length (all_records a)
  ∧ Stats.total_unique_violations s
    = sum_list (length <$> (map_to_list (violations a)).*2)
  ∧ Stats.vehicles_with_violations s = size (violations a)
  ∧ (all_records a = [] →
       Stats.max_speed s = 0%Z ∧ Stats.avg_speed s = Float.Finite 0)
  ∧ (all_records a ≠ [] →
       Stats.max_speed s ∈ speeds
       ∧ (∀ x, x ∈ speeds → (x ≤ Stats.max_speed s)%Z)
       ∧ Float.truediv (foldr Z.add 0%Z speeds)
           (Z.of_nat (length speeds))
         = Value (Stats.avg_speed s)).
Proof.
  intros Hs speeds. unfold get_statistics in Hs.
  rewrite machine_all_speeds_records in Hs. fold speeds in Hs.
  assert (sum_list (length <$> violation_lists a)
          = length (all_records a)) as Htot.
  { unfold all_records. by rewrite length_join. }
  assert (speeds = [] ↔ all_records a = []) as Hnil.
  { unfold speeds. split; [apply fmap_nil_inv|by intros ->]. }
  destruct speeds as [|x l] eqn:Hsp.
  - injection Hs as <-. simpl.
    split; [done|]. split; [done|]. split; [done|]. split; [done|].
    intros Hne. destruct Hne. by apply Hnil.
  - destruct (Float.truediv _ _) as [avg|e] eqn:Hdiv; [|done].
    injection Hs as <-.
    cbn [Stats.total_unique_violations Stats.vehicles_with_violations
         Stats.max_speed Stats.avg_speed].
    split; [done|]. split; [done|]. split; [done|].
    split; [intros H; by apply Hnil in H|]. intros _.
    destruct (max_list_spec x l) as [Hin Hub].
    split; [done|]. split; [done|]. by rewrite <- sum_foldr.
Qed.

(** C8. Claim: [avg_speed] times the number of records equals the sum of
    the recorded speeds.  Amended: [avg_speed] is the float nearest to the
    quotient of that sum by that number, so that the product is the sum
    up to a relative error of [2^-53].  The rest stands: in every state
    an analyzer reaches, the flattened records are the records emitted by
    [record_violation]; [max_speed] and [avg_speed] are 0 when there is
    none, otherwise [max_speed] is the largest recorded speed; the total
    is the sum of the lengths of the lists and
    [vehicles_with_violations] the number of keys whose list is not
    empty.  [get_statistics] returns as long as no recorded speed exceeds
    the largest float. *)
Theorem C8_statistics_up_to_rounding (aid : string) (calls : list call) :
  let w := run aid calls in
  let a := analyzer w in
  let speeds := Violation.speed_kmh <$> all_records a in
  let total := foldr Z.add 0%Z speeds in
  (∀ v, v ∈ all_records a ↔ ∃ k l, violations a !! k = Some l ∧ v ∈ l)
  ∧ all_records a ≡ₚ emitted w
  ∧ ((∀ x, x ∈ speeds → (x ≤ (2 ^ 53 - 1) * 2 ^ 971)%Z) →
     ∃ s, get_statistics a = Value s)
  ∧ (∀ s, get_statistics a = Value s →
       Stats.total_unique_violations s = length (all_records a)
       ∧ Stats.total_unique_violations s
         = sum_list (length <$> (map_to_list (violations a)).*2)
       ∧ (all_records a = [] →
            Stats.max_speed s = 0%Z ∧ Stats.avg_speed s = Float.Finite 0)
       ∧ (all_records a ≠ [] →
            Stats.max_speed s ∈ speeds
            ∧ (∀ x, x ∈ speeds → (x ≤ Stats.max_speed s)%Z)
            ∧ Float.truediv total (Z.of_nat (length speeds))
              = Value (Stats.avg_speed s)
            ∧ ∃ avg,
                Stats.avg_speed s = Float.Finite avg
                ∧ (Qabs (avg * inject_Z (Z.of_nat
                                           (Stats.total_unique_violations s))
                         - inject_Z total)
                   <= inject_Z total * (1 # 2 ^ 53))%Q)
       ∧ Stats.vehicles_with_violations s = size (keys_with_violations a)).
Proof.
  intros w a speeds total.
  assert (∀ x, x ∈ speeds → (5 ≤ x)%Z) as Hfive.
  { intros x (v & -> & Hv)%list_elem_of_fmap.
    apply machine_elem_of_all_records in Hv as (k & l & Hl & Hv).
    by apply (machine_run_lists aid calls k l Hl). }
  assert (length speeds = length (all_records a)) as Hlen
    by apply length_fmap.
  assert (all_records a ≠ [] →
          (0 < Z.of_nat (length speeds))%Z
          ∧ (5 * Z.of_nat (length speeds) ≤ total)%Z) as Hsum.
  { intros Hne.
    assert (0 < length speeds)
      by (rewrite Hlen; destruct (all_records a); [done|simpl; lia]).
    split; [lia|].
    pose proof (sum_bounds 5 (foldr Z.max 5%Z speeds) speeds) as Hb.
    apply Hb. intros x Hx. split; [by apply Hfive|].
    clear -Hx. induction speeds as [|y l IH]; [by apply elem_of_nil in Hx|].
    simpl. apply elem_of_cons in Hx as [->|Hx]; [lia|].
    specialize (IH Hx). lia. }
  split; [apply machine_elem_of_all_records|].
  split; [apply machine_run_records|].
  split.
  { intros Hmax. unfold get_statistics.
    rewrite machine_all_speeds_records. fold speeds.
    rewrite sum_foldr. fold total.
    assert (all_records a ≠ [] →
            (total ≤ (2 ^ 53 - 1) * 2 ^ 971 * Z.of_nat (length speeds))%Z)
      as Hhi.
    { intros _. apply (sum_bounds 5 ((2 ^ 53 - 1) * 2 ^ 971) speeds).
      intros y Hy. split; [by apply Hfive|by apply Hmax]. }
    clearbody total speeds. destruct speeds as [|x l]; [by eexists|].
    assert (all_records a ≠ []) as Hne
      by (intros Hnil; rewrite Hnil in Hlen; discriminate).
    destruct (Hsum Hne) as [Hn Hlo].
    destruct (mean_defined total (Z.of_nat (length (x :: l))))
      as [avg ->]; [done|lia|by apply Hhi|by eexists]. }
  intros s Hs.
  destruct (machine_get_statistics_spec a s Hs)
    as (Htot & Htot' & Hwith & Hnil & Hne).
  split; [done|]. split; [done|]. split; [done|].
  split.
  { intros Hrec. destruct (Hne Hrec) as (Hin & Hub & Hdiv).
    split; [done|]. split; [done|]. split; [done|].
    destruct (Hsum Hrec) as [Hn Hlo]. fold speeds total in Hdiv.
    destruct (mean_tolerance _ _ _ Hn Hlo Hdiv) as (avg & Havg & Htol).
    exists avg. split; [done|]. by rewrite Htot, <- Hlen. }
  rewrite Hwith. unfold keys_with_violations.
  rewrite size_dom. f_equal. symmetry. apply map_filter_id.
  intros k l Hl. simpl. by apply (machine_run_lists aid calls k l Hl).
Qed.

End MachineProperties.

(** ** The speed estimate on machine numbers *)

Lemma Qred_inject_Z (n : Z) : Qred (inject_Z n) = inject_Z n.
Proof.
  unfold Qred, inject_Z.
  pose proof (Z.ggcd_gcd n 1) as Hg.
  pose proof (Z.ggcd_correct_divisors n 1) as Hd.
  destruct (Z.ggcd n 1) as [g [r1 r2]]. simpl in *.
  rewrite Z.gcd_1_r in Hg. subst g. destruct Hd as [H1 H2].
  assert (r1 = n) as -> by lia. assert (r2 = 1%Z) as -> by lia. done.
Qed.

(** A positive integer of at most 53 bits is a float. *)
Lemma round_small_int (x : Q) (n : Z) :
  (0 < n < 2 ^ 53)%Z → (x == inject_Z n)%Q →
  Float.round x = Float.Finite (inject_Z n).
Proof.
  intros Hn Hx.
  assert (0 < x)%Q as Hpos by (rewrite Hx, <- (Zlt_Qlt 0); lia).
  assert (x < Float.pow2 (0 + 53))%Q as Hlt.
  { rewrite Hx, pow2_inject by lia. rewrite <- Zlt_Qlt. lia. }
  assert (Float.round_pos x == x)%Q as Hex.
  { apply (round_pos_exact x n 0); try done.
    change (Float.pow2 0) with 1%Q. by rewrite Qmult_1_r. }
  rewrite round_finite_pos; [|done|].
  - f_equal. rewrite (Qred_complete _ (inject_Z n)) by (by rewrite Hex).
    apply Qred_inject_Z.
  - rewrite Hex. eapply Qlt_le_trans; [exact Hlt|]. by vm_compute.
Qed.

(** Half a frame rate is a float. *)
Lemma half_frame_rate (fps : nat) :
  0 < fps → (Z.of_nat fps < 2 ^ 53)%Z →
  ∃ half,
    Float.truediv (Z.of_nat fps) 2 = Value (Float.Finite half)
    ∧ (half == inject_Z (Z.of_nat fps) / 2)%Q.
Proof.
  intros Hfps Hsmall.
  set (x := (inject_Z (Z.of_nat fps) / inject_Z 2)%Q).
  assert (0 < x)%Q as Hx by (apply quotient_pos; lia).
  assert (x == inject_Z (Z.of_nat fps) * Float.pow2 (-1))%Q as Hrep by done.
  assert (x < Float.pow2 (-1 + 53))%Q as Hlt.
  { assert (Float.pow2 (-1 + 53) == inject_Z (2 ^ 53) * Float.pow2 (-1))%Q
      as Hp by done.
    rewrite Hrep, Hp. apply Qmult_lt_compat_r; [done|].
    rewrite <- Zlt_Qlt. lia. }
  pose proof (round_pos_exact x _ (-1) Hx ltac:(lia) Hlt Hrep) as Hex.
  rewrite truediv_pos; [|lia|lia|].
  - fold x. eexists. split; [done|]. by rewrite Qred_correct, Hex.
  - fold x. rewrite Hex. eapply Qlt_le_trans; [exact Hlt|]. by vm_compute.
Qed.

(** The time a buffer spans is a positive float, and it is one second
    for a full buffer. *)
Lemma buffer_time (len fps : nat) :
  0 < len ≤ fps → (Z.of_nat fps < 2 ^ 53)%Z →
  ∃ time,
    Float.truediv (Z.of_nat len) (Z.of_nat fps) = Value (Float.Finite time)
    ∧ (0 < time)%Q
    ∧ (len = fps → time = 1%Q).
Proof.
  intros Hlen Hsmall.
  set (x := (inject_Z (Z.of_nat len) / inject_Z (Z.of_nat fps))%Q).
  assert (0 < inject_Z (Z.of_nat fps))%Q as HfQ
    by (rewrite <- (Zlt_Qlt 0); lia).
  assert (0 < x)%Q as Hx by (apply quotient_pos; lia).
  assert (x <= inject_Z 1 * Float.pow2 0)%Q as Hub.
  { unfold x. apply Qle_shift_div_r; [done|].
    change (inject_Z 1 * Float.pow2 0)%Q with (1 * 1)%Q.
    rewrite !Qmult_1_l, <- Zle_Qle. lia. }
  assert (x < Float.pow2 (0 + 53))%Q as Hlt.
  { eapply Qle_lt_trans; [exact Hub|]. by vm_compute. }
  pose proof (round_pos_le x 1 0 Hx ltac:(lia) Hlt Hub) as Hr.
  rewrite truediv_pos; [|lia|lia|].
  2:{ fold x. eapply Qle_lt_trans; [exact Hr|]. by vm_compute. }
  fold x. eexists. split; [done|]. split.
  - rewrite Qred_correct.
    assert (Float.pow2 (-53) <= x)%Q as Hlo.
    { unfold x. apply Qle_shift_div_l; [done|].
      apply Qle_trans with (Float.pow2 (-53) * inject_Z (2 ^ 53))%Q.
      - apply Qmult_le_l; [by vm_compute|]. rewrite <- Zle_Qle. lia.
      - apply Qle_trans with 1%Q; [by vm_compute|].
        rewrite <- (Zle_Qle 1). lia. }
    assert (Float.pow2 (-1022) <= x)%Q as Hnorm.
    { eapply Qle_trans; [|exact Hlo]. by vm_compute. }
    destruct (round_pos_relative x Hnorm) as [_ Hrel].
    assert ((1 # 2 ^ 53) == 1 # 9007199254740992)%Q as Hc by done.
    rewrite Hc in Hrel. lra.
  - intros ->.
    assert (x == inject_Z 1 * Float.pow2 0)%Q as Hone.
    { unfold x. change (inject_Z 1 * Float.pow2 0)%Q with (1 * 1)%Q.
      field. lra. }
    pose proof (round_pos_exact x 1 0 Hx ltac:(lia) Hlt Hone) as Hex.
    rewrite (Qred_complete _ 1%Q); [done|]. by rewrite Hex, Hone.
Qed.

(** The guard of the ramp-up compares the length with half the frame
    rate exactly. *)
Lemma machine_half_guard (len fps : nat) (half : Q) :
  (half == inject_Z (Z.of_nat fps) / 2)%Q →
  Float.ltb (Float.Finite (inject_Z (Z.of_nat len))) (Float.Finite half)
    = true ↔ 2 * len < fps.
Proof.
  intros H. rewrite ltb_finite, H. apply half_guard.
Qed.

Lemma int64_small (z : Z) : (Z.abs z < 2 ^ 63)%Z → Machine.int64 z = z.
Proof.
  intros Hz. unfold Machine.int64.
  rewrite Z.mod_small; lia.
Qed.

(** The [int64] distance does not depend on the direction of travel,
    also when the difference wraps around. *)
Lemma int64_distance_sym (x y : Z) :
  Machine.int64 (Z.abs (Machine.int64 (x - y)))
  = Machine.int64 (Z.abs (Machine.int64 (y - x))).
Proof.
  unfold Machine.int64. f_equal. f_equal. f_equal.
  pose proof (Z.div_mod (x - y + 2 ^ 63) (2 ^ 64) ltac:(lia)) as H1.
  pose proof (Z.div_mod (y - x + 2 ^ 63) (2 ^ 64) ltac:(lia)) as H2.
  pose proof (Z.mod_pos_bound (x - y + 2 ^ 63) (2 ^ 64) ltac:(lia)) as B1.
  pose proof (Z.mod_pos_bound (y - x + 2 ^ 63) (2 ^ 64) ltac:(lia)) as B2.
  set (m1 := ((x - y + 2 ^ 63) `mod` 2 ^ 64)%Z) in *.
  set (m2 := ((y - x + 2 ^ 63) `mod` 2 ^ 64)%Z) in *.
  set (q1 := ((x - y + 2 ^ 63) `div` 2 ^ 64)%Z) in *.
  set (q2 := ((y - x + 2 ^ 63) `div` 2 ^ 64)%Z) in *.
  lia.
Qed.

(** ** Signs *)

Lemma round_nonneg (x : Q) : (0 <= x)%Q → Float.nonneg (Float.round x).
Proof.
  intros Hx. unfold Float.round.
  destruct (Qcompare_spec x 0) as [H|H|H]; [by simpl|lra|].
  destruct (Qle_bool _ _); [done|]. simpl.
  rewrite Qred_correct. by apply round_pos_nonneg.
Qed.

Lemma negative_false (x : Q) : (0 <= x)%Q → Float.negative x = false.
Proof.
  intros Hx. unfold Float.negative. apply negb_false_iff.
  by apply Qle_bool_iff.
Qed.

Lemma nonzero (x : Q) : (0 < x)%Q → Qeq_bool x 0 = false.
Proof.
  intros Hx. apply not_true_iff_false. intros H%Qeq_bool_iff. lra.
Qed.

Lemma div_nonneg (a : Float.t) (y : Q) :
  Float.nonneg a → (0 < y)%Q → Float.nonneg (Float.div a (Float.Finite y)).
Proof.
  intros Ha Hy. destruct a as [x|s|]; simpl in *; [|subst s|done].
  - rewrite (nonzero y Hy). apply round_nonneg.
    apply Qle_shift_div_l; [done|]. lra.
  - by rewrite negative_false by lra.
Qed.

Lemma mul_nonneg (a : Float.t) (y : Q) :
  Float.nonneg a → (0 < y)%Q → Float.nonneg (Float.mul a (Float.Finite y)).
Proof.
  intros Ha Hy. destruct a as [x|s|]; simpl in *; [|subst s|done].
  - apply round_nonneg. nra.
  - rewrite (nonzero y Hy). by rewrite negative_false by lra.
Qed.

Lemma nonneg_not_below_zero (a : Float.t) :
  Float.nonneg a → Float.ltb a (Float.Finite 0) = false.
Proof.
  destruct a as [x|s|]; simpl; [|by intros ->|done].
  intros Hx. apply negb_false_iff. by apply Qle_bool_iff.
Qed.

Lemma truediv_value (a b : Z) (x : Float.t) :
  Float.truediv a b = Value x →
  x = Float.round (inject_Z a / inject_Z b).
Proof.
  unfold Float.truediv. destruct (b =? 0)%Z; [done|].
  destruct (Float.round _); [|done|]; by intros [= <-].
Qed.

(** The literal [3.6]. *)
Lemma literal_3_6 :
  Float.round (36 # 10)
  = Float.Finite (8106479329266893 # 2251799813685248).
Proof. by vm_compute. Qed.

(** ** The speed estimate *)

(** The estimate for a buffer [deque(maxlen=fps)] can hold. *)
Lemma machine_estimate_speed_eq (fps : nat) (coordinates : list Z)
    (newest oldest : Z) :
  0 < fps → (Z.of_nat fps < 2 ^ 53)%Z → length coordinates ≤ fps →
  last coordinates = Some newest → head coordinates = Some oldest →
  let len := length coordinates in
  let distance := Machine.int64 (Z.abs (Machine.int64 (newest - oldest))) in
  ∃ time,
    Float.round (inject_Z (Z.of_nat len) / inject_Z (Z.of_nat fps))
      = Float.Finite time
    ∧ (0 < time)%Q
    ∧ (len = fps → time = 1%Q)
    ∧ Machine.estimate_speed fps coordinates
      = if bool_decide (2 * len < fps) then Value (Float.Finite 0)
        else Value (Float.mul
                      (Float.div (Float.of_int distance) (Float.Finite time))
                      (Float.round (36 # 10))).
Proof.
  intros Hfps Hsmall Hcap Hlast Hhead len distance.
  assert (0 < len) as Hlen.
  { unfold len. destruct coordinates; [done|simpl; lia]. }
  destruct (buffer_time len fps ltac:(lia) Hsmall)
    as (time & Htime & Hpos & Hfull).
  exists time. rewrite <- (truediv_value _ _ _ Htime).
  split; [done|]. split; [done|]. split; [done|].
  unfold Machine.estimate_speed. fold len.
  destruct (half_frame_rate fps Hfps Hsmall) as (half & -> & Hhalf).
  pose proof (machine_half_guard len fps half Hhalf) as Hguard.
  destruct (Float.ltb _ _).
  - by rewrite bool_decide_eq_true_2 by (by apply Hguard).
  - rewrite bool_decide_eq_false_2.
    + by rewrite Hlast, Hhead, Htime.
    + intros H. by apply Hguard in H.
Qed.

(** C5. Claim: with at least [fps / 2] samples the speed equals
    [|newest - oldest| / (len / fps) * 3.6].  Amended: it is that
    expression as the program evaluates it, from left to right on machine
    numbers: the distance is the [int64] absolute difference (the
    absolute difference itself unless it reaches [2^63]), [len / fps] is
    rounded to a float, and so are the quotient and the product with the
    float [3.6].  With fewer than [fps / 2] samples the speed is 0.  For a
    frame rate of 30 and 30 samples from 100 to 250 it is exactly 540. *)
Theorem C5_speed_estimate_rounds (fps : nat) (coordinates : list Z)
    (newest oldest : Z) :
  0 < fps → (Z.of_nat fps < 2 ^ 53)%Z → length coordinates ≤ fps →
  last coordinates = Some newest → head coordinates = Some oldest →
  let len := length coordinates in
  let distance := Machine.int64 (Z.abs (Machine.int64 (newest - oldest))) in
  let time :=
    Float.round (inject_Z (Z.of_nat len) / inject_Z (Z.of_nat fps)) in
  (2 * len < fps →
     Machine.estimate_speed fps coordinates = Value (Float.Finite 0))
  ∧ (fps ≤ 2 * len →
       Float.truediv (Z.of_nat len) (Z.of_nat fps) = Value time
       ∧ Machine.estimate_speed fps coordinates
         = Value (Float.mul (Float.div (Float.of_int distance) time)
                            (Float.round (36 # 10))))
  ∧ ((Z.abs (newest - oldest) < 2 ^ 63)%Z →
       distance = Z.abs (newest - oldest))
  ∧ (fps = 30 → len = 30 → oldest = 100%Z → newest = 250%Z →
       Machine.estimate_speed fps coordinates = Value (Float.Finite 540)).
Proof.
  intros Hfps Hsmall Hcap Hlast Hhead len distance time.
  destruct (machine_estimate_speed_eq fps coordinates newest oldest
              Hfps Hsmall Hcap Hlast Hhead)
    as (t & Ht & Hpos & Hfull & Heq).
  fold len distance in Ht, Hfull, Heq. fold time in Ht.
  assert (0 < len) as Hlen.
  { unfold len. destruct coordinates; [done|simpl; lia]. }
  assert (Float.truediv (Z.of_nat len) (Z.of_nat fps) = Value time) as Hdiv.
  { unfold Float.truediv. rewrite (proj2 (Z.eqb_neq _ 0)) by lia.
    fold time. by rewrite Ht. }
  split; [intros H; by rewrite Heq, bool_decide_eq_true_2|].
  split.
  { intros H. split; [done|].
    rewrite Heq, bool_decide_eq_false_2 by lia. by rewrite Ht. }
  split.
  { intros Hd. unfold distance.
    rewrite (int64_small (newest - oldest)) by lia.
    apply int64_small. lia. }
  intros -> Hl -> ->. rewrite Heq, bool_decide_eq_false_2 by lia.
  rewrite (Hfull Hl). by vm_compute.
Qed.

(** X10. For a positive frame rate and a buffer a [deque(maxlen=fps)] can
    hold, the speed estimate is defined, does not depend on the direction
    of travel, is 0 for a vehicle that is where it was, is never negative
    as long as the difference of the coordinates does not wrap around,
    and for a full buffer over less than [2^53] units it is the product
    of the distance and [3.6], rounded once. *)
Theorem machine_estimate_speed_properties (fps : nat) (coordinates : list Z)
    (newest oldest : Z) :
  0 < fps → (Z.of_nat fps < 2 ^ 53)%Z → length coordinates ≤ fps →
  last coordinates = Some newest → head coordinates = Some oldest →
  ∃ v,
    Machine.estimate_speed fps coordinates = Value v
    ∧ Machine.estimate_speed fps (reverse coordinates) = Value v
    ∧ (newest = oldest → v = Float.Finite 0)
    ∧ ((Z.abs (newest - oldest) < 2 ^ 63)%Z →
         Float.nonneg v ∧ Float.ltb v (Float.Finite 0) = false)
    ∧ (length coordinates = fps → (Z.abs (newest - oldest) < 2 ^ 53)%Z →
         v = Float.mul (Float.Finite (inject_Z (Z.abs (newest - oldest))))
                       (Float.round (36 # 10))).
Proof.
  intros Hfps Hsmall Hcap Hlast Hhead.
  destruct (machine_estimate_speed_eq fps coordinates newest oldest
              Hfps Hsmall Hcap Hlast Hhead)
    as (t & Ht & Hpos & Hfull & Heq). cbv zeta in *.
  destruct (machine_estimate_speed_eq fps (reverse coordinates) oldest
              newest Hfps Hsmall)
    as (t' & Ht' & _ & _ & Heq').
  { by rewrite length_reverse. }
  { by rewrite last_reverse. }
  { by rewrite head_reverse. }
  cbv zeta in *. rewrite length_reverse in Ht', Heq'.
  rewrite Ht in Ht'. injection Ht' as <-.
  rewrite (int64_distance_sym oldest newest) in Heq'.
  set (distance := Machine.int64 (Z.abs (Machine.int64 (newest - oldest))))
    in *.
  rewrite literal_3_6 in Heq, Heq' |- *.
  set (c := (8106479329266893 # 2251799813685248)%Q) in *.
  assert (0 < c)%Q as Hc by done.
  destruct (bool_decide (2 * length coordinates < fps)) eqn:Hshort.
  - exists (Float.Finite 0). split; [done|]. split; [done|].
    split; [done|]. split; [intros _; split; [by simpl|done]|].
    apply bool_decide_eq_true in Hshort. intros Hl. lia.
  - eexists. split; [exact Heq|]. split; [exact Heq'|].
    split.
    { intros ->. unfold distance. rewrite Z.sub_diag.
      change (Float.of_int _) with (Float.Finite 0). simpl.
      rewrite (nonzero t Hpos), round_zero by (unfold Qdiv; apply Qmult_0_l).
      simpl. apply round_zero. apply Qmult_0_l. }
    split.
    { intros Hd.
      assert (distance = Z.abs (newest - oldest)) as ->.
      { unfold distance. rewrite (int64_small (newest - oldest)) by lia.
        apply int64_small. lia. }
      assert (Float.nonneg
                (Float.mul
                   (Float.div (Float.of_int (Z.abs (newest - oldest)))
                      (Float.Finite t)) (Float.Finite c))) as Hnn.
      { apply mul_nonneg; [|done]. apply div_nonneg; [|done].
        apply round_nonneg. rewrite <- (Zle_Qle 0). lia. }
      split; [done|]. by apply nonneg_not_below_zero. }
    intros Hl Hd.
    assert (distance = Z.abs (newest - oldest)) as ->.
    { unfold distance. rewrite (int64_small (newest - oldest)) by lia.
      apply int64_small. lia. }
    rewrite (Hfull Hl). f_equal.
    destruct (decide (Z.abs (newest - oldest) = 0%Z)) as [Hz|Hnz].
    { rewrite Hz. by vm_compute. }
    unfold Float.of_int.
    rewrite (round_small_int _ (Z.abs (newest - oldest))) by (done || lia).
    simpl. apply round_small_int; [lia|]. field.
Qed.

(** ** The examples, run *)

Lemma C3_sequence_numbers_witness :
  let w := run iso_sample "run-1" sample_calls in
  Violation.violation_number <$> violations_of (analyzer w) "8_truck"
    = [1; 2]
  ∧ violations_of (analyzer w) "9_bus" = []
  ∧ (5 <= 60)%Q
  ∧ ∃ v,
      result (record_violation iso_sample (Some 9%Z) "bus" 60%Q
                "2024-05-01T10:00:07.500000" (analyzer w))
        = Returned (Some v)
      ∧ Violation.violation_number v = 1.
Proof.
  pose proof (C3_sequence_numbers iso_sample "run-1" sample_calls "9_bus")
    as (_ & _ & Hfirst).
  destruct (Hfirst 9%Z "bus" 60%Q "2024-05-01T10:00:07.500000"
              eq_refl eq_refl ltac:(by vm_compute))
    as (v & Hv & Hn & _).
  split; [by vm_compute|]. split; [by vm_compute|].
  split; [by vm_compute|]. by exists v.
Defined.

(** The sample run: the truck is first measured at 120 km/h, which
    raises no alert, and then at 135.5 km/h, which does; the car never
    exceeds the limit. *)
Lemma sample_run_alerts :
  sent (run iso_sample "run-1" sample_calls)
  = ["ALERT! truck #8 at 135 km/h"]
  ∧ (Violation.speed_kmh <$> emitted (run iso_sample "run-1" sample_calls))
    = [80; 91; 120; 135]%Z.
Proof. by vm_compute. Qed.

Lemma C4_sightings_deduplicated_witness :
  let a' := sightings 7 "car" [false; true; true] (init "run-1") in
  [false; true; true] ≠ []
  ∧ size (all_vehicles_seen a') = 1
  ∧ class_count a' "car" = 1
  ∧ zone_vehicles_seen a' = {["7_car"]}.
Proof.
  pose proof (C4_sightings_deduplicated iso_sample 7 "car"
                [false; true; true] (init "run-1") ltac:(done))
    as (_ & _ & _ & _ & Hfresh & Hzone & _).
  destruct (Hfresh "run-1" eq_refl) as [Hsize Hcount].
  split; [done|]. split; [exact Hsize|]. split; [exact Hcount|].
  rewrite Hzone. simpl. apply (left_id_L ∅ (∪)).
Defined.

Lemma C6_ignorable_input_is_skipped_witness :
  (4 < 5)%Q
  ∧ record_violation iso_sample (Some 7%Z) "car" 4%Q "2024-05-01T10:00:06"
      tracked_at_80
    = mkEffect tracked_at_80 (Returned None) [].
Proof.
  destruct (C6_ignorable_input_is_skipped iso_sample) as (_ & _ & Hlow).
  assert (4 < 5)%Q as Hs by (by vm_compute).
  split; [exact Hs|]. exact (Hlow _ _ _ _ _ Hs).
Defined.

Lemma C9_distinct_pairs_distinct_keys_witness :
  (1%Z, "2_car") ≠ (12%Z, "car")
  ∧ vehicle_key 1 "2_car" = "1_2_car"
  ∧ vehicle_key 12 "car" = "12_car"
  ∧ vehicle_key 1 "2_car" ≠ vehicle_key 12 "car".
Proof.
  assert ((1%Z, "2_car") ≠ (12%Z, "car")) as Hne by (by intros [=]).
  split; [exact Hne|]. split; [by vm_compute|]. split; [by vm_compute|].
  exact (proj1 (C9_distinct_pairs_distinct_keys iso_sample 1 12 "2_car" "car"
                  Hne)).
Defined.

(** ** Further examples, run *)

Lemma vehicle_state_mirrors_last_record_witness :
  let a := analyzer (run iso_sample "run-1" sample_calls) in
  ∃ st l v,
    vehicle_states a !! "8_truck" = Some st
    ∧ violations a !! "8_truck" = Some (l ++ [v])
    ∧ Violation.violation_number v = VehicleState.violation_count st
    ∧ Violation.speed_kmh v = 135%Z.
Proof.
  destruct (vehicle_state_mirrors_last_record iso_sample "run-1"
              sample_calls "8_truck") as [_ Hstate].
  destruct (Hstate (VehicleState.mk (271 # 2) "2024-05-01T10:00:06" 2
                      (271 # 2)) eq_refl)
    as (l & v & Hl & _ & Hspeed & Hnum & _).
  eexists _, l, v. split; [reflexivity|]. split; [exact Hl|].
  split; [exact Hnum|]. exact Hspeed.
Defined.

Lemma statistics_bounds_witness :
  let s := get_statistics (analyzer (run iso_sample "run-1" sample_calls)) in
  0 < Stats.total_unique_violations s
  ∧ (5 <= Stats.avg_speed s)%Q
  ∧ (Stats.avg_speed s <= inject_Z (Stats.max_speed s))%Q.
Proof.
  destruct (statistics_bounds iso_sample "run-1" sample_calls) as [_ Hb].
  assert (0 < Stats.total_unique_violations
                (get_statistics
                   (analyzer (run iso_sample "run-1" sample_calls))))
    as Hpos by (vm_compute; lia).
  destruct (Hb Hpos) as (_ & Hlo & Hhi).
  split; [exact Hpos|]. split; [exact Hlo|exact Hhi].
Defined.

Lemma buffer_holds_latest_samples_witness :
  ∃ s, main_loop iso_sample 4 "run-1" sample_frames = Some s
       ∧ default [] (coordinates s !! 7%Z) = [110; 120; 130; 170]%Z.
Proof.
  destruct (main_loop iso_sample 4 "run-1" sample_frames) as [s|] eqn:Hmain;
    [|by vm_compute in Hmain].
  exists s. split; [reflexivity|].
  rewrite (buffer_holds_latest_samples iso_sample 4 "run-1" sample_frames
             s 7 Hmain).
  by vm_compute.
Defined.

Lemma main_loop_statistics_witness :
  ∃ s, main_loop iso_sample 4 "run-1" sample_frames = Some s
       ∧ Stats.vehicles_with_violations
           (get_statistics (analyzer (trace s)))
         ≤ Stats.vehicles_in_zone (get_statistics (analyzer (trace s))).
Proof.
  destruct (main_loop iso_sample 4 "run-1" sample_frames) as [s|] eqn:Hmain;
    [|by vm_compute in Hmain].
  exists s. split; [reflexivity|].
  exact (proj1 (proj2 (main_loop_statistics iso_sample 4 "run-1"
                         sample_frames s Hmain))).
Defined.

Lemma main_loop_completes_witness :
  0 < 4 ∧ is_Some (main_loop iso_sample 4 "run-1" sample_frames).
Proof.
  split; [lia|].
  apply main_loop_completes; [lia|].
  intros d Hd. unfold all_zone, sample_frames in Hd. simpl in Hd.
  repeat (apply elem_of_cons in Hd as [->|Hd]);
    try (by apply elem_of_nil in Hd);
    vm_compute; eauto.
Defined.

Lemma ramp_up_records_nothing_witness :
  let d := mkZone (Some 7%Z) 100 "car" "2024-05-01T10:00:00" in
  let s := mkLoop ∅ (mkWorld (init "run-1") [] []) in
  2 * (0 + 1) < 30
  ∧ ∃ s', zone_detection_step iso_sample 30 d s
          = Some (s', Some "#7 car 0 km/h")
          ∧ emitted (trace s') = [].
Proof.
  intros d s. split; [lia|].
  assert (2 * (length (default [] (coordinates s !! 7%Z)) + 1) < 30)
    as Hshort by (vm_compute; lia).
  eexists. split.
  - exact (ramp_up_records_nothing iso_sample 30 d s 7 eq_refl Hshort).
  - reflexivity.
Defined.

Lemma saving_ignores_batches_witness :
  let items :=
    map_to_list (violations (analyzer (run iso_sample "run-1" sample_calls)))
  in
  (∀ d db, (store_all d db).2 = true)
  ∧ save_individual_violations (list ViolationDoc.t) store_all items "run-1"
      []
    = (violations_list "run-1" items, true).
Proof.
  assert (∀ d db, (store_all d db).2 = true) as Hok by done.
  split; [exact Hok|].
  destruct (saving_ignores_batches (list ViolationDoc.t) store_all
              (map_to_list
                 (violations (analyzer (run iso_sample "run-1" sample_calls))))
              "run-1" []) as (-> & _ & Hall & _).
  by vm_compute.
Defined.

Lemma documents_agree_with_reports_witness :
  let a := analyzer (run iso_sample "run-1" sample_calls) in
  let docs := violations_list "run-1" (map_to_list (violations a)) in
  length docs = 4
  ∧ speeding_count (violation_lists a) = 2
  ∧ ∀ d, d ∈ docs →
      ViolationDoc.severity d = "low" ↔ ViolationDoc.is_speeding d = false.
Proof.
  destruct (documents_agree_with_reports "run-1"
              (analyzer (run iso_sample "run-1" sample_calls)))
    as (_ & _ & _ & Hdocs & _).
  split; [by vm_compute|]. split; [by vm_compute|].
  intros d Hd. exact (proj1 (Hdocs d Hd)).
Defined.

Lemma performance_scores_bounded_witness :
  let stats :=
    get_statistics (analyzer (run iso_sample "run-1" sample_calls)) in
  ∃ sc, performance_scores stats = Some sc
        ∧ (0 <= overall_score sc <= 100)%Q
        ∧ (compliance_score sc == 65)%Q.
Proof.
  intros stats.
  destruct (performance_scores stats) as [sc|] eqn:Hsc;
    [|by vm_compute in Hsc].
  exists sc. split; [reflexivity|].
  destruct (performance_scores_bounded stats) as [_ Hbounds].
  destruct (Hbounds sc Hsc) as (_ & _ & _ & Hoverall & _).
  split; [exact Hoverall|].
  vm_compute in Hsc. injection Hsc as <-. by vm_compute.
Defined.

Lemma risk_levels_agree_witness :
  scorecard_risk_level 150 = "medium"
  ∧ risk_level (risk_score 150) = "Medium".
Proof.
  split; [reflexivity|].
  exact (proj2 (proj1 (proj2 (risk_levels_agree 150))) eq_refl).
Defined.

(** ** The examples, run on machine numbers *)

(** C7 fails for a speed that is not a number: on a fresh analyzer the
    call stores the state of the vehicle, raises [ValueError] in
    [int(speed_kmh)] and appends no record, which is neither a commit nor
    a call without effect. *)
Lemma C7_nan_speed_is_half_recorded :
  let a := Machine.init "run-1" in
  let e :=
    Machine.record_violation clock_sample (Some 7%Z) "car" Float.NaN
      "2024-05-01T10:00:00" a in
  Machine.result e = Machine.Raised ValueError
  ∧ Machine.violations (Machine.after e) = Machine.violations a
  ∧ Machine.vehicle_states a !! "7_car" = None
  ∧ Machine.vehicle_states (Machine.after e) !! "7_car"
    = Some (Machine.VehicleState.mk Float.NaN "2024-05-01T10:00:00" 1
              Float.NaN)
  ∧ ¬ (Machine.commits 7 "car" Float.NaN "2024-05-01T10:00:00" a e
       ∨ Machine.no_op a e).
Proof.
  split; [done|]. split; [done|]. split; [done|]. split; [done|].
  intros [(v & st & Hres & _)|(Hafter & _)]; [done|].
  apply (f_equal (λ a, Machine.vehicle_states a !! "7_car")) in Hafter.
  by vm_compute in Hafter.
Qed.

Lemma C7_finite_speed_commits_or_does_nothing_witness :
  Float.is_finite (Float.Finite 150) = true
  ∧ ((∃ id, Some 7%Z = Some id
            ∧ Machine.commits id "car" (Float.Finite 150)
                "2024-05-01T10:00:00" (Machine.init "run-1")
                (Machine.record_violation clock_sample (Some 7%Z) "car"
                   (Float.Finite 150) "2024-05-01T10:00:00"
                   (Machine.init "run-1")))
     ∨ Machine.no_op (Machine.init "run-1")
         (Machine.record_violation clock_sample (Some 7%Z) "car"
            (Float.Finite 150) "2024-05-01T10:00:00"
            (Machine.init "run-1"))).
Proof.
  split; [reflexivity|].
  exact (C7_finite_speed_commits_or_does_nothing clock_sample (Some 7%Z)
           "car" (Float.Finite 150) "2024-05-01T10:00:00"
           (Machine.init "run-1") eq_refl).
Defined.

(** C2 fails on floats: the speed moved by more than 10 km/h, from
    5.000000000000001 to 15.000000000000002, within one second, and no
    record is emitted, because the difference rounds to 10. *)
Lemma C2_difference_above_10_rounds_to_10 :
  let last := Float.round (5000000000000001 # 1000000000000000) in
  let speed := Float.round (15000000000000002 # 1000000000000000) in
  let a :=
    Machine.after
      (Machine.record_violation clock_sample (Some 7%Z) "car" last
         "2024-05-01T10:00:00" (Machine.init "run-1")) in
  let e :=
    Machine.record_violation clock_sample (Some 7%Z) "car" speed
      "2024-05-01T10:00:01" a in
  ∃ x0 x,
    last = Float.Finite x0
    ∧ speed = Float.Finite x
    ∧ Machine.VehicleState.last_speed <$> Machine.vehicle_states a !! "7_car"
      = Some last
    ∧ (5 <= x)%Q
    ∧ (10 < Qabs (x - x0))%Q
    ∧ Float.abs (Float.sub speed last) = Float.Finite 10
    ∧ Machine.result e = Machine.Returned None
    ∧ Machine.after e = a.
Proof.
  eexists _, _. split; [by vm_compute|]. split; [by vm_compute|].
  split; [by vm_compute|]. split; [by vm_compute|].
  split; [by vm_compute|]. split; [by vm_compute|].
  split; by vm_compute.
Qed.

Lemma C2_debounce_on_rounded_difference_witness :
  ∃ v,
    Machine.result
      (Machine.record_violation clock_sample (Some 7%Z) "car"
         (Float.Finite 91) "2024-05-01T10:00:01" Machine.tracked_at_80)
    = Machine.Returned (Some v).
Proof.
  assert (Machine.vehicle_states Machine.tracked_at_80 !! vehicle_key 7 "car"
          = Some (Machine.VehicleState.mk (Float.Finite 80)
                    "2024-05-01T10:00:00" 1 (Float.Finite 80))) as Hk
    by (by vm_compute).
  destruct (C2_debounce_on_rounded_difference clock_sample 7 "car"
              (Float.Finite 91) "2024-05-01T10:00:01" Machine.tracked_at_80
              _ (datetime.mk 1000000 false) (datetime.mk 0 false)
              Hk eq_refl eq_refl eq_refl eq_refl eq_refl
              ltac:(vm_compute; discriminate))
    as (_ & _ & _ & Hex).
  exact (proj1 (Hex eq_refl) eq_refl eq_refl).
Defined.

(** C5 fails on floats: at 10 frames per second, for a buffer of nine
    samples that ends 61 units from where it starts, the formula gives
    244 and the program 243.99999999999997, recorded and shown as 243. *)
Lemma C5_speed_below_the_formula :
  let coordinates := [0; 0; 0; 0; 0; 0; 0; 0; 61]%Z in
  ∃ v,
    Machine.estimate_speed 10 coordinates = Value (Float.Finite v)
    ∧ (inject_Z (Z.abs (61 - 0)) / (inject_Z 9 / inject_Z 10) * (36 # 10)
       == 244)%Q
    ∧ (v < 244)%Q
    ∧ Float.int (Float.Finite v) = Value 243%Z.
Proof.
  eexists. split; [by vm_compute|]. split; [by vm_compute|].
  split; by vm_compute.
Qed.

Lemma C5_speed_estimate_rounds_witness :
  Machine.estimate_speed 30 (100 :: replicate 28 175 ++ [250])%Z
  = Value (Float.Finite 540).
Proof.
  exact (proj2 (proj2 (proj2
           (C5_speed_estimate_rounds 30 (100 :: replicate 28 175 ++ [250])%Z
              250 100 ltac:(lia) ltac:(lia) ltac:(simpl; lia)
              eq_refl eq_refl)))
           eq_refl eq_refl eq_refl eq_refl).
Defined.

(** C8 fails on floats: for seven records whose speeds add up to 58 the
    mean is the float nearest to 58/7, and seven times that float is not
    58, neither as a number nor as the float product. *)
Lemma C8_mean_times_count_is_not_the_sum :
  let a :=
    Machine.analyzer
      (Machine.run clock_sample "run-1" Machine.seven_records) in
  ∃ s avg,
    Machine.get_statistics a = Value s
    ∧ Machine.Stats.total_unique_violations s = 7
    ∧ foldr Z.add 0%Z (Violation.speed_kmh <$> Machine.all_records a)
      = 58%Z
    ∧ Machine.Stats.avg_speed s = Float.Finite avg
    ∧ ¬ (avg * 7 == 58)%Q
    ∧ Float.mul (Float.Finite avg) (Float.of_int 7) ≠ Float.Finite 58.
Proof.
  eexists _, _. split; [by vm_compute|]. split; [by vm_compute|].
  split; [by vm_compute|]. split; [by vm_compute|].
  split; by vm_compute.
Qed.

Lemma machine_estimate_speed_properties_witness :
  0 < 4
  ∧ ∃ v, Machine.estimate_speed 4 [100; 110; 120; 130]%Z = Value v
         ∧ Machine.estimate_speed 4 [130; 120; 110; 100]%Z = Value v
         ∧ v = Float.Finite 108.
Proof.
  split; [lia|].
  destruct (machine_estimate_speed_properties 4 [100; 110; 120; 130]%Z
              130 100 ltac:(lia) ltac:(lia) ltac:(simpl; lia)
              eq_refl eq_refl)
    as (v & Hv & Hrev & _ & _ & Hfull).
  exists v. split; [exact Hv|]. split; [exact Hrev|].
  rewrite (Hfull eq_refl ltac:(lia)). by vm_compute.
Defined.

(** A difference of the coordinates that wraps around gives a negative
    distance and a negative speed. *)
Lemma wrapped_distance_gives_a_negative_speed :
  ∃ v,
    Machine.estimate_speed 2 [- 2 ^ 63; 0]%Z = Value v
    ∧ Float.ltb v (Float.Finite 0) = true.
Proof. eexists. split; by vm_compute. Qed.

(** ** The arithmetic, run against the processor *)

(** The operations of [Float] give what the processor gives on a table
    of operands, and so do the decimal literals, the subtraction of the
    debounce, the quotient and the product of the speed estimate and the
    mean of the statistics on the inputs of the examples. *)
Section HardwareExamples.

Import PrimFloat.

Lemma arithmetic_on_the_processor :
  forallb Hardware.agree Hardware.operands = true
  ∧ forallb Hardware.agree_truediv Hardware.dividends = true.
Proof. split; by vm_compute. Qed.

Lemma subtraction_on_the_processor :
  let last := 0x1.4000000000001p+2%float in
  let speed := 0x1.e000000000001p+3%float in
  Hardware.to_prim (Float.round (5000000000000001 # 1000000000000000)) = last
  ∧ Hardware.to_prim (Float.round (15000000000000002 # 1000000000000000))
    = speed
  ∧ Hardware.to_prim
      (Float.sub (Hardware.of_prim speed) (Hardware.of_prim last))
    = (speed - last)%float
  ∧ (speed - last)%float = 10%float.
Proof. by vm_compute. Qed.

Lemma speed_estimate_on_the_processor :
  let time := (9 / 10)%float in
  Hardware.to_prim (Float.round (9 # 10)) = time
  ∧ Hardware.to_prim (Float.round (36 # 10)) = 0x1.ccccccccccccdp+1%float
  ∧ Hardware.to_prim
      (Float.mul (Float.div (Float.of_int 61) (Hardware.of_prim time))
         (Float.round (36 # 10)))
    = (61 / time * 0x1.ccccccccccccdp+1)%float
  ∧ (61 / time * 0x1.ccccccccccccdp+1)%float = 0x1.e7fffffffffffp+7%float.
Proof. by vm_compute. Qed.

Lemma mean_on_the_processor :
  Float.truediv 58 7 = Value (Hardware.of_prim (58 / 7)%float)
  ∧ Hardware.to_prim
      (Float.mul (Hardware.of_prim (58 / 7)%float) (Float.of_int 7))
    = (58 / 7 * 7)%float
  ∧ (58 / 7 * 7)%float = 0x1.d000000000001p+5%float.
Proof. by vm_compute. Qed.

End HardwareExamples.
